(** * Extractor_V18: the record-harvesting engine of [SAPBrowser]

    A shallow embedding of the harvesting functions of
    [src/Extractor_V18.py] (class [SAPBrowser]) and the properties of
    their specification.

    Conventions of the embedding.
    - A Python [str] is a [string]; text outside ASCII is carried as its
      UTF-8 bytes, and [len] and slices count characters, not bytes
      ([Str.char_length], [Str.take_chars]).  The builtins [str.upper]
      and [str.strip] are parameters of the development ([upper],
      [strip]): every general theorem holds for all of them, and the
      concrete evaluations use [ascii_upper] and [ascii_strip], which
      agree with Python on ASCII text.  The digits of [\d] and
      [str.isdigit] are those of ASCII; what is proved of the functions
      that read digits is proved for ASCII text.
    - A Python [int] is a [Z].  Where the source mixes [int]s with
      [float]s, the floats are exact rationals, the [OverflowError] of
      a conversion is modelled with the [except] branch that catches it,
      and the theorems that depend on the arithmetic state the range of
      the counts in which binary64 compares as the exact values do
      (see [Scroll]).
    - A record of an issue is the Python [dict] it is in the source: a
      finite map from field names to strings.
    - The browser is an external collaborator.  What it answers to the
      queries of one call is an explicit observation passed to the
      function; a query that raises is an observation [None]. *)

From Stdlib Require Import ZArith QArith Qminmax Lqa List String Ascii Bool Lia
  DecimalString DecimalNat.
From stdpp Require Import base option list gmap strings.

Local Open Scope string_scope.

(** ** Strings *)

Module Str.

(** [needle in hay] of Python, for [str] operands. *)
Fixpoint contains (needle hay : string) : bool :=
  String.prefix needle hay
  || match hay with
     | EmptyString => false
     | String _ rest => contains needle rest
     end.

(** [any(k in s for k in keywords)]. *)
Definition any_in (keywords : list string) (s : string) : bool :=
  existsb (fun k => contains k s) keywords.

(** Truth value of a [str]: non-empty. *)
Definition truthy (s : string) : bool :=
  match s with EmptyString => false | _ => true end.

Definition ascii_upper_char (c : ascii) : ascii :=
  let n := nat_of_ascii c in
  if (97 <=? n)%nat && (n <=? 122)%nat then ascii_of_nat (n - 32) else c.

(** [str.upper] on ASCII text. *)
Fixpoint ascii_upper (s : string) : string :=
  match s with
  | EmptyString => EmptyString
  | String c rest => String (ascii_upper_char c) (ascii_upper rest)
  end.

(** Python's [str.isspace] on an ASCII character. *)
Definition is_space (c : ascii) : bool :=
  let n := nat_of_ascii c in
  (n =? 32)%nat || ((9 <=? n)%nat && (n <=? 13)%nat)
  || ((28 <=? n)%nat && (n <=? 31)%nat).

Fixpoint lstrip (s : string) : string :=
  match s with
  | EmptyString => EmptyString
  | String c rest => if is_space c then lstrip rest else s
  end.

Fixpoint rstrip (s : string) : string :=
  match s with
  | EmptyString => EmptyString
  | String c rest =>
      let rest' := rstrip rest in
      if is_space c && negb (truthy rest') then EmptyString
      else String c rest'
  end.

(** [str.strip] on ASCII text. *)
Definition ascii_strip (s : string) : string := rstrip (lstrip s).

(** [s.split('\n')[0]]. *)
Fixpoint first_line (s : string) : string :=
  match s with
  | EmptyString => EmptyString
  | String c rest =>
      if Ascii.eqb c "010"%char then EmptyString
      else String c (first_line rest)
  end.

(** A byte that continues the UTF-8 sequence of a character. *)
Definition is_continuation (c : ascii) : bool :=
  let n := nat_of_ascii c in (128 <=? n)%nat && (n <? 192)%nat.

(** [len(s)]: the number of characters, each of them the first byte
    of a UTF-8 sequence. *)
Fixpoint char_length (s : string) : nat :=
  match s with
  | EmptyString => 0
  | String c rest =>
      ((if is_continuation c then 0 else 1) + char_length rest)%nat
  end.

(** [s[:n]]: the first [n] characters with all their bytes. *)
Fixpoint take_chars (n : nat) (s : string) : string :=
  match s with
  | EmptyString => EmptyString
  | String c rest =>
      if is_continuation c then String c (take_chars n rest)
      else match n with
           | O => EmptyString
           | S n' => String c (take_chars n' rest)
           end
  end.

(** [str(n)] for a non-negative [int]. *)
Definition of_nat (n : nat) : string :=
  NilEmpty.string_of_uint (Nat.to_uint n).

End Str.

(** ** RecordValidator: [_validate_and_correct_issue_data] *)

Module Validator.

Definition required_fields : list string :=
  ["Title"; "Type"; "Priority"; "Status"; "Deadline"; "Due Date";
   "Created By"; "Created On"].

Definition status_keywords : list string :=
  ["OPEN"; "DONE"; "IN PROGRESS"; "READY"; "ACCEPTED"; "DRAFT"; "CLOSED"].

Definition priority_keywords : list string :=
  ["HIGH"; "MEDIUM"; "LOW"; "VERY HIGH"].

Definition date_fields : list string :=
  ["Deadline"; "Due Date"; "Created On"].

Definition date_keywords : list string :=
  ["JAN"; "FEB"; "MAR"; "APR"; "MAY"; "JUN"; "JUL"; "AUG"; "SEP"; "OCT";
   "NOV"; "DEC"].

(** The seven fields the corrective steps assign. *)
Definition corrected_fields : list string :=
  ["Type"; "Priority"; "Status"; "Deadline"; "Due Date"; "Created By";
   "Created On"].

(** [d[k]]; the default is never observed once the required fields
    have been filled in (lemma [fill_required_present]). *)
Definition get (d : gmap string string) (k : string) : string :=
  default "" (d !! k).

(** The values of the eight fields in the order of the columns. *)
Definition fields_of (d : gmap string string) : list string :=
  map (get d) required_fields.

(** [k in d]. *)
Definition has_key (d : gmap string string) (k : string) : bool :=
  bool_decide (is_Some (d !! k)).

(** All the required fields are present. *)
Definition complete (d : gmap string string) : Prop :=
  forall f, f ∈ required_fields -> is_Some (d !! f).

(** [for field in required_fields: if field not in d: d[field] = ""]. *)
Definition fill_required (d : gmap string string) : gmap string string :=
  fold_left (fun d f => if has_key d f then d else <[f := ""]> d)
            required_fields d.

(** [temp = d[a]; d[a] = d[b]; d[b] = temp]. *)
Definition swap (d : gmap string string) (a b : string)
  : gmap string string :=
  let temp := get d a in
  <[b := temp]> (<[a := get d b]> d).

Section WithUpper.

Variable upper : string -> string.

Definition looks_like (keywords : list string) (s : string) : bool :=
  Str.any_in keywords (upper s).

(** The inner loops of steps 2, 3 and 4: exchange [target] with the
    first of [fields] that is present, non-empty and carries one of
    [keywords]; stop at the first exchange ([break]). *)
Fixpoint swap_with_first (keywords : list string) (target : string)
         (fields : list string) (d : gmap string string)
  : gmap string string :=
  match fields with
  | [] => d
  | field :: rest =>
      if has_key d field && Str.truthy (get d field) then
        if looks_like keywords (get d field)
        then swap d target field
        else swap_with_first keywords target rest d
      else swap_with_first keywords target rest d
  end.

(** Step 1: Type must not repeat Title. *)
Definition clear_duplicate_type (d : gmap string string) :=
  if String.eqb (get d "Type") (get d "Title")
  then <["Type" := ""]> d else d.

(** Step 2: Status against its vocabulary. *)
Definition check_status (d : gmap string string) :=
  if Str.truthy (get d "Status") then
    if negb (looks_like status_keywords (get d "Status"))
    then swap_with_first status_keywords "Status"
                         ["Priority"; "Type"; "Deadline"] d
    else d
  else d.

(** Step 3: Priority against its vocabulary. *)
Definition check_priority (d : gmap string string) :=
  if Str.truthy (get d "Priority") then
    if negb (looks_like priority_keywords (get d "Priority"))
    then swap_with_first priority_keywords "Priority"
                         ["Type"; "Status"] d
    else d
  else d.

(** Step 4, one date field. *)
Definition check_date_field (d : gmap string string) (date_field : string) :=
  if has_key d date_field && Str.truthy (get d date_field) then
    if negb (looks_like date_keywords (get d date_field))
    then swap_with_first date_keywords date_field
                         ["Status"; "Priority"; "Type"] d
    else d
  else d.

(** Step 4: [for date_field in date_fields]. *)
Definition check_dates (d : gmap string string) :=
  fold_left check_date_field date_fields d.

(** Step 5, the loop: move Created By into the first empty date
    field. *)
Fixpoint move_created_by (fields : list string) (d : gmap string string)
  : gmap string string :=
  match fields with
  | [] => d
  | field :: rest =>
      if has_key d field && negb (Str.truthy (get d field))
      then <["Created By" := ""]> (<[field := get d "Created By"]> d)
      else move_created_by rest d
  end.

(** Step 5: Created By must not be a date. *)
Definition check_created_by (d : gmap string string) :=
  if Str.truthy (get d "Created By") then
    if looks_like date_keywords (get d "Created By")
    then move_created_by date_fields d
    else d
  else d.

(** The assignments of step 6, in the order of the source. *)
Definition rotate_left (d : gmap string string) : gmap string string :=
  let d := <["Type" := get d "Priority"]> d in
  let d := <["Priority" := get d "Status"]> d in
  let d := <["Status" := get d "Deadline"]> d in
  let d := <["Deadline" := get d "Due Date"]> d in
  let d := <["Due Date" := get d "Created By"]> d in
  let d := <["Created By" := get d "Created On"]> d in
  <["Created On" := ""]> d.

(** Step 6: the general column shift. *)
Definition check_shift (d : gmap string string) :=
  if String.eqb (get d "Type") (get d "Title")
     && String.eqb (get d "Priority") (get d "Type")
     && String.eqb (get d "Status") (get d "Priority")
  then rotate_left d else d.

Definition _validate_and_correct_issue_data (issue_data : gmap string string)
  : gmap string string :=
  let d := fill_required issue_data in
  let d := clear_duplicate_type d in
  let d := check_status d in
  let d := check_priority d in
  let d := check_dates d in
  let d := check_created_by d in
  check_shift d.

(** A record that needs no repair but, possibly, of a Type that
    repeats the Title: the Title is not empty, Status and Priority
    are empty or carry a keyword of their vocabulary, the three date
    fields are empty or carry a month token, and Created By carries
    none. *)
Definition empty_or (keywords : list string) (s : string) : bool :=
  negb (Str.truthy s) || looks_like keywords s.

Definition well_shaped (d : gmap string string) : bool :=
  Str.truthy (get d "Title")
  && empty_or status_keywords (get d "Status")
  && empty_or priority_keywords (get d "Priority")
  && empty_or date_keywords (get d "Deadline")
  && empty_or date_keywords (get d "Due Date")
  && empty_or date_keywords (get d "Created On")
  && negb (looks_like date_keywords (get d "Created By")).

(** Not empty and with a keyword of the vocabulary. *)
Definition carries (keywords : list string) (s : string) : bool :=
  Str.truthy s && looks_like keywords s.

(** The records on which the validator is shown to be idempotent.  The
    Title is not empty, and
    - either Status and Priority are in place (each empty or of its
      vocabulary) and the date swaps of step 4 do no harm: the three
      date fields are in place, or none of Type, Priority and Status
      carries a month token, or Status and Priority carry none and the
      Title is not the text of a date field;
    - or none of Type, Priority and Status carries a month token, the
      Title is not the text of Priority or Status, and neither Deadline
      nor Created By carries a status keyword together with a month
      token. *)
Definition regular (d : gmap string string) : bool :=
  let title := get d "Title" in
  let no_date :=
    negb (carries date_keywords (get d "Type"))
    && negb (carries date_keywords (get d "Priority"))
    && negb (carries date_keywords (get d "Status")) in
  let in_place :=
    empty_or status_keywords (get d "Status")
    && empty_or priority_keywords (get d "Priority") in
  let dates_in_place :=
    empty_or date_keywords (get d "Deadline")
    && empty_or date_keywords (get d "Due Date")
    && empty_or date_keywords (get d "Created On") in
  let title_is_no_date :=
    negb (String.eqb (get d "Deadline") title)
    && negb (String.eqb (get d "Due Date") title)
    && negb (String.eqb (get d "Created On") title) in
  Str.truthy title
  && ((in_place
       && (dates_in_place || no_date
           || (negb (carries date_keywords (get d "Status"))
               && negb (carries date_keywords (get d "Priority"))
               && title_is_no_date)))
      || (no_date
          && negb (String.eqb (get d "Priority") title)
          && negb (String.eqb (get d "Status") title)
          && negb (carries status_keywords (get d "Deadline")
                   && carries date_keywords (get d "Deadline"))
          && negb (carries status_keywords (get d "Created By")
                   && carries date_keywords (get d "Created By")))).

End WithUpper.

(** The literal [{'Title': .., .., 'Created On': ..}]. *)
Definition mk_record (title type priority status deadline due_date
                        created_by created_on : string)
  : gmap string string :=
  <["Created On" := created_on]>
    (<["Created By" := created_by]>
       (<["Due Date" := due_date]>
          (<["Deadline" := deadline]>
             (<["Status" := status]>
                (<["Priority" := priority]>
                   (<["Type" := type]>
                      (<["Title" := title]> ∅))))))).

End Validator.

(** ** [_normalize_status] *)

Module Status.

(** The closed vocabulary of the Status field. *)
Definition closed_vocabulary : list string :=
  ["OPEN"; "DONE"; "IN PROGRESS"; "READY"; "READY FOR PUBLISHING"; "DRAFT";
   "CLOSED"; "ACCEPTED"].

Section WithUpper.
Variable upper : string -> string.

(** The argument is [None] or a [str]. *)
Definition _normalize_status (status_text : option string) : string :=
  match status_text with
  | None => ""
  | Some status_text =>
      if negb (Str.truthy status_text) then ""
      else
        let status_upper := upper status_text in
        if Str.contains "OPEN" status_upper then "OPEN"
        else if Str.contains "DONE" status_upper then "DONE"
        else if Str.contains "IN PROGRESS" status_upper then "IN PROGRESS"
        else if Str.contains "READY" status_upper then
          if Str.contains "PUBLISH" status_upper
          then "READY FOR PUBLISHING" else "READY"
        else if Str.contains "ACCEPTED" status_upper then "ACCEPTED"
        else if Str.contains "DRAFT" status_upper then "DRAFT"
        else if Str.contains "CLOSED" status_upper then "CLOSED"
        else status_text
  end.

End WithUpper.

End Status.

(** ** TableTypeClassifier: [_detect_table_type] *)

Module TableType.

(** What the three [find_elements] probes answer: the number of
    elements found, or [None] when the probe raises. *)
Record Probes := {
  standard_ui5 : option nat;     (* //table[contains(@class, 'sapMListTbl')] *)
  responsive_table : option nat; (* //div[contains(@class, 'sapMListItems')] *)
  grid_table : option nat        (* //div[contains(@class, 'sapUiTable')] *)
}.

Definition table_types : list string :=
  ["standard_ui5"; "responsive_table"; "grid_table"; "unknown"].

(** The body of the [try]: the three probes in order, then the
    decision; [None] when one of the probes raises. *)
Definition detect (p : Probes) : option string :=
  n_standard ← standard_ui5 p;
  n_responsive ← responsive_table p;
  n_grid ← grid_table p;
  Some (if (0 <? n_standard)%nat then "standard_ui5"
        else if (0 <? n_responsive)%nat then "responsive_table"
        else if (0 <? n_grid)%nat then "grid_table"
        else "unknown").

(** [try: .. except Exception: return "unknown"]. *)
Definition _detect_table_type (p : Probes) : string :=
  default "unknown" (detect p).

End TableType.

(** ** ScrollDriver: [_should_finish_scrolling], [scroll_to_load_all_items] *)

Module Scroll.

Local Open Scope Z_scope.

(** *** Integers and floats

    The counts are Python [int]s, which are unbounded, and the source
    mixes them with [float]s, which are binary64.

    - Overflow.  A conversion [float(n)], as in [n * 0.9], and a true
      division [a / b] of two [int]s round to the nearest float and
      raise [OverflowError] when the rounded value would be [2^1024] or
      more, that is when the exact value is [2^1024 - 2^970] or more in
      magnitude.  The functions below catch it in their [except]
      branch.
    - Rounding.  The values the floats carry are exact rationals here.
      For an expected total below [2^40] in magnitude and a row count
      that is not negative, binary64 decides each comparison of
      [_should_finish_scrolling] as the exact values do: [0.9 * t] is
      off by less than [2 * 10^-4] from a value whose fractional part is
      a multiple of [1/10]; [c / t * 100] is off by less than
      [3 * 10^-14] from a value that is 95 or at least [4 * 10^-12] away
      from it, and is exactly 95.0 when [c / t] is 0.95.  The theorems
      that depend on the arithmetic assume that range
      ([count_bound]). *)
Definition float_limit : Z := 2 ^ 1024 - 2 ^ 970.

(** [float(n)] raises. *)
Definition float_raises (n : Z) : bool := float_limit <=? Z.abs n.

(** [a / b] raises, for [b] other than 0. *)
Definition true_div_raises (a b : Z) : bool :=
  float_limit * Z.abs b <=? Z.abs a.

(** The range of the counts in which the floats of the source compare
    as the exact values. *)
Definition count_bound : Z := 2 ^ 40.

Definition coverage_percentage (current_rows_count total_expected : Z) : Q :=
  if 0 <? total_expected
  then (inject_Z current_rows_count / inject_Z total_expected * 100)%Q
  else 0%Q.

(** The body of the [try]; [None] when it raises: in the division of
    [coverage_percentage], which comes first, or in [total_expected *
    0.9], which is evaluated when [no_change_count >= 10] holds. *)
Definition finish_criteria
           (no_change_count current_rows_count total_expected : Z)
  : option bool :=
  if (0 <? total_expected)
     && true_div_raises current_rows_count total_expected
  then None
  else if (10 <=? no_change_count) && float_raises total_expected then None
  else
    Some (if (10 <=? no_change_count)
             && Qle_bool (inject_Z total_expected * (9 # 10))%Q
                         (inject_Z current_rows_count)
          then true
          else if 20 <=? no_change_count then true
          else if total_expected <=? current_rows_count then true
          else if Qle_bool 95%Q (coverage_percentage current_rows_count
                                                     total_expected)
                  && (5 <=? no_change_count)
          then true
          else false).

(** [try: .. except Exception: return no_change_count > 15] *)
Definition _should_finish_scrolling
           (no_change_count current_rows_count total_expected : Z) : bool :=
  match finish_criteria no_change_count current_rows_count total_expected with
  | Some finish => finish
  | None => 15 <? no_change_count
  end.

Record ScrollState := {
  previous_rows_count : Z;
  no_change_count : Z
}.

(** What the browser answers during one iteration of the loop. *)
Record IterObs := {
  (** [len(find_table_rows())] after the scroll action; [None] when
      the scroll action or the row query raises. *)
  rows_found : option nat;
  (** Truth value of
      [pagination_elements and click_pagination_next(pagination_elements)];
      it is asked for only when the table has pagination and the
      count has not changed for five iterations. *)
  next_page : bool
}.

(** One iteration of [for attempt in range(max_attempts)]: the new
    counters, and whether the iteration ends in [break]. *)
Definition scroll_iteration (has_pagination : bool) (total_expected : Z)
           (obs : IterObs) (st : ScrollState) : ScrollState * bool :=
  match rows_found obs with
  | None => (st, false)  (* except: the error is logged, the loop goes on *)
  | Some n =>
      let current_rows_count := Z.of_nat n in
      if current_rows_count =? previous_rows_count st then
        let no_change_count := no_change_count st + 1 in
        if has_pagination && (5 <=? no_change_count) && next_page obs then
          (* continue *)
          ({| previous_rows_count := previous_rows_count st;
              no_change_count := 0 |}, false)
        else if _should_finish_scrolling no_change_count current_rows_count
                                         total_expected then
          ({| previous_rows_count := previous_rows_count st;
              no_change_count := no_change_count |}, true)
        else
          ({| previous_rows_count := current_rows_count;
              no_change_count := no_change_count |},
           total_expected <=? current_rows_count)
      else
        ({| previous_rows_count := current_rows_count;
            no_change_count := 0 |},
         total_expected <=? current_rows_count)
  end.

(** The loop from iteration [attempt] on, with [remaining] iterations
    left: the final counters and the number of iterations performed. *)
Fixpoint scroll_loop (has_pagination : bool) (total_expected : Z)
         (env : nat -> IterObs) (remaining attempt : nat) (st : ScrollState)
  : ScrollState * nat :=
  match remaining with
  | O => (st, attempt)
  | S remaining' =>
      let '(st', stop) :=
        scroll_iteration has_pagination total_expected (env attempt) st in
      if stop then (st', S attempt)
      else scroll_loop has_pagination total_expected env remaining'
                       (S attempt) st'
  end.

(** The scroll action is chosen by the table type. *)
Inductive strategy := StandardUi5 | ResponsiveTable | GridTable | Generic.

Definition scroll_strategy (table_type : string) : strategy :=
  if String.eqb table_type "standard_ui5" then StandardUi5
  else if String.eqb table_type "responsive_table" then ResponsiveTable
  else if String.eqb table_type "grid_table" then GridTable
  else Generic.

(** The page as one call of [scroll_to_load_all_items] sees it. *)
Record Table := {
  probes : TableType.Probes;
  (** [check_for_pagination()] finds controls before the loop *)
  pagination_found : bool;
  (** the answers of iteration [attempt] under a scroll strategy *)
  answers : strategy -> nat -> IterObs
}.

Definition initial_state : ScrollState :=
  {| previous_rows_count := 0; no_change_count := 0 |}.

(** The run of the loop: final counters and iterations performed. *)
Definition scroll_run (t : Table) (total_expected : Z) (max_attempts : nat)
  : ScrollState * nat :=
  let table_type := TableType._detect_table_type (probes t) in
  let has_pagination := pagination_found t in
  scroll_loop has_pagination total_expected
              (answers t (scroll_strategy table_type))
              max_attempts 0 initial_state.

(** The coverage that is logged after the loop divides a count of rows
    by a positive [int]; it cannot overflow and is left out. *)
Definition scroll_to_load_all_items (t : Table) (total_expected : Z)
           (max_attempts : nat) : Z :=
  previous_rows_count (fst (scroll_run t total_expected max_attempts)).

(** The row count of the last iteration below [k] that observed rows,
    0 when there is none. *)
Fixpoint last_observed (env : nat -> IterObs) (k : nat) : nat :=
  match k with
  | O => O
  | S k' =>
      match rows_found (env k') with
      | Some n => n
      | None => last_observed env k'
      end
  end.

(** The counters at the start of iteration [i] when none of the
    iterations before it has ended the loop. *)
Fixpoint state_before (has_pagination : bool) (total_expected : Z)
         (env : nat -> IterObs) (i : nat) : ScrollState :=
  match i with
  | O => initial_state
  | S i' =>
      fst (scroll_iteration has_pagination total_expected (env i')
                            (state_before has_pagination total_expected env i'))
  end.

(** Whether iteration [i] ends in [break]. *)
Definition ends_loop (has_pagination : bool) (total_expected : Z)
           (env : nat -> IterObs) (i : nat) : bool :=
  snd (scroll_iteration has_pagination total_expected (env i)
                        (state_before has_pagination total_expected env i)).

(** The stopping policy in the words of the specification: the count
    reaches the expected total; ten iterations without change at 90%
    coverage; twenty iterations without change; the last attempt. *)
Definition spec_stop_policy (no_change_streak current_count expected_total : Z)
           (attempt_index max_attempts : nat) : bool :=
  (expected_total <=? current_count)
  || ((10 <=? no_change_streak) && (9 * expected_total <=? 10 * current_count))
  || (20 <=? no_change_streak)
  || (max_attempts <=? S attempt_index)%nat.

End Scroll.

(** ** FieldExtractor and HarvestCoordinator:
    [_extract_title], [_extract_type], [_extract_by_headers],
    [_process_table_rows], [extract_issues_data] *)

Module Harvest.

Import Validator.

(** What the browser answers about one row element. *)
Record Row := {
  (** [_get_row_cells(row)]: the [text] of each cell found *)
  cells : list string;
  (** the eight title extractors in their order: the text found, or
      [None] when the extractor raises or returns [None] *)
  title_probes : list (option string);
  (** [row.text], or [None] when reading it raises *)
  row_text : option string;
  (** the [text] of the elements whose class contains 'type' *)
  type_elements : list string;
  (** for every "Type" label of [find_ui5_elements]: the [text] of the
      element that follows it, or [None] when the lookup raises *)
  ui5_type_values : list (option string);
  (** an exception inside [_extract_type] before it returns *)
  type_lookup_fails : bool;
  (** the results of [_extract_priority], [_extract_status],
      [_extract_deadline], [_extract_due_date], [_extract_created_by]
      and [_extract_created_on] *)
  priority_found : string;
  status_found : string;
  deadline_found : string;
  due_date_found : string;
  created_by_found : string;
  created_on_found : string
}.

(** The mapping from header patterns to record keys, in the order of
    the [dict] literal. *)
Definition header_mappings : list (string * string) :=
  [("TITLE", "Title"); ("TYPE", "Type"); ("PRIORITY", "Priority");
   ("STATUS", "Status"); ("DEADLINE", "Deadline"); ("DUE DATE", "Due Date");
   ("CREATED BY", "Created By"); ("CREATED ON", "Created On");
   ("NAME", "Title"); ("ISSUE", "Title"); ("PRIO", "Priority");
   ("STATE", "Status"); ("DUE", "Due Date")].

(** The placeholder of the header-based path. *)
Definition untitled : string := "Issue sin título".

(** The placeholder of the heuristic path: [f"Issue sin título #{index+1}"]. *)
Definition untitled_numbered (index : nat) : string :=
  "Issue sin título #" ++ Str.of_nat (index + 1).

Section WithBuiltins.

Variable upper : string -> string.
Variable strip : string -> string.

(** [cells[i].text.strip() if cells[i].text else ''] *)
Definition cell_text (cells : list string) (i : nat) : string :=
  match cells !! i with
  | Some text => if Str.truthy text then strip text else ""
  | None => ""
  end.

(** The loop over the title extractors: the first text that is not
    blank, stripped. *)
Fixpoint first_title (probes : list (option string)) : option string :=
  match probes with
  | [] => None
  | Some title_text :: rest =>
      if Str.truthy title_text && Str.truthy (strip title_text)
      then Some (strip title_text)
      else first_title rest
  | None :: rest => first_title rest
  end.

(** The fallback of [_extract_title]: the first line of the row text,
    cut at 100 characters. *)
Definition title_from_text (row : Row) : option string :=
  match row_text row with
  | None => None
  | Some text =>
      let full_text := strip text in
      if Str.truthy full_text then
        let title := strip (Str.first_line full_text) in
        Some (if (100 <? Str.char_length title)%nat
              then Str.take_chars 100 title ++ "..."
              else title)
      else None
  end.

Definition _extract_title (row : Row) : option string :=
  match first_title (title_probes row) with
  | Some title => Some title
  | None => title_from_text row
  end.

(** The second cell, when it is not blank and differs from the title. *)
Definition type_from_cells (row : Row) (title : string) : option string :=
  match cells row with
  | _ :: second :: _ =>
      let type_text := strip second in
      if Str.truthy type_text && negb (String.eqb type_text title)
      then Some type_text else None
  | _ => None
  end.

Fixpoint type_from_elements (elements : list string) (title : string)
  : option string :=
  match elements with
  | [] => None
  | text :: rest =>
      if Str.truthy text && Str.truthy (strip text)
         && negb (String.eqb (strip text) title)
      then Some (strip text)
      else type_from_elements rest title
  end.

Fixpoint type_from_ui5 (values : list (option string)) (title : string)
  : option string :=
  match values with
  | [] => None
  | Some text :: rest =>
      if Str.truthy text && negb (String.eqb (strip text) title)
      then Some (strip text)
      else type_from_ui5 rest title
  | None :: rest => type_from_ui5 rest title
  end.

Definition _extract_type (row : Row) (title : string) : string :=
  if type_lookup_fails row then ""
  else
    match type_from_cells row title with
    | Some type_text => type_text
    | None =>
        match type_from_elements (type_elements row) title with
        | Some type_text => type_text
        | None =>
            match type_from_ui5 (ui5_type_values row) title with
            | Some type_text => type_text
            | None => ""
            end
        end
    end.

(** [for pattern, key in header_mappings.items()]: the key of the first
    pattern that equals the header or occurs in it. *)
Definition matching_key (header_upper : string) : option string :=
  snd <$> List.find (fun '(pattern, _) =>
                       String.eqb pattern header_upper
                       || Str.contains pattern header_upper)
                    header_mappings.

(** The body of [for header, index in header_map.items()]. *)
Definition fill_from_header (cells : list string) (d : gmap string string)
           (entry : string * nat) : gmap string string :=
  let '(header, index) := entry in
  if (index <? length cells)%nat then
    match matching_key (upper header) with
    | Some key => <[key := cell_text cells index]> d
    | None => d
    end
  else d.

(** The header map is the [dict] of the source as the list of its items
    in iteration order.  [None] is the source's [return None]. *)
(** The record after the loop over the header map. *)
Definition read_headers (row : Row) (header_map : list (string * nat))
  : gmap string string :=
  fold_left (fill_from_header (cells row)) header_map
            (mk_record "" "" "" "" "" "" "" "").

Definition _extract_by_headers (row : Row) (header_map : list (string * nat))
  : option (gmap string string) :=
  match cells row with
  | [] => None
  | first :: _ =>
      let issue_data := read_headers row header_map in
      let issue_data :=
        if negb (Str.truthy (get issue_data "Title"))
        then <["Title" := if Str.truthy first then strip first else untitled]>
               issue_data
        else issue_data in
      Some issue_data
  end.

(** The header-based attempt of [_process_table_rows]: the record it
    accepts, if any. *)
Definition header_based (row : Row) (header_map : list (string * nat))
  : option (gmap string string) :=
  if (4 <=? length header_map)%nat then
    match _extract_by_headers row header_map with
    | Some issue_data =>
        if Str.truthy (get issue_data "Title") then Some issue_data else None
    | None => None
    end
  else None.

(** The title of the heuristic path. *)
Definition heuristic_title (index : nat) (row : Row) : string :=
  match _extract_title row with
  | Some title => if Str.truthy title then title else untitled_numbered index
  | None => untitled_numbered index
  end.

(** The heuristic path with its direct extraction by cells. *)
Definition heuristic (index : nat) (row : Row) : gmap string string :=
  let title := heuristic_title index row in
  let type_text := _extract_type row title in
  let issue_data :=
    mk_record title type_text (priority_found row) (status_found row)
              (deadline_found row) (due_date_found row)
              (created_by_found row) (created_on_found row) in
  if String.eqb type_text title then
    match cells row with
    | first :: _ =>
        if (8 <=? length (cells row))%nat then
          mk_record (if Str.truthy first then strip first else title)
                    (cell_text (cells row) 1) (cell_text (cells row) 2)
                    (cell_text (cells row) 3) (cell_text (cells row) 4)
                    (cell_text (cells row) 5) (cell_text (cells row) 6)
                    (cell_text (cells row) 7)
        else issue_data
    | [] => issue_data
    end
  else issue_data.

(** The record of one row before validation. *)
Definition extract_row (header_map : list (string * nat)) (index : nat)
           (row : Row) : gmap string string :=
  match header_based row header_map with
  | Some issue_data => issue_data
  | None => heuristic index row
  end.

(** [for index, row in enumerate(rows)], from [index] on.  Every helper
    called in the body catches its own exceptions, so each row appends
    one record.  The argument [seen_titles] of the source is never read
    and is left out. *)
Fixpoint process_from (header_map : list (string * nat)) (index : nat)
         (rows : list Row) : list (gmap string string) :=
  match rows with
  | [] => []
  | row :: rest =>
      _validate_and_correct_issue_data upper (extract_row header_map index row)
      :: process_from header_map (S index) rest
  end.

Definition _process_table_rows (rows : list Row)
           (header_map : list (string * nat)) : list (gmap string string) :=
  process_from header_map 0 rows.

(** One page of the table as the coordinator meets it. *)
Record Page := {
  (** [find_table_rows()] on this page *)
  page_rows : list Row;
  (** [click_pagination_next(pagination_elements)] on this page *)
  next_clicked : bool;
  (** [check_for_pagination()] finds controls after the click *)
  pagination_after : bool
}.

(** [while page_num <= max_pages], with [fuel] pages left.  A list of
    pages that runs out is a row query that finds nothing. *)
Fixpoint harvest_pages (header_map : list (string * nat))
         (has_pagination : bool) (fuel : nat) (pagination_elements : bool)
         (pages : list Page) : list (gmap string string) :=
  match fuel, pages with
  | S fuel', page :: rest =>
      match page_rows page with
      | [] => []
      | _ :: _ =>
          let page_issues_data :=
            _process_table_rows (page_rows page) header_map in
          let corrected_data :=
            map (_validate_and_correct_issue_data upper) page_issues_data in
          corrected_data
          ++ (if negb has_pagination || (length page_issues_data =? 0)%nat
              then []
              else if pagination_elements then
                     if negb (next_clicked page) then []
                     else harvest_pages header_map has_pagination fuel'
                                        (pagination_after page) rest
                   else [])
      end
  | _, _ => []
  end.

(** The page as one call of [extract_issues_data] sees it. *)
Record Site := {
  (** [_detect_table_headers()] *)
  header_map : list (string * nat);
  (** [check_for_pagination()] finds controls after the scroll *)
  site_pagination : bool;
  pages : list Page
}.

Definition max_pages : nat := 20.

(** The scroll that precedes the loop only changes what the browser
    shows, which is what [pages] records, and its result is logged and
    dropped. *)
Definition extract_issues_data (site : Site) : list (gmap string string) :=
  harvest_pages (header_map site) (site_pagination site) max_pages
                (site_pagination site) (pages site).

End WithBuiltins.

(** The titles of the rows of one page as extraction gives them. *)
Definition page_titles (upper strip : string -> string)
           (header_map : list (string * nat)) (page : Page) : list string :=
  imap (fun index row =>
          get (extract_row upper strip header_map index row) "Title")
       (page_rows page).

(** The records of the rows of one page as the loop appends them: the
    record of each row, validated in [_process_table_rows] and once more
    in [extract_issues_data]. *)
Definition page_records (upper strip : string -> string)
           (header_map : list (string * nat)) (page : Page)
  : list (gmap string string) :=
  imap (fun index row =>
          _validate_and_correct_issue_data upper
            (_validate_and_correct_issue_data upper
               (extract_row upper strip header_map index row)))
       (page_rows page).

(** The number of pages whose rows the loop of [extract_issues_data]
    processes, as the pagination decides it: a page is processed when
    its row query finds rows, and the loop goes on to the next page
    when the table has pagination, the controls are there and the click
    on "next" succeeds, for [fuel] pages at most. *)
Fixpoint pages_visited (has_pagination : bool) (fuel : nat)
         (pagination_elements : bool) (pages : list Page) : nat :=
  match fuel, pages with
  | S fuel', page :: rest =>
      match page_rows page with
      | [] => 0
      | _ :: _ =>
          S (if has_pagination && pagination_elements && next_clicked page
             then pages_visited has_pagination fuel' (pagination_after page)
                                rest
             else 0)
      end
  | _, _ => 0
  end.

(** The deduplication invariant in the words of the specification: no
    two records whose titles are equal without regard to case. *)
Definition spec_deduplicated (records : list (gmap string string)) : Prop :=
  NoDup (map (fun d => Str.ascii_upper (get d "Title")) records).

End Harvest.

(** ** More builtins on ASCII text *)

Module Text.

Definition ascii_lower_char (c : ascii) : ascii :=
  let n := nat_of_ascii c in
  if (65 <=? n)%nat && (n <=? 90)%nat then ascii_of_nat (n + 32) else c.

(** [str.lower] on ASCII text. *)
Fixpoint ascii_lower (s : string) : string :=
  match s with
  | EmptyString => EmptyString
  | String c rest => String (ascii_lower_char c) (ascii_lower rest)
  end.

(** Text of ASCII characters only. *)
Fixpoint is_ascii (s : string) : bool :=
  match s with
  | EmptyString => true
  | String c rest => (nat_of_ascii c <? 128)%nat && is_ascii rest
  end.

(** A decimal digit of ASCII.  On ASCII text this is the [\d] of a
    pattern and the class of [str.isdigit]; outside ASCII both accept
    more characters (the digits of other scripts, and for [str.isdigit]
    superscripts and the like), so what is proved of the functions that
    read digits from a text the page or the user supplies is proved for
    ASCII text ([is_ascii]). *)
Definition is_digit (c : ascii) : bool :=
  let n := nat_of_ascii c in (48 <=? n)%nat && (n <=? 57)%nat.

Fixpoint all_digits (s : string) : bool :=
  match s with
  | EmptyString => true
  | String c rest => is_digit c && all_digits rest
  end.

(** [str.isdigit] on ASCII text: not empty and digits only. *)
Definition isdigit (s : string) : bool := Str.truthy s && all_digits s.

(** The longest run of digits at the head of [s], and what follows. *)
Fixpoint take_digits (s : string) : string * string :=
  match s with
  | EmptyString => (EmptyString, EmptyString)
  | String c rest =>
      if is_digit c
      then let '(digits, tail) := take_digits rest in (String c digits, tail)
      else (EmptyString, s)
  end.

(** [int(s)] for a string of digits; [None] is the [ValueError]. *)
Definition int_of (s : string) : option nat :=
  if isdigit s then Nat.of_uint <$> NilEmpty.uint_of_string s else None.

(** [c in s] for a character. *)
Fixpoint has_char (c : ascii) (s : string) : bool :=
  match s with
  | EmptyString => false
  | String c' rest => Ascii.eqb c c' || has_char c rest
  end.

End Text.

(** ** [_normalize_priority] *)

Module Priority.

Definition vocabulary : list string := ["Very High"; "High"; "Medium"; "Low"].

Section WithLower.
Variable lower : string -> string.

(** The argument is [None] or a [str]. *)
Definition _normalize_priority (priority_text : option string) : string :=
  match priority_text with
  | None => ""
  | Some priority_text =>
      if negb (Str.truthy priority_text) then ""
      else
        let priority_lower := lower priority_text in
        if Str.contains "very high" priority_lower then "Very High"
        else if Str.contains "high" priority_lower then "High"
        else if Str.contains "medium" priority_lower then "Medium"
        else if Str.contains "low" priority_lower then "Low"
        else priority_text
  end.

End WithLower.

End Priority.

(** ** [_calculate_adaptive_wait_time] *)

Module Wait.

Local Open Scope Z_scope.

(** The body of the [try], in exact rationals as the thresholds of
    [Scroll]; [None] when it raises: in [no_change_count * 0.1] or in
    [current_rows_count / 500], on an [int] too large for a float. *)
Definition adaptive_wait (no_change_count current_rows_count : Z) : option Q :=
  if (0 <? no_change_count) && Scroll.float_raises no_change_count then None
  else if Scroll.true_div_raises current_rows_count 500 then None
  else
    let base_wait := (2 # 10)%Q in
    let no_change_factor :=
      if 0 <? no_change_count
      then Qmin (inject_Z no_change_count * (1 # 10))%Q 1%Q
      else 0%Q in
    let rows_factor :=
      Qmin (inject_Z current_rows_count / 500)%Q (5 # 10)%Q in
    Some (Qmin (base_wait + no_change_factor + rows_factor)%Q 1%Q).

(** The seconds to wait between two scrolls:
    [try: .. except Exception: return 0.5]. *)
Definition _calculate_adaptive_wait_time
           (no_change_count current_rows_count : Z) : Q :=
  match adaptive_wait no_change_count current_rows_count with
  | Some wait_time => wait_time
  | None => (5 # 10)%Q
  end.

End Wait.

(** ** [get_total_issues_count] *)

Module TotalCount.

(** The outcome of a [find_element]: an element with its text, the
    [NoSuchElementException] the function catches on the spot, or any
    other exception. *)
Inductive Lookup :=
| Found (text : string)
| NoSuchElement
| OtherError.

(** What the page answers to the three strategies. *)
Record CountObs := {
  (** the element whose text contains 'Issues' and '(' *)
  issues_header : Lookup;
  (** the element of class 'sapMITBCount' *)
  counter : Lookup;
  (** [len(find_table_rows())], or [None] when the query raises *)
  visible_rows : option nat
}.

(** [re.search(r'\((\d+)\)', s)] on ASCII text: the digits of the
    leftmost "(", digits, ")" in [s]. *)
Fixpoint search_count (s : string) : option string :=
  match s with
  | EmptyString => None
  | String c rest =>
      if Ascii.eqb c "("%char then
        match Text.take_digits rest with
        | (digits, String c' _) =>
            if Str.truthy digits && Ascii.eqb c' ")"%char
            then Some digits else search_count rest
        | (_, EmptyString) => search_count rest
        end
      else search_count rest
  end.

(** The default of the function. *)
Definition default_total : nat := 100.

(** Strategy 3: the rows on screen, at least 100. *)
Definition from_rows (obs : CountObs) : nat :=
  match visible_rows obs with
  | Some count => if (0 <? count)%nat then Nat.max count 100 else default_total
  | None => default_total
  end.

(** Strategy 2: the counter of the tab. *)
Definition from_counter (obs : CountObs) : nat :=
  match counter obs with
  | Found text =>
      if Text.isdigit text then default default_total (Text.int_of text)
      else from_rows obs
  | NoSuchElement => from_rows obs
  | OtherError => default_total
  end.

(** Strategy 1: the header "Issues (n)". *)
Definition get_total_issues_count (obs : CountObs) : nat :=
  match issues_header obs with
  | Found header_text =>
      match search_count header_text with
      | Some digits => default default_total (Text.int_of digits)
      | None => from_counter obs
      end
  | NoSuchElement => from_counter obs
  | OtherError => default_total
  end.

End TotalCount.

(** ** RowLocator: [find_table_rows] *)

Module RowLocator.

(** What the browser answers about one candidate element. *)
Record Element := {
  (** [row.id], or [None] when reading it raises *)
  element_id : option string;
  (** [row.text], or [None] when reading it raises *)
  element_text : option string;
  (** [row.get_attribute("class") or ""], or [None] when it raises *)
  element_class : option string;
  (** the [text] of the span, div and a descendants, each [None] when
      reading it raises; [None] when the query raises *)
  inner_texts : option (list (option string));
  (** the number of descendants, [None] when the query raises *)
  descendants : option nat;
  (** the number of list or table ancestors, [None] when the query
      raises *)
  list_ancestors : option nat
}.

(** The page as one call of [find_table_rows] sees it. *)
Record View := {
  (** the rows of a cache entry younger than 5 seconds *)
  cached : option (list Element);
  (** the elements each selector of the cascade finds, [None] when the
      query raises *)
  selector_rows : list (option (list Element));
  (** the elements of the last-resort query *)
  any_rows : option (list Element)
}.

Section WithBuiltins.
Variable lower : string -> string.
Variable strip : string -> string.

(** The loop over the descendants: [Some true] at the first text that is
    not blank, [None] when a text cannot be read before that. *)
Fixpoint has_content (texts : list (option string)) : option bool :=
  match texts with
  | [] => Some false
  | None :: _ => None
  | Some text :: rest =>
      if Str.truthy text && Str.truthy (strip text) then Some true
      else has_content rest
  end.

(** Whether the filter of the cascade appends the row to [valid_rows];
    a row whose inspection raises is appended. *)
Definition is_valid_row (row : Element) : bool :=
  match inner_texts row with
  | None => true
  | Some texts =>
      match has_content texts with
      | None => true
      | Some false => false
      | Some true =>
          match element_class row with
          | None => true
          | Some class_attr => negb (Str.contains "header" (lower class_attr))
          end
      end
  end.

(** [for selector in selectors], with [all_rows] as it stands. *)
Fixpoint cascade (results : list (option (list Element)))
         (all_rows : list Element) : list Element :=
  match results with
  | [] => all_rows
  | None :: rest => cascade rest all_rows
  | Some rows :: rest =>
      let valid_rows := List.filter is_valid_row rows in
      if (0 <? length valid_rows)%nat then
        if (75 <=? length valid_rows)%nat then valid_rows
        else cascade rest valid_rows
      else cascade rest all_rows
  end.

(** The test of the last-resort scan; an element whose inspection
    raises is skipped. *)
Definition looks_like_row (element : Element) : bool :=
  match element_text element with
  | None => false
  | Some text =>
      if Str.truthy text && (10 <? Str.char_length (strip text))%nat then
        match descendants element with
        | None => false
        | Some n =>
            if (3 <=? n)%nat then
              match list_ancestors element with
              | None => false
              | Some m => (0 <? m)%nat
              end
            else false
        end
      else false
  end.

(** [all_rows] before the removal of duplicates. *)
Definition located (v : View) : list Element :=
  let all_rows := cascade (selector_rows v) [] in
  if (length all_rows =? 0)%nat then
    match any_rows v with
    | Some elements => List.filter looks_like_row elements
    | None => []
    end
  else all_rows.

(** [f"{row_text}|{row_class}"], [None] when text or class cannot be
    read. *)
Definition signature (row : Element) : option string :=
  match element_text row, element_class row with
  | Some text, Some row_class =>
      let row_text := if Str.truthy text then Str.take_chars 50 text
                      else "" in
      Some (row_text ++ "|" ++ row_class)
  | _, _ => None
  end.

(** The loop that removes duplicates, with [seen_ids] as it stands. *)
Fixpoint unique_rows (rows : list Element) (seen_ids : gset string)
  : list Element :=
  match rows with
  | [] => []
  | row :: rest =>
      match element_id row with
      | Some row_id =>
          if decide (row_id ∈ seen_ids) then unique_rows rest seen_ids
          else row :: unique_rows rest ({[row_id]} ∪ seen_ids)
      | None =>
          match signature row with
          | Some row_signature =>
              if decide (row_signature ∈ seen_ids)
              then unique_rows rest seen_ids
              else row :: unique_rows rest ({[row_signature]} ∪ seen_ids)
          | None => row :: unique_rows rest seen_ids
          end
      end
  end.

(** The highlight of the first row changes nothing in the result and is
    left out. *)
Definition find_table_rows (v : View) : list Element :=
  match cached v with
  | Some cached_rows => cached_rows
  | None => unique_rows (located v) ∅
  end.

End WithBuiltins.

End RowLocator.

(** ** [_get_row_cells] *)

Module Cells.

(** What the browser answers to the cell queries of one row; a cell is
    its text. *)
Record CellsObs := {
  (** the five cell queries in their order, [None] when one raises *)
  cell_queries : list (option (list string));
  (** the cells the search by column finds, [None] when it raises *)
  column_cells : option (list string);
  (** text and class of the elements with visible text, [None] when the
      scan raises *)
  text_elements : option (list (string * string))
}.

Definition ui_classes : list string :=
  ["icon"; "button"; "checkbox"; "arrow"; "header"].

Section WithBuiltins.
Variable lower : string -> string.
Variable strip : string -> string.

(** [all(cell.text.strip() for cell in extracted_cells[:3])] *)
Definition first_three_filled (extracted_cells : list string) : bool :=
  forallb (fun text => Str.truthy (strip text)) (take 3 extracted_cells).

(** The loop over the cell queries. *)
Fixpoint first_cells (queries : list (option (list string)))
  : option (list string) :=
  match queries with
  | [] => None
  | None :: rest => first_cells rest
  | Some extracted_cells :: rest =>
      if (2 <? length extracted_cells)%nat && first_three_filled extracted_cells
      then Some extracted_cells
      else first_cells rest
  end.

(** The last strategy: the elements with text that are no part of the
    user interface, when there are four or more. *)
Definition from_text_elements (obs : CellsObs) : list string :=
  match text_elements obs with
  | None => []
  | Some elements =>
      let filtered_elements :=
        List.filter
          (fun '(_, classes) =>
             negb (existsb (fun ui_class => Str.contains ui_class (lower classes))
                           ui_classes))
          elements in
      if (4 <=? length filtered_elements)%nat
      then map fst filtered_elements else []
  end.

Definition _get_row_cells (obs : CellsObs) : list string :=
  match first_cells (cell_queries obs) with
  | Some extracted_cells => extracted_cells
  | None =>
      match column_cells obs with
      | Some cells =>
          if (3 <=? length cells)%nat then cells else from_text_elements obs
      | None => from_text_elements obs
      end
  end.

End WithBuiltins.

End Cells.

(** ** [_detect_table_headers] *)

Module Headers.

(** [header_map[key] = i] on a [dict] kept as the list of its items: a
    key that is present keeps its place and takes the new value. *)
Fixpoint dict_set (key : string) (i : nat) (items : list (string * nat))
  : list (string * nat) :=
  match items with
  | [] => [(key, i)]
  | (key', i') :: rest =>
      if String.eqb key key' then (key, i) :: rest
      else (key', i') :: dict_set key i rest
  end.

Section WithBuiltins.
Variable upper : string -> string.
Variable strip : string -> string.

(** [for i, cell in enumerate(header_cells)], from index [i] on. *)
Fixpoint map_headers (i : nat) (header_cells : list string)
         (header_map : list (string * nat)) : list (string * nat) :=
  match header_cells with
  | [] => header_map
  | cell :: rest =>
      let header_text := strip cell in
      map_headers (S i) rest
                  (if Str.truthy header_text
                   then dict_set (upper header_text) i header_map
                   else header_map)
  end.

(** What each header selector finds: [None] when the query raises,
    [Some None] when no header row matches, else the texts of the cells
    of the first header row.  The result is the [dict] as the list of its
    items; an exception gives the empty map. *)
Fixpoint _detect_table_headers
         (selectors : list (option (option (list string))))
  : list (string * nat) :=
  match selectors with
  | [] => []
  | None :: _ => []
  | Some None :: rest => _detect_table_headers rest
  | Some (Some header_cells) :: rest =>
      match header_cells with
      | [] => _detect_table_headers rest
      | _ :: _ => map_headers 0 header_cells []
      end
  end.

End WithBuiltins.

End Headers.

(** ** [DatabaseManager.validate_input] *)

Module Db.

(** [re.match(r'^\d+$', s)] on ASCII text: digits up to the end of the
    text, or up to a newline that ends the text. *)
Definition digits_to_end (s : string) : bool :=
  let '(digits, tail) := Text.take_digits s in
  Str.truthy digits
  && (String.eqb tail "" || String.eqb tail (String "010"%char "")).

Definition forbidden_in_path : list ascii :=
  ["<"; ">"; ":"; "|"; "?"; "*"]%char.

Section WithOs.
(** [os.path.isabs], which depends on the platform. *)
Variable isabs : string -> bool.

Definition validate_input (input_str : string) (input_type : string) : bool :=
  if String.eqb input_type "erp" then digits_to_end input_str
  else if String.eqb input_type "project" then digits_to_end input_str
  else if String.eqb input_type "path" then
    isabs input_str
    && negb (existsb (fun c => Text.has_char c input_str) forbidden_in_path)
  else true.

End WithOs.

End Db.

(** ** The validator on symbolic records

    The corrective steps of the validator only move the values of the
    seven fields around, and they ask five things of a value: whether
    it is empty, whether it carries a keyword of each of the three
    vocabularies, and whether it is the Title.  A symbolic record keeps,
    for each of the seven fields, which field of the input its value
    comes from; the steps are then functions of the answers to these
    questions on the values of the input. *)

Module Symbolic.

Inductive Fld :=
| FType | FPriority | FStatus | FDeadline | FDueDate | FCreatedBy | FCreatedOn.

Definition name (f : Fld) : string :=
  match f with
  | FType => "Type"
  | FPriority => "Priority"
  | FStatus => "Status"
  | FDeadline => "Deadline"
  | FDueDate => "Due Date"
  | FCreatedBy => "Created By"
  | FCreatedOn => "Created On"
  end.

Definition all_fields : list Fld :=
  [FType; FPriority; FStatus; FDeadline; FDueDate; FCreatedBy; FCreatedOn].

Definition Fld_eqb (f g : Fld) : bool :=
  match f, g with
  | FType, FType | FPriority, FPriority | FStatus, FStatus
  | FDeadline, FDeadline | FDueDate, FDueDate | FCreatedBy, FCreatedBy
  | FCreatedOn, FCreatedOn => true
  | _, _ => false
  end.

(** The value of a field: the value that field [f] has in the input
    ([Some f]), or the empty string a step has assigned ([None]). *)
Definition Sym := option Fld.

Definition State := Fld -> Sym.

Definition initial : State := fun f => Some f.

Definition upd (st : State) (f : Fld) (x : Sym) : State :=
  fun g => if Fld_eqb g f then x else st g.

(** [temp = d[a]; d[a] = d[b]; d[b] = temp] *)
Definition sym_swap (st : State) (a b : Fld) : State :=
  upd (upd st a (st b)) b (st a).

(** The questions the steps ask of a value. *)
Inductive Ask := ANonEmpty | AStatus | APriority | ADate | ATitle.

Definition Ask_eqb (a b : Ask) : bool :=
  match a, b with
  | ANonEmpty, ANonEmpty | AStatus, AStatus | APriority, APriority
  | ADate, ADate | ATitle, ATitle => true
  | _, _ => false
  end.

(** The answers known so far about the values of the input. *)
Definition Env := Fld -> Ask -> option bool.

Definition unknown : Env := fun _ _ => None.

Definition learn (E : Env) (f : Fld) (a : Ask) (b : bool) : Env :=
  fun g c => if Fld_eqb g f && Ask_eqb c a then Some b else E g c.

(** The outcome of a symbolic computation: a result, a question whose
    answer is not known yet, or a step that is not followed. *)
Inductive Res (A : Type) :=
| Ok (a : A)
| Need (f : Fld) (a : Ask)
| Stuck.

Arguments Ok {A} a.
Arguments Need {A} f a.
Arguments Stuck {A}.

#[global] Instance Res_bind : MBind Res :=
  fun A B k r =>
    match r with
    | Ok a => k a
    | Need f a => Need f a
    | Stuck => Stuck
    end.

Section Steps.

Variable E : Env.

Definition ask (f : Fld) (a : Ask) : Res bool :=
  match E f a with Some b => Ok b | None => Need f a end.

Definition a_truthy (x : Sym) : Res bool :=
  match x with None => Ok false | Some f => ask f ANonEmpty end.

Definition a_like (vocabulary : Ask) (x : Sym) : Res bool :=
  match x with None => Stuck | Some f => ask f vocabulary end.

(** [value == issue_data["Title"]], for a Title that is not empty. *)
Definition a_is_title (x : Sym) : Res bool :=
  match x with
  | None => Ok false
  | Some f => b ← ask f ANonEmpty; if b : bool then ask f ATitle else Ok false
  end.

Definition a_clear (st : State) : Res State :=
  b ← a_is_title (st FType);
  Ok (if b : bool then upd st FType None else st).

Fixpoint a_swap_first (vocabulary : Ask) (target : Fld) (fields : list Fld)
         (st : State) : Res State :=
  match fields with
  | [] => Ok st
  | f :: rest =>
      t ← a_truthy (st f);
      if t : bool then
        b ← a_like vocabulary (st f);
        if b : bool then Ok (sym_swap st target f)
        else a_swap_first vocabulary target rest st
      else a_swap_first vocabulary target rest st
  end.

Definition a_check (vocabulary : Ask) (target : Fld) (fields : list Fld)
           (st : State) : Res State :=
  t ← a_truthy (st target);
  if t : bool then
    b ← a_like vocabulary (st target);
    if negb b then a_swap_first vocabulary target fields st else Ok st
  else Ok st.

Definition a_check_status : State -> Res State :=
  a_check AStatus FStatus [FPriority; FType; FDeadline].

Definition a_check_priority : State -> Res State :=
  a_check APriority FPriority [FType; FStatus].

Definition a_check_date (date_field : Fld) : State -> Res State :=
  a_check ADate date_field [FStatus; FPriority; FType].

Definition a_check_dates (st : State) : Res State :=
  st ← a_check_date FDeadline st;
  st ← a_check_date FDueDate st;
  a_check_date FCreatedOn st.

Fixpoint a_move (fields : list Fld) (st : State) : Res State :=
  match fields with
  | [] => Ok st
  | f :: rest =>
      t ← a_truthy (st f);
      if negb t
      then Ok (upd (upd st f (st FCreatedBy)) FCreatedBy None)
      else a_move rest st
  end.

Definition a_check_created_by (st : State) : Res State :=
  t ← a_truthy (st FCreatedBy);
  if t : bool then
    b ← a_like ADate (st FCreatedBy);
    if b : bool then a_move [FDeadline; FDueDate; FCreatedOn] st else Ok st
  else Ok st.

(** Step 6 when Type is not the Title; the rotation itself is not
    followed. *)
Definition a_check_shift (st : State) : Res State :=
  b ← a_is_title (st FType);
  if b : bool then Stuck else Ok st.

Definition a_validate (st : State) : Res State :=
  st ← a_clear st;
  st ← a_check_status st;
  st ← a_check_priority st;
  st ← a_check_dates st;
  st ← a_check_created_by st;
  a_check_shift st.

Definition Sym_eqb (x y : Sym) : bool :=
  match x, y with
  | None, None => true
  | Some f, Some g => Fld_eqb f g
  | _, _ => false
  end.

Definition same (st st' : State) : bool :=
  forallb (fun f => Sym_eqb (st f) (st' f)) all_fields.

End Steps.

(** Conditions on the values of the input. *)
Inductive Cond :=
| CAsk (f : Fld) (a : Ask)
| CAnd (x y : Cond)
| COr (x y : Cond)
| CNot (x : Cond).

Fixpoint holds (answer : Fld -> Ask -> bool) (c : Cond) : bool :=
  match c with
  | CAsk f a => answer f a
  | CAnd x y => holds answer x && holds answer y
  | COr x y => holds answer x || holds answer y
  | CNot x => negb (holds answer x)
  end.

Fixpoint decide_cond (E : Env) (c : Cond) : Res bool :=
  match c with
  | CAsk f a => ask E f a
  | CAnd x y => b ← decide_cond E x; if b : bool then decide_cond E y else Ok false
  | COr x y => b ← decide_cond E x; if b : bool then Ok true else decide_cond E y
  | CNot x => b ← decide_cond E x; Ok (negb b)
  end.

(** Under the condition, a second pass gives the record of the first. *)
Definition second_pass_same (c : Cond) (E : Env) : Res bool :=
  b ← decide_cond E c;
  if negb b then Ok true
  else
    once ← a_validate E initial;
    twice ← a_validate E once;
    Ok (same once twice).

(** The check of every combination of answers, asked for as the steps
    need them. *)
Fixpoint explore (c : Cond) (fuel : nat) (E : Env) : bool :=
  match fuel with
  | O => false
  | S fuel' =>
      match second_pass_same c E with
      | Ok b => b
      | Need f a =>
          explore c fuel' (learn E f a true)
          && explore c fuel' (learn E f a false)
      | Stuck => false
      end
  end.

(** The condition of the idempotence theorem, [Validator.regular]
    without the test of the Title. *)
Definition c_carries (f : Fld) (vocabulary : Ask) : Cond :=
  CAnd (CAsk f ANonEmpty) (CAsk f vocabulary).

Definition c_empty_or (f : Fld) (vocabulary : Ask) : Cond :=
  COr (CNot (CAsk f ANonEmpty)) (CAsk f vocabulary).

Definition regular_cond : Cond :=
  let no_date :=
    CAnd (CAnd (CNot (c_carries FType ADate)) (CNot (c_carries FPriority ADate)))
         (CNot (c_carries FStatus ADate)) in
  let in_place :=
    CAnd (c_empty_or FStatus AStatus) (c_empty_or FPriority APriority) in
  let dates_in_place :=
    CAnd (CAnd (c_empty_or FDeadline ADate) (c_empty_or FDueDate ADate))
         (c_empty_or FCreatedOn ADate) in
  let title_is_no_date :=
    CAnd (CAnd (CNot (CAsk FDeadline ATitle)) (CNot (CAsk FDueDate ATitle)))
         (CNot (CAsk FCreatedOn ATitle)) in
  COr (CAnd in_place
            (COr (COr dates_in_place no_date)
                 (CAnd (CAnd (CNot (c_carries FStatus ADate))
                             (CNot (c_carries FPriority ADate)))
                       title_is_no_date)))
      (CAnd (CAnd (CAnd (CAnd no_date (CNot (CAsk FPriority ATitle)))
                        (CNot (CAsk FStatus ATitle)))
                  (CNot (CAnd (c_carries FDeadline AStatus)
                              (c_carries FDeadline ADate))))
            (CNot (CAnd (c_carries FCreatedBy AStatus)
                        (c_carries FCreatedBy ADate)))).

End Symbolic.

(** * Properties *)

Module StrFacts.
Import Str.

Lemma truthy_true s : truthy s = true <-> s <> "".
Proof. destruct s; simpl; split; congruence. Qed.

Lemma truthy_false s : truthy s = false <-> s = "".
Proof. destruct s; simpl; split; congruence. Qed.

End StrFacts.

(** ** Properties of the validator *)

Module ValidatorFacts.
Import Validator.

(** *** Reading and writing fields *)

Lemma get_insert_eq (d : gmap string string) k v :
  get (<[k := v]> d) k = v.
Proof. unfold get. by rewrite lookup_insert_eq. Qed.

Lemma get_insert_ne (d : gmap string string) k k' v :
  k <> k' -> get (<[k := v]> d) k' = get d k'.
Proof. intros Hne. unfold get. by rewrite lookup_insert_ne. Qed.

Lemma has_key_true (d : gmap string string) k :
  has_key d k = true <-> is_Some (d !! k).
Proof. unfold has_key. apply bool_decide_eq_true. Qed.

Lemma has_key_insert_eq (d : gmap string string) k v :
  has_key (<[k := v]> d) k = true.
Proof. apply has_key_true. rewrite lookup_insert_eq. eauto. Qed.

Lemma fill_lookup (fields : list string) (d : gmap string string) k :
  fold_left (fun d f => if has_key d f then d else <[f := ""]> d) fields d !! k
  = match d !! k with
    | Some v => Some v
    | None => if bool_decide (k ∈ fields) then Some "" else None
    end.
Proof.
  revert d. induction fields as [|f fields IH]; intros d; simpl.
  - by destruct (d !! k).
  - rewrite IH. destruct (has_key d f) eqn:Hf.
    + destruct (d !! k) eqn:Hk; [done|].
      apply has_key_true in Hf.
      assert (k <> f) by (intros ->; rewrite Hk in Hf; by destruct Hf).
      destruct (bool_decide (k ∈ fields)) eqn:Hin.
      * rewrite bool_decide_eq_true_2; [done|]. apply bool_decide_eq_true in Hin.
        by apply elem_of_cons; right.
      * rewrite bool_decide_eq_false_2; [done|]. apply bool_decide_eq_false in Hin.
        intros [?|?]%elem_of_cons; done.
    + assert (d !! f = None) as Hnone.
      { destruct (d !! f) eqn:E; [|done].
        assert (has_key d f = true) by (apply has_key_true; rewrite E; eauto).
        congruence. }
      destruct (decide (f = k)) as [->|Hne].
      * rewrite lookup_insert_eq, Hnone.
        rewrite bool_decide_eq_true_2; [done|]. by apply elem_of_cons; left.
      * rewrite lookup_insert_ne by done.
        destruct (d !! k); [done|].
        destruct (bool_decide (k ∈ fields)) eqn:Hin.
        -- rewrite bool_decide_eq_true_2; [done|]. apply bool_decide_eq_true in Hin.
           by apply elem_of_cons; right.
        -- rewrite bool_decide_eq_false_2; [done|]. apply bool_decide_eq_false in Hin.
           intros [?|?]%elem_of_cons; congruence.
Qed.

Lemma fill_required_lookup (d : gmap string string) k :
  fill_required d !! k
  = match d !! k with
    | Some v => Some v
    | None => if bool_decide (k ∈ required_fields) then Some "" else None
    end.
Proof. apply fill_lookup. Qed.

(** After the first loop of the validator no [d[field]] can fail. *)
Lemma fill_required_present (d : gmap string string) :
  complete (fill_required d).
Proof.
  intros f Hf. rewrite fill_required_lookup.
  destruct (d !! f); [eauto|]. rewrite bool_decide_eq_true_2; eauto.
Qed.

Lemma fill_required_get (d : gmap string string) k :
  get (fill_required d) k = get d k.
Proof.
  unfold get. rewrite fill_required_lookup.
  destruct (d !! k); [done|]. by destruct (bool_decide _).
Qed.

Lemma fill_required_complete (d : gmap string string) :
  complete d -> fill_required d = d.
Proof.
  intros Hc. apply map_eq. intros k. rewrite fill_required_lookup.
  destruct (d !! k) eqn:Hk; [done|].
  destruct (bool_decide (k ∈ required_fields)) eqn:Hin; [|done].
  apply bool_decide_eq_true in Hin. destruct (Hc k Hin) as [v Hv]. congruence.
Qed.

Lemma complete_insert (d : gmap string string) k v :
  complete d -> complete (<[k := v]> d).
Proof.
  intros Hc f Hf. destruct (decide (k = f)) as [->|Hne].
  - rewrite lookup_insert_eq. eauto.
  - rewrite lookup_insert_ne by done. by apply Hc.
Qed.

(** *** Frame: which keys a step may assign *)

Lemma swap_frame (d : gmap string string) a b k :
  k <> a -> k <> b -> swap d a b !! k = d !! k.
Proof. intros Ha Hb. unfold swap. by rewrite !lookup_insert_ne. Qed.

Section Frame.
Variable upper : string -> string.

Lemma swap_with_first_frame keywords target fields (d : gmap string string) k :
  k <> target -> k ∉ fields ->
  swap_with_first upper keywords target fields d !! k = d !! k.
Proof.
  intros Ht. induction fields as [|f fields IH]; intros Hk; simpl; [done|].
  apply not_elem_of_cons in Hk as [Hf Hk].
  destruct (has_key d f && Str.truthy (get d f)); [|by apply IH].
  destruct (looks_like upper keywords (get d f)); [|by apply IH].
  by apply swap_frame.
Qed.

Lemma move_created_by_frame fields (d : gmap string string) k :
  k <> "Created By" -> k ∉ fields ->
  move_created_by fields d !! k = d !! k.
Proof.
  intros Hcb. induction fields as [|f fields IH]; intros Hk; simpl; [done|].
  apply not_elem_of_cons in Hk as [Hf Hk].
  destruct (has_key d f && negb (Str.truthy (get d f))); [|by apply IH].
  by rewrite !lookup_insert_ne.
Qed.

Ltac split_fields H :=
  unfold corrected_fields in H;
  repeat (apply not_elem_of_cons in H as [? H]).

Lemma clear_duplicate_type_frame (d : gmap string string) k :
  k ∉ corrected_fields -> clear_duplicate_type d !! k = d !! k.
Proof.
  intros H. split_fields H. unfold clear_duplicate_type.
  destruct (String.eqb _ _); [|done]. by rewrite lookup_insert_ne.
Qed.

Lemma check_status_frame (d : gmap string string) k :
  k ∉ corrected_fields -> check_status upper d !! k = d !! k.
Proof.
  intros H. split_fields H. unfold check_status.
  destruct (Str.truthy _); [|done]. destruct (negb _); [|done].
  apply swap_with_first_frame; [done|].
  repeat (apply not_elem_of_cons; split; [done|]). apply not_elem_of_nil.
Qed.

Lemma check_priority_frame (d : gmap string string) k :
  k ∉ corrected_fields -> check_priority upper d !! k = d !! k.
Proof.
  intros H. split_fields H. unfold check_priority.
  destruct (Str.truthy _); [|done]. destruct (negb _); [|done].
  apply swap_with_first_frame; [done|].
  repeat (apply not_elem_of_cons; split; [done|]). apply not_elem_of_nil.
Qed.

Lemma check_date_field_frame (d : gmap string string) date_field k :
  date_field ∈ date_fields ->
  k ∉ corrected_fields -> check_date_field upper d date_field !! k = d !! k.
Proof.
  intros Hdf H. split_fields H. unfold check_date_field.
  destruct (_ && _); [|done]. destruct (negb _); [|done].
  apply swap_with_first_frame.
  - unfold date_fields in Hdf.
    repeat (apply elem_of_cons in Hdf as [->|Hdf]; [done|]).
    by apply elem_of_nil in Hdf.
  - repeat (apply not_elem_of_cons; split; [done|]). apply not_elem_of_nil.
Qed.

Lemma check_dates_frame (d : gmap string string) k :
  k ∉ corrected_fields -> check_dates upper d !! k = d !! k.
Proof.
  intros H. unfold check_dates, date_fields. simpl.
  rewrite !check_date_field_frame; try done; unfold date_fields; set_solver.
Qed.

Lemma check_created_by_frame (d : gmap string string) k :
  k ∉ corrected_fields -> check_created_by upper d !! k = d !! k.
Proof.
  intros H. split_fields H. unfold check_created_by.
  destruct (Str.truthy _); [|done]. destruct (looks_like _ _ _); [|done].
  apply move_created_by_frame; [done|]. unfold date_fields.
  repeat (apply not_elem_of_cons; split; [done|]). apply not_elem_of_nil.
Qed.

Lemma check_shift_frame (d : gmap string string) k :
  k ∉ corrected_fields -> check_shift d !! k = d !! k.
Proof.
  intros H. split_fields H. unfold check_shift.
  destruct (_ && _); [|done]. unfold rotate_left.
  by rewrite !lookup_insert_ne.
Qed.

(** Every key outside the seven corrected fields keeps the value it
    has after the required fields were filled in. *)
Lemma validate_frame (d : gmap string string) k :
  k ∉ corrected_fields ->
  _validate_and_correct_issue_data upper d !! k = fill_required d !! k.
Proof.
  intros H. unfold _validate_and_correct_issue_data.
  rewrite check_shift_frame, check_created_by_frame, check_dates_frame,
    check_priority_frame, check_status_frame, clear_duplicate_type_frame;
    done.
Qed.

Lemma title_not_corrected : "Title" ∉ corrected_fields.
Proof.
  unfold corrected_fields.
  repeat (apply not_elem_of_cons; split; [done|]). apply not_elem_of_nil.
Qed.

Lemma validate_get_title (d : gmap string string) :
  get (_validate_and_correct_issue_data upper d) "Title" = get d "Title".
Proof.
  pose proof (validate_frame d "Title" title_not_corrected) as H.
  rewrite <- (fill_required_get d "Title").
  unfold get. rewrite H. reflexivity.
Qed.

End Frame.

(** *** Records that need no repair *)

Section Stable.
Variable upper : string -> string.

Lemma well_shaped_ext (d d' : gmap string string) :
  (forall k, k <> "Type" -> get d' k = get d k) ->
  well_shaped upper d' = well_shaped upper d.
Proof. intros H. unfold well_shaped. by rewrite !H. Qed.

Lemma well_shaped_title (d : gmap string string) :
  well_shaped upper d = true -> get d "Title" <> "".
Proof.
  unfold well_shaped. rewrite !andb_true_iff.
  intros [[[[[[Ht _] _] _] _] _] _]. by apply StrFacts.truthy_true.
Qed.

Lemma check_status_id (d : gmap string string) :
  empty_or upper status_keywords (get d "Status") = true ->
  check_status upper d = d.
Proof.
  unfold check_status, empty_or.
  destruct (Str.truthy _), (looks_like _ _ _); simpl; done.
Qed.

Lemma check_priority_id (d : gmap string string) :
  empty_or upper priority_keywords (get d "Priority") = true ->
  check_priority upper d = d.
Proof.
  unfold check_priority, empty_or.
  destruct (Str.truthy _), (looks_like _ _ _); simpl; done.
Qed.

Lemma check_date_field_id (d : gmap string string) f :
  empty_or upper date_keywords (get d f) = true ->
  check_date_field upper d f = d.
Proof.
  unfold check_date_field, empty_or.
  destruct (has_key d f), (Str.truthy _), (looks_like _ _ _); simpl; done.
Qed.

Lemma check_created_by_id (d : gmap string string) :
  looks_like upper date_keywords (get d "Created By") = false ->
  check_created_by upper d = d.
Proof.
  unfold check_created_by. intros ->. by destruct (Str.truthy _).
Qed.

Lemma check_shift_id (d : gmap string string) :
  get d "Type" <> get d "Title" -> check_shift d = d.
Proof.
  intros Hne. unfold check_shift.
  apply String.eqb_neq in Hne. by rewrite Hne.
Qed.

Lemma clear_duplicate_type_id (d : gmap string string) :
  get d "Type" <> get d "Title" -> clear_duplicate_type d = d.
Proof.
  intros Hne. unfold clear_duplicate_type.
  apply String.eqb_neq in Hne. by rewrite Hne.
Qed.

(** Steps 2 to 6 leave a well-shaped record alone when its Type
    differs from its Title. *)
Lemma repairs_id (d : gmap string string) :
  well_shaped upper d = true -> get d "Type" <> get d "Title" ->
  check_shift
    (check_created_by upper
       (check_dates upper (check_priority upper (check_status upper d))))
  = d.
Proof.
  intros Hw Hne. unfold well_shaped in Hw. rewrite !andb_true_iff in Hw.
  destruct Hw as [[[[[[_ Hs] Hp] Hd1] Hd2] Hd3] Hcb].
  apply negb_true_iff in Hcb.
  rewrite check_status_id, check_priority_id by done.
  unfold check_dates, date_fields. cbn [fold_left].
  rewrite (check_date_field_id d "Deadline") by done.
  rewrite (check_date_field_id d "Due Date") by done.
  rewrite (check_date_field_id d "Created On") by done.
  rewrite check_created_by_id by done.
  by apply check_shift_id.
Qed.

(** On a well-shaped record the validator only fills in the missing
    fields and clears a Type that repeats the Title. *)
Lemma validate_well_shaped (d : gmap string string) :
  well_shaped upper d = true ->
  let d' := clear_duplicate_type (fill_required d) in
  _validate_and_correct_issue_data upper d = d'
  /\ well_shaped upper d' = true
  /\ get d' "Type" <> get d' "Title"
  /\ complete d'.
Proof.
  intros Hw d'.
  assert (well_shaped upper d' = true) as Hw'.
  { rewrite <- Hw. apply well_shaped_ext. intros k Hk. subst d'.
    unfold clear_duplicate_type. destruct (String.eqb _ _).
    - rewrite get_insert_ne by done. apply fill_required_get.
    - apply fill_required_get. }
  assert (get d' "Type" <> get d' "Title") as Hne.
  { subst d'. unfold clear_duplicate_type.
    destruct (String.eqb _ _) eqn:E.
    - rewrite get_insert_eq, get_insert_ne by done.
      rewrite fill_required_get. intros Heq.
      by apply (well_shaped_title d).
    - by apply String.eqb_neq. }
  assert (complete d') as Hc.
  { subst d'. unfold clear_duplicate_type. destruct (String.eqb _ _).
    - apply complete_insert, fill_required_present.
    - apply fill_required_present. }
  repeat split; try done.
  unfold _validate_and_correct_issue_data. by apply repairs_id.
Qed.

End Stable.

(** *** The claims on the validator *)

(** A Status that repeats the Title next to a Type that holds a status
    word: the first pass exchanges Status and Type, which makes Type
    repeat the Title, and only the second pass clears it. *)
Definition misplaced_status : gmap string string :=
  mk_record "Login fails" "OPEN" "" "Login fails" "" "" "" "".


Definition login_bug : gmap string string :=
  mk_record "Fix login bug" "Fix login bug" "High" "OPEN" "" "" "" "".

(** A record with the signature of the column shift: Type, Priority and
    Status all repeat the Title. *)
Definition shifted_record : gmap string string :=
  mk_record "Fix login bug" "Fix login bug" "Fix login bug" "Fix login bug"
            "High" "OPEN" "10 Jan 2025" "I012345".

(** C3 at [shifted_record]: step 1 has cleared Type before step 6 tests
    the signature, so nothing is rotated: only Type changes, and the
    result is not the record rotated one position left. *)
Theorem shifted_record_not_rotated :
  fields_of shifted_record
  = ["Fix login bug"; "Fix login bug"; "Fix login bug"; "Fix login bug";
     "High"; "OPEN"; "10 Jan 2025"; "I012345"]
  /\ fields_of (_validate_and_correct_issue_data Str.ascii_upper shifted_record)
     = ["Fix login bug"; ""; "Fix login bug"; "Fix login bug";
        "High"; "OPEN"; "10 Jan 2025"; "I012345"]
  /\ fields_of (_validate_and_correct_issue_data Str.ascii_upper shifted_record)
     <> ["Fix login bug"; "Fix login bug"; "Fix login bug"; "High";
         "OPEN"; "10 Jan 2025"; "I012345"; ""].
Proof.
  assert (fields_of (_validate_and_correct_issue_data Str.ascii_upper
                       shifted_record)
          = ["Fix login bug"; ""; "Fix login bug"; "Fix login bug";
             "High"; "OPEN"; "10 Jan 2025"; "I012345"]) as H
      by (vm_compute; reflexivity).
  split; [vm_compute; reflexivity|]. split; [exact H|].
  rewrite H. discriminate.
Qed.

(** C7: on the record of scenario C (Type repeats the Title
    "Fix login bug", Priority "High", Status "OPEN", the rest empty) the
    validator returns Type "" and leaves the Title "Fix login bug". *)
Theorem scenario_c_type_cleared :
  fields_of login_bug
  = ["Fix login bug"; "Fix login bug"; "High"; "OPEN"; ""; ""; ""; ""]
  /\ _validate_and_correct_issue_data Str.ascii_upper login_bug !! "Type"
     = Some ""
  /\ _validate_and_correct_issue_data Str.ascii_upper login_bug !! "Title"
     = Some "Fix login bug"
  /\ fields_of (_validate_and_correct_issue_data Str.ascii_upper login_bug)
     = ["Fix login bug"; ""; "High"; "OPEN"; ""; ""; ""; ""].
Proof. repeat split; vm_compute; reflexivity. Qed.

(** C10: a record that has a Title key keeps the value of that key
    through the validator; no corrective step assigns Title. *)
Theorem validate_preserves_title
        (upper : string -> string) (d : gmap string string) (t : string) :
  d !! "Title" = Some t ->
  _validate_and_correct_issue_data upper d !! "Title" = Some t.
Proof.
  intros Ht. rewrite validate_frame by apply title_not_corrected.
  rewrite fill_required_lookup. by rewrite Ht.
Qed.

Lemma validate_preserves_title_witness :
  misplaced_status !! "Title" = Some "Login fails"
  /\ _validate_and_correct_issue_data Str.ascii_upper misplaced_status
       !! "Title" = Some "Login fails".
Proof.
  split.
  - vm_compute. reflexivity.
  - apply (validate_preserves_title Str.ascii_upper misplaced_status).
    vm_compute. reflexivity.
Defined.

End ValidatorFacts.

(** ** The validator on symbolic records is the validator *)

Module ValidatorIdempotence.

Import Validator ValidatorFacts Symbolic.

Lemma Fld_eqb_eq (f g : Fld) : Fld_eqb f g = true <-> f = g.
Proof. destruct f, g; cbn; split; (done || discriminate). Qed.

Lemma Fld_eqb_refl (f : Fld) : Fld_eqb f f = true.
Proof. by apply Fld_eqb_eq. Qed.

Lemma Fld_eqb_neq (f g : Fld) : f <> g -> Fld_eqb f g = false.
Proof.
  intros Hne. destruct (Fld_eqb f g) eqn:E; [|done].
  by apply Fld_eqb_eq in E.
Qed.

Lemma Ask_eqb_eq (a b : Ask) : Ask_eqb a b = true <-> a = b.
Proof. destruct a, b; cbn; split; (done || discriminate). Qed.

Lemma name_inj (f g : Fld) : name f = name g -> f = g.
Proof. destruct f, g; cbn; (done || discriminate). Qed.

Lemma name_not_title (f : Fld) : name f <> "Title".
Proof. destruct f; discriminate. Qed.

Lemma name_required (f : Fld) : name f ∈ required_fields.
Proof.
  unfold required_fields.
  destruct f; cbn;
    repeat first [ by apply list_elem_of_here | apply list_elem_of_further ].
Qed.

Lemma bind_ok {A B} (r : Res A) (k : A -> Res B) (v : B) :
  r ≫= k = Ok v -> exists a, r = Ok a /\ k a = Ok v.
Proof. destruct r as [a| |]; cbn; [eauto | discriminate | discriminate]. Qed.

Ltac bind_ok H a Ha :=
  apply bind_ok in H as (a & Ha & H).

(** The names of the fields in the goal, as [name f]. *)
Ltac name_fields :=
  change "Type" with (name FType);
  change "Priority" with (name FPriority);
  change "Status" with (name FStatus);
  change "Deadline" with (name FDeadline);
  change "Due Date" with (name FDueDate);
  change "Created By" with (name FCreatedBy);
  change "Created On" with (name FCreatedOn).

Section Concrete.

Variable upper : string -> string.
Variable r : gmap string string.
Hypothesis title_present : Str.truthy (get r "Title") = true.

(** The answer to a question on a value. *)
Definition test (a : Ask) (v : string) : bool :=
  match a with
  | ANonEmpty => Str.truthy v
  | AStatus => looks_like upper status_keywords v
  | APriority => looks_like upper priority_keywords v
  | ADate => looks_like upper date_keywords v
  | ATitle => String.eqb v (get r "Title")
  end.

Definition keywords_of (a : Ask) : list string :=
  match a with
  | AStatus => status_keywords
  | APriority => priority_keywords
  | ADate => date_keywords
  | _ => []
  end.

Definition vocabulary (a : Ask) : Prop :=
  forall v, test a v = looks_like upper (keywords_of a) v.

(** The answers on the values of the input. *)
Definition actual (f : Fld) (a : Ask) : bool := test a (get r (name f)).

(** The answers known are those of the input. *)
Definition sound (E : Env) : Prop :=
  forall f a b, E f a = Some b -> actual f a = b.

Lemma sound_unknown : sound unknown.
Proof. intros f a b H. discriminate H. Qed.

Lemma sound_learn E f a : sound E -> sound (learn E f a (actual f a)).
Proof.
  intros Hs g c b. unfold learn.
  destruct (Fld_eqb g f && Ask_eqb c a) eqn:Heq; [|apply Hs].
  apply andb_true_iff in Heq as [->%Fld_eqb_eq ->%Ask_eqb_eq].
  by intros [= <-].
Qed.

(** The value a symbolic field stands for. *)
Definition val (x : Sym) : string :=
  match x with Some f => get r (name f) | None => "" end.

(** The record a symbolic record stands for. *)
Definition conc (st : State) : gmap string string :=
  foldr (fun f m => <[name f := val (st f)]> m) (fill_required r) all_fields.

Definition field_named (k : string) : option Fld :=
  List.find (fun f => String.eqb (name f) k) all_fields.

Lemma field_named_name (f : Fld) : field_named (name f) = Some f.
Proof. by destruct f. Qed.

Lemma field_named_some k f : field_named k = Some f -> name f = k.
Proof.
  unfold field_named. intros [_ H]%find_some. by apply String.eqb_eq.
Qed.

Lemma foldr_insert_lookup (st : State) (m : gmap string string)
      (fields : list Fld) (k : string) :
  foldr (fun f m => <[name f := val (st f)]> m) m fields !! k
  = match List.find (fun f => String.eqb (name f) k) fields with
    | Some f => Some (val (st f))
    | None => m !! k
    end.
Proof.
  induction fields as [|f fields IH]; [reflexivity|].
  cbn [foldr List.find]. destruct (String.eqb_spec (name f) k) as [<-|Hne].
  - apply lookup_insert_eq.
  - rewrite lookup_insert_ne by exact Hne. exact IH.
Qed.

Lemma conc_lookup st k :
  conc st !! k
  = match field_named k with
    | Some f => Some (val (st f))
    | None => fill_required r !! k
    end.
Proof. apply foldr_insert_lookup. Qed.

Lemma get_conc st f : get (conc st) (name f) = val (st f).
Proof.
  unfold get. rewrite conc_lookup. rewrite field_named_name. reflexivity.
Qed.

Lemma field_named_title : field_named "Title" = None.
Proof. reflexivity. Qed.

Lemma get_conc_title st : get (conc st) "Title" = get r "Title".
Proof.
  rewrite <- (fill_required_get r "Title"). unfold get.
  by rewrite conc_lookup, field_named_title.
Qed.

Lemma conc_complete st : complete (conc st).
Proof.
  intros k Hk. rewrite conc_lookup. destruct (field_named k); [eauto|].
  by apply fill_required_present.
Qed.

Lemma has_key_conc st f : has_key (conc st) (name f) = true.
Proof. apply has_key_true, conc_complete, name_required. Qed.

Lemma fill_conc st : fill_required (conc st) = conc st.
Proof. apply fill_required_complete, conc_complete. Qed.

Lemma conc_ext st st' : (forall f, st f = st' f) -> conc st = conc st'.
Proof.
  intros H. apply map_eq. intros k. rewrite !conc_lookup.
  destruct (field_named k); [by rewrite H | done].
Qed.

Lemma conc_initial : conc initial = fill_required r.
Proof.
  apply map_eq. intros k. rewrite conc_lookup.
  destruct (field_named k) as [f|] eqn:Hk; [|done].
  apply field_named_some in Hk as <-. cbn [initial val].
  pose proof (fill_required_present r (name f) (name_required f)) as [v Hv].
  rewrite Hv. f_equal. rewrite <- (fill_required_get r). unfold get.
  by rewrite Hv.
Qed.

Lemma insert_conc st f x :
  <[name f := val x]> (conc st) = conc (upd st f x).
Proof.
  apply map_eq. intros k. destruct (decide (k = name f)) as [->|Hne].
  - rewrite lookup_insert_eq, conc_lookup, field_named_name.
    unfold upd. by rewrite Fld_eqb_refl.
  - rewrite lookup_insert_ne by done. rewrite !conc_lookup.
    destruct (field_named k) as [g|] eqn:Hk; [|done].
    apply field_named_some in Hk. unfold upd.
    rewrite Fld_eqb_neq; [done|]. intros ->. done.
Qed.

Lemma swap_conc st a b :
  swap (conc st) (name a) (name b) = conc (sym_swap st a b).
Proof.
  unfold swap, sym_swap. rewrite !get_conc.
  by rewrite (insert_conc st a (st b)), (insert_conc _ b (st a)).
Qed.

(** *** The questions *)

Lemma ask_sound E f a b : sound E -> ask E f a = Ok b -> actual f a = b.
Proof.
  intros Hs. unfold ask. destruct (E f a) as [b'|] eqn:He; [|discriminate].
  intros [= <-]. by apply Hs.
Qed.

Lemma a_truthy_sound E x b :
  sound E -> a_truthy E x = Ok b -> Str.truthy (val x) = b.
Proof.
  intros Hs. destruct x as [f|]; cbn.
  - apply (ask_sound E f ANonEmpty b Hs).
  - by intros [= <-].
Qed.

Lemma a_like_sound E a x b :
  sound E -> a_like E a x = Ok b -> test a (val x) = b.
Proof.
  intros Hs. destruct x as [f|]; cbn; [|discriminate].
  apply (ask_sound E f a b Hs).
Qed.

Lemma a_is_title_sound E x b :
  sound E -> a_is_title E x = Ok b ->
  String.eqb (val x) (get r "Title") = b.
Proof.
  intros Hs. destruct x as [f|]; cbn [a_is_title val].
  - intros H. bind_ok H t Ht. apply (ask_sound E f _ _ Hs) in Ht.
    destruct t.
    + apply (ask_sound E f ATitle b Hs H).
    + injection H as <-. unfold actual, test in Ht.
      destruct (get r (name f)); [|discriminate Ht].
      by destruct (get r "Title").
  - intros [= <-]. by destruct (get r "Title").
Qed.

(** *** The steps *)

Lemma a_clear_ok E st st' :
  sound E -> a_clear E st = Ok st' ->
  clear_duplicate_type (conc st) = conc st'.
Proof.
  intros Hs H. unfold a_clear in H. bind_ok H b Hb. injection H as <-.
  apply (a_is_title_sound E _ _ Hs) in Hb.
  unfold clear_duplicate_type. name_fields.
  rewrite (get_conc st FType), get_conc_title, Hb.
  destruct b; [|done]. apply (insert_conc st FType None).
Qed.

Lemma a_swap_first_ok E a target fields :
  sound E -> vocabulary a ->
  forall st st',
    a_swap_first E a target fields st = Ok st' ->
    swap_with_first upper (keywords_of a) (name target) (map name fields)
                    (conc st)
    = conc st'.
Proof.
  intros Hs Ha. induction fields as [|f fields IH]; intros st st' H.
  - by injection H as <-.
  - cbn [a_swap_first] in H. cbn [map swap_with_first].
    rewrite has_key_conc, get_conc. cbn [andb].
    bind_ok H t Ht. apply (a_truthy_sound E _ _ Hs) in Ht. rewrite Ht.
    destruct t; [|by apply IH].
    bind_ok H b Hb. apply (a_like_sound E _ _ _ Hs) in Hb.
    rewrite <- Ha, Hb. destruct b; [|by apply IH].
    injection H as <-. apply swap_conc.
Qed.

(** The shape of steps 2, 3 and 4 on a record with the required
    fields. *)
Definition check_field (keywords : list string) (target : string)
           (fields : list string) (d : gmap string string) :=
  if Str.truthy (get d target) then
    if negb (looks_like upper keywords (get d target))
    then swap_with_first upper keywords target fields d
    else d
  else d.

Lemma a_check_ok E a target fields st st' keywords target_name field_names :
  sound E -> vocabulary a ->
  keywords = keywords_of a -> target_name = name target ->
  field_names = map name fields ->
  a_check E a target fields st = Ok st' ->
  check_field keywords target_name field_names (conc st) = conc st'.
Proof.
  intros Hs Ha -> -> -> H. unfold a_check in H. unfold check_field.
  rewrite get_conc.
  bind_ok H t Ht. apply (a_truthy_sound E _ _ Hs) in Ht. rewrite Ht.
  destruct t; [|by injection H as <-].
  bind_ok H b Hb. apply (a_like_sound E _ _ _ Hs) in Hb.
  rewrite <- Ha, Hb. destruct b; cbn [negb] in *; [by injection H as <-|].
  by apply (a_swap_first_ok E a target fields Hs Ha).
Qed.

Lemma check_status_field (d : gmap string string) :
  check_status upper d
  = check_field status_keywords "Status" ["Priority"; "Type"; "Deadline"] d.
Proof. reflexivity. Qed.

Lemma check_priority_field (d : gmap string string) :
  check_priority upper d
  = check_field priority_keywords "Priority" ["Type"; "Status"] d.
Proof. reflexivity. Qed.

Lemma check_date_field_field (d : gmap string string) (date_field : string) :
  has_key d date_field = true ->
  check_date_field upper d date_field
  = check_field date_keywords date_field ["Status"; "Priority"; "Type"] d.
Proof. intros H. unfold check_date_field, check_field. by rewrite H. Qed.

Lemma a_check_status_ok E st st' :
  sound E -> a_check_status E st = Ok st' ->
  check_status upper (conc st) = conc st'.
Proof.
  intros Hs H. rewrite check_status_field.
  apply (a_check_ok E AStatus FStatus [FPriority; FType; FDeadline] st st');
    (done || reflexivity || by intros v).
Qed.

Lemma a_check_priority_ok E st st' :
  sound E -> a_check_priority E st = Ok st' ->
  check_priority upper (conc st) = conc st'.
Proof.
  intros Hs H. rewrite check_priority_field.
  apply (a_check_ok E APriority FPriority [FType; FStatus] st st');
    (done || reflexivity || by intros v).
Qed.

Lemma a_check_date_ok E f st st' :
  sound E -> a_check_date E f st = Ok st' ->
  check_date_field upper (conc st) (name f) = conc st'.
Proof.
  intros Hs H. rewrite check_date_field_field by apply has_key_conc.
  apply (a_check_ok E ADate f [FStatus; FPriority; FType] st st');
    (done || reflexivity || by intros v).
Qed.

Lemma a_check_dates_ok E st st' :
  sound E -> a_check_dates E st = Ok st' ->
  check_dates upper (conc st) = conc st'.
Proof.
  intros Hs H. unfold a_check_dates in H.
  bind_ok H st1 H1. bind_ok H st2 H2.
  unfold check_dates, date_fields. cbn [fold_left]. name_fields.
  rewrite (a_check_date_ok E FDeadline st st1 Hs H1).
  rewrite (a_check_date_ok E FDueDate st1 st2 Hs H2).
  apply (a_check_date_ok E FCreatedOn st2 st' Hs H).
Qed.

Lemma a_move_ok E fields :
  sound E ->
  forall st st',
    a_move E fields st = Ok st' ->
    move_created_by (map name fields) (conc st) = conc st'.
Proof.
  intros Hs. induction fields as [|f fields IH]; intros st st' H.
  - by injection H as <-.
  - cbn [a_move] in H. cbn [map move_created_by].
    rewrite has_key_conc, get_conc. cbn [andb].
    bind_ok H t Ht. apply (a_truthy_sound E _ _ Hs) in Ht. rewrite Ht.
    destruct t; cbn [negb] in *; [by apply IH|].
    injection H as <-. name_fields. rewrite (get_conc st FCreatedBy).
    rewrite (insert_conc st f (st FCreatedBy)).
    apply (insert_conc _ FCreatedBy None).
Qed.

Lemma a_check_created_by_ok E st st' :
  sound E -> a_check_created_by E st = Ok st' ->
  check_created_by upper (conc st) = conc st'.
Proof.
  intros Hs H. unfold a_check_created_by in H. unfold check_created_by.
  name_fields. rewrite (get_conc st FCreatedBy).
  bind_ok H t Ht. apply (a_truthy_sound E _ _ Hs) in Ht. rewrite Ht.
  destruct t; [|by injection H as <-].
  bind_ok H b Hb. apply (a_like_sound E _ _ _ Hs) in Hb.
  change (test ADate (val (st FCreatedBy)))
    with (looks_like upper date_keywords (val (st FCreatedBy))) in Hb.
  rewrite Hb. destruct b; [|by injection H as <-].
  exact (a_move_ok E [FDeadline; FDueDate; FCreatedOn] Hs st st' H).
Qed.

Lemma a_check_shift_ok E st st' :
  sound E -> a_check_shift E st = Ok st' -> check_shift (conc st) = conc st'.
Proof.
  intros Hs H. unfold a_check_shift in H. bind_ok H b Hb.
  apply (a_is_title_sound E _ _ Hs) in Hb.
  destruct b; [discriminate H|]. injection H as <-.
  unfold check_shift. name_fields.
  rewrite (get_conc st FType), get_conc_title, Hb. done.
Qed.

(** One pass of the validator over the record of a symbolic record. *)
Lemma a_validate_ok E st st' :
  sound E -> a_validate E st = Ok st' ->
  _validate_and_correct_issue_data upper (conc st) = conc st'.
Proof.
  intros Hs H. unfold a_validate in H.
  bind_ok H st1 H1. bind_ok H st2 H2. bind_ok H st3 H3. bind_ok H st4 H4.
  bind_ok H st5 H5.
  unfold _validate_and_correct_issue_data. rewrite fill_conc.
  rewrite (a_clear_ok E st st1 Hs H1).
  rewrite (a_check_status_ok E st1 st2 Hs H2).
  rewrite (a_check_priority_ok E st2 st3 Hs H3).
  rewrite (a_check_dates_ok E st3 st4 Hs H4).
  rewrite (a_check_created_by_ok E st4 st5 Hs H5).
  apply (a_check_shift_ok E st5 st' Hs H).
Qed.

Lemma validate_initial :
  _validate_and_correct_issue_data upper r
  = _validate_and_correct_issue_data upper (conc initial).
Proof.
  unfold _validate_and_correct_issue_data.
  by rewrite fill_conc, conc_initial.
Qed.

Lemma Sym_eqb_eq (x y : Sym) : Sym_eqb x y = true -> x = y.
Proof.
  destruct x as [f|], y as [g|]; cbn; try done.
  by intros ->%Fld_eqb_eq.
Qed.

Lemma same_eq st st' : same st st' = true -> forall f, st f = st' f.
Proof.
  unfold same, all_fields. cbn [forallb]. rewrite !andb_true_iff.
  intros (H1 & H2 & H3 & H4 & H5 & H6 & H7 & _) f.
  destruct f; by apply Sym_eqb_eq.
Qed.

(** *** Conditions *)

Lemma decide_cond_sound E c :
  sound E -> forall b, decide_cond E c = Ok b -> holds actual c = b.
Proof.
  intros Hs. induction c as [f a|x IHx y IHy|x IHx y IHy|x IHx];
    intros b H; cbn [decide_cond holds] in *.
  - by apply (ask_sound E).
  - bind_ok H bx Hx. rewrite (IHx bx Hx).
    destruct bx; [by apply IHy | by injection H as <-].
  - bind_ok H bx Hx. rewrite (IHx bx Hx).
    destruct bx; [by injection H as <- | by apply IHy].
  - bind_ok H bx Hx. rewrite (IHx bx Hx). by injection H as <-.
Qed.

Lemma second_pass_same_ok c E :
  sound E -> second_pass_same c E = Ok true -> holds actual c = true ->
  _validate_and_correct_issue_data upper
    (_validate_and_correct_issue_data upper r)
  = _validate_and_correct_issue_data upper r.
Proof.
  intros Hs H Hc. unfold second_pass_same in H.
  bind_ok H b Hb. rewrite (decide_cond_sound E c Hs b Hb) in Hc. subst b.
  cbn [negb] in H. bind_ok H once Honce. bind_ok H twice Htwice.
  injection H as Hsame.
  rewrite validate_initial, (a_validate_ok E initial once Hs Honce).
  rewrite (a_validate_ok E once twice Hs Htwice).
  symmetry. apply conc_ext, same_eq, Hsame.
Qed.

Lemma explore_ok c fuel :
  forall E,
    sound E -> explore c fuel E = true -> holds actual c = true ->
    _validate_and_correct_issue_data upper
      (_validate_and_correct_issue_data upper r)
    = _validate_and_correct_issue_data upper r.
Proof.
  induction fuel as [|fuel IH]; intros E Hs H Hc; [discriminate H|].
  cbn [explore] in H.
  destruct (second_pass_same c E) as [b|f a|] eqn:Hpass; [| |discriminate H].
  - subst b. by apply (second_pass_same_ok c E).
  - apply andb_true_iff in H as [Htrue Hfalse].
    destruct (actual f a) eqn:Hact.
    + apply (IH (learn E f a true)); [|done|done].
      rewrite <- Hact. by apply sound_learn.
    + apply (IH (learn E f a false)); [|done|done].
      rewrite <- Hact. by apply sound_learn.
Qed.

Lemma regular_holds :
  regular upper r = Str.truthy (get r "Title") && holds actual regular_cond.
Proof. reflexivity. Qed.

End Concrete.

(** Every combination of answers that makes a record regular has been
    followed through two passes. *)
Lemma regular_explored : explore regular_cond 40 unknown = true.
Proof. vm_compute. reflexivity. Qed.


(** A record with Status and Priority exchanged and the date of the
    deadline under Created By. *)
Definition misfiled_record : gmap string string :=
  mk_record "Login fails" "Bug" "OPEN" "High" "" "" "10 Jan 2025" "".


(** Two more ways in which a second pass changes the result of the
    first.  The date swap of step 4 runs after steps 2 and 3: it can put
    into Status a value that the next pass exchanges with Priority.
    And with an empty Title the rotation of step 6 fires again at each
    pass. *)
Definition dated_status : gmap string string :=
  mk_record "Login fails" "" "Open" "Done 12 Jan" "" "" "" "n/a".

Definition untitled_record : gmap string string :=
  mk_record "" "" "" "" "" "" "" "I012345".

Lemma validate_not_idempotent_other_causes :
  fields_of (_validate_and_correct_issue_data Str.ascii_upper dated_status)
  = ["Login fails"; ""; "Open"; "n/a"; ""; ""; ""; "Done 12 Jan"]
  /\ fields_of (_validate_and_correct_issue_data Str.ascii_upper
                  (_validate_and_correct_issue_data Str.ascii_upper
                     dated_status))
     = ["Login fails"; ""; "n/a"; "Open"; ""; ""; ""; "Done 12 Jan"]
  /\ fields_of (_validate_and_correct_issue_data Str.ascii_upper
                  untitled_record)
     = [""; ""; ""; ""; ""; ""; "I012345"; ""]
  /\ fields_of (_validate_and_correct_issue_data Str.ascii_upper
                  (_validate_and_correct_issue_data Str.ascii_upper
                     untitled_record))
     = [""; ""; ""; ""; ""; "I012345"; ""; ""].
Proof. repeat split; vm_compute; reflexivity. Qed.

End ValidatorIdempotence.

(** ** Properties of [_normalize_status] *)

Module StatusFacts.

Import Status.

(** A status text that mentions a reopening next to the publishing
    state. *)
Definition reopened_text : string := "Reopened - ready to publish".

(** C6, as stated, fails: [reopened_text] contains both "READY" and
    "PUBLISH" without regard to case, and is normalized to "OPEN", since
    "OPEN" is looked for first. *)
Lemma normalize_status_ready_publish_shadowed :
  Str.contains "READY" (Str.ascii_upper reopened_text) = true
  /\ Str.contains "PUBLISH" (Str.ascii_upper reopened_text) = true
  /\ _normalize_status Str.ascii_upper (Some reopened_text) = "OPEN"
  /\ _normalize_status Str.ascii_upper (Some reopened_text)
     <> "READY FOR PUBLISHING".
Proof. vm_compute. repeat split; try reflexivity. discriminate. Qed.

Section Normalize.

Variable upper : string -> string.

Ltac vocabulary :=
  unfold closed_vocabulary;
  repeat first [ by apply list_elem_of_here | apply list_elem_of_further ].

(** A text that carries a keyword is sent into the vocabulary. *)
Lemma normalize_status_closed (s : string) :
  Str.truthy s = true ->
  Str.any_in Validator.status_keywords (upper s) = true ->
  _normalize_status upper (Some s) ∈ closed_vocabulary.
Proof.
  intros Hs Hk. unfold _normalize_status. rewrite Hs. cbn [negb].
  unfold Str.any_in, Validator.status_keywords in Hk. cbn [existsb] in Hk.
  destruct (Str.contains "OPEN" (upper s)); [vocabulary|].
  destruct (Str.contains "DONE" (upper s)); [vocabulary|].
  destruct (Str.contains "IN PROGRESS" (upper s)); [vocabulary|].
  destruct (Str.contains "READY" (upper s)).
  { destruct (Str.contains "PUBLISH" (upper s)); vocabulary. }
  destruct (Str.contains "ACCEPTED" (upper s)); [vocabulary|].
  destruct (Str.contains "DRAFT" (upper s)); [vocabulary|].
  destruct (Str.contains "CLOSED" (upper s)); [vocabulary|].
  discriminate Hk.
Qed.

(** "READY" with "PUBLISH" gives "READY FOR PUBLISHING" when none of the
    keywords looked for earlier occurs. *)
Lemma normalize_status_ready_publish (s : string) :
  Str.truthy s = true ->
  Str.contains "READY" (upper s) = true ->
  Str.contains "PUBLISH" (upper s) = true ->
  Str.any_in ["OPEN"; "DONE"; "IN PROGRESS"] (upper s) = false ->
  _normalize_status upper (Some s) = "READY FOR PUBLISHING".
Proof.
  intros Hs Hr Hp Hk. unfold _normalize_status. rewrite Hs, Hr, Hp.
  unfold Str.any_in in Hk. cbn [existsb] in Hk.
  rewrite !orb_false_iff in Hk. destruct Hk as (-> & -> & -> & _).
  reflexivity.
Qed.

(** A text without any keyword comes back as it is. *)
Lemma normalize_status_unrecognized (s : string) :
  Str.any_in Validator.status_keywords (upper s) = false ->
  _normalize_status upper (Some s) = s.
Proof.
  intros Hk. unfold _normalize_status.
  unfold Str.any_in, Validator.status_keywords in Hk. cbn [existsb] in Hk.
  rewrite !orb_false_iff in Hk.
  destruct Hk as (-> & -> & -> & -> & -> & -> & -> & _).
  destruct s; reflexivity.
Qed.

End Normalize.

(** C6, amended: on a text that is not empty the keywords are looked
    for in its upper-cased form in the order OPEN, DONE, IN PROGRESS,
    READY, ACCEPTED, DRAFT, CLOSED, and the first that occurs decides:
    the result is that keyword, but for READY, which gives "READY FOR
    PUBLISHING" when "PUBLISH" occurs too; a text without keyword is
    returned unchanged.  Hence a text that contains one of the seven
    keywords is sent to a member of the closed vocabulary, and a text
    that contains "READY" and "PUBLISH" and none of "OPEN", "DONE",
    "IN PROGRESS" is sent to "READY FOR PUBLISHING".  [None] and the
    empty text give the empty text. *)
Theorem normalize_status_spec (upper : string -> string) (s : string) :
  (Str.truthy s = true ->
   _normalize_status upper (Some s)
   = match List.find (fun keyword => Str.contains keyword (upper s))
                     ["OPEN"; "DONE"; "IN PROGRESS"; "READY"; "ACCEPTED";
                      "DRAFT"; "CLOSED"] with
     | Some keyword =>
         if String.eqb keyword "READY" && Str.contains "PUBLISH" (upper s)
         then "READY FOR PUBLISHING" else keyword
     | None => s
     end)
  /\ (Str.truthy s = true ->
      Str.any_in Validator.status_keywords (upper s) = true ->
      _normalize_status upper (Some s) ∈ closed_vocabulary)
  /\ (Str.truthy s = true ->
      Str.contains "READY" (upper s) = true ->
      Str.contains "PUBLISH" (upper s) = true ->
      Str.any_in ["OPEN"; "DONE"; "IN PROGRESS"] (upper s) = false ->
      _normalize_status upper (Some s) = "READY FOR PUBLISHING")
  /\ (Str.any_in Validator.status_keywords (upper s) = false ->
      _normalize_status upper (Some s) = s)
  /\ _normalize_status upper None = ""
  /\ _normalize_status upper (Some "") = "".
Proof.
  split.
  { intros Hs. unfold _normalize_status. rewrite Hs. cbn [negb List.find].
    destruct (Str.contains "OPEN" (upper s)); [reflexivity|].
    destruct (Str.contains "DONE" (upper s)); [reflexivity|].
    destruct (Str.contains "IN PROGRESS" (upper s)); [reflexivity|].
    destruct (Str.contains "READY" (upper s)).
    { destruct (Str.contains "PUBLISH" (upper s)); reflexivity. }
    destruct (Str.contains "ACCEPTED" (upper s)); [reflexivity|].
    destruct (Str.contains "DRAFT" (upper s)); [reflexivity|].
    destruct (Str.contains "CLOSED" (upper s)); reflexivity. }
  split; [apply normalize_status_closed|].
  split; [apply normalize_status_ready_publish|].
  split; [apply normalize_status_unrecognized|].
  split; reflexivity.
Qed.

Lemma normalize_status_spec_witness :
  _normalize_status Str.ascii_upper (Some "Done, was in progress") = "DONE"
  /\ _normalize_status Str.ascii_upper (Some "Ready for publishing")
       ∈ closed_vocabulary
  /\ _normalize_status Str.ascii_upper (Some "Ready for publishing")
     = "READY FOR PUBLISHING"
  /\ _normalize_status Str.ascii_upper (Some "Postponed") = "Postponed".
Proof.
  destruct (normalize_status_spec Str.ascii_upper "Done, was in progress")
    as (Hfirst & _).
  destruct (normalize_status_spec Str.ascii_upper "Ready for publishing")
    as (_ & Hclosed & Hready & _).
  destruct (normalize_status_spec Str.ascii_upper "Postponed")
    as (_ & _ & _ & Hsame & _).
  split; [rewrite Hfirst; vm_compute; reflexivity|].
  split; [apply Hclosed; vm_compute; reflexivity|].
  split; [apply Hready; vm_compute; reflexivity|].
  apply Hsame; vm_compute; reflexivity.
Defined.

End StatusFacts.

(** ** Properties of [_detect_table_type] *)

Module TableTypeFacts.

Import TableType.

(** C8: the probes are read in the order classic table, list items,
    grid container; when the three succeed the result is the first
    category with a count above zero and "unknown" when all counts are
    zero; when a probe raises the result is "unknown"; the result is
    always one of the four table types. *)
Theorem detect_table_type_spec (p : Probes) :
  (forall a b c,
      p = {| standard_ui5 := Some a; responsive_table := Some b;
             grid_table := Some c |} ->
      ((0 < a)%nat -> _detect_table_type p = "standard_ui5")
      /\ (a = 0%nat -> (0 < b)%nat -> _detect_table_type p = "responsive_table")
      /\ (a = 0%nat -> b = 0%nat -> (0 < c)%nat ->
          _detect_table_type p = "grid_table")
      /\ (a = 0%nat -> b = 0%nat -> c = 0%nat ->
          _detect_table_type p = "unknown"))
  /\ (standard_ui5 p = None \/ responsive_table p = None
      \/ grid_table p = None -> _detect_table_type p = "unknown")
  /\ _detect_table_type p ∈ table_types.
Proof.
  split; [|split].
  - intros a b c ->. unfold _detect_table_type, detect. cbn.
    repeat split.
    + intros Ha. destruct a; [lia | reflexivity].
    + intros -> Hb. destruct b; [lia | reflexivity].
    + intros -> -> Hc. destruct c; [lia | reflexivity].
    + by intros -> -> ->.
  - unfold _detect_table_type, detect.
    destruct p as [[a|] [b|] [c|]]; cbn; intros [H|[H|H]];
      first [ discriminate H | reflexivity ].
  - unfold _detect_table_type, detect, table_types.
    destruct p as [[[|a]|] [[|b]|] [[|c]|]]; cbn;
      repeat first [ by apply list_elem_of_here | apply list_elem_of_further ].
Qed.

Definition list_page : Probes :=
  {| standard_ui5 := Some 0%nat; responsive_table := Some 2%nat;
     grid_table := Some 1%nat |}.

Definition broken_page : Probes :=
  {| standard_ui5 := Some 3%nat; responsive_table := None;
     grid_table := Some 1%nat |}.

Lemma detect_table_type_spec_witness :
  _detect_table_type list_page = "responsive_table"
  /\ _detect_table_type broken_page = "unknown".
Proof.
  split.
  - destruct (detect_table_type_spec list_page) as (Hfirst & _ & _).
    destruct (Hfirst 0%nat 2%nat 1%nat eq_refl) as (_ & Hresponsive & _).
    apply Hresponsive; [reflexivity | lia].
  - destruct (detect_table_type_spec broken_page) as (_ & Hraise & _).
    apply Hraise. right. left. reflexivity.
Defined.

End TableTypeFacts.

(** ** Properties of the scroll loop *)

Module ScrollFacts.

Import Scroll.

Local Open Scope Z_scope.

Ltac same_leb :=
  rewrite ?Pos.mul_1_l, ?Pos.mul_1_r;
  match goal with
  | |- (?a <=? ?b) = (?c <=? ?d) =>
      destruct (Z.leb_spec a b), (Z.leb_spec c d); lia
  end.

(** [current >= total * 0.9] over the integers. *)
Lemma ninety_percent_le t c :
  Qle_bool (inject_Z t * (9 # 10))%Q (inject_Z c) = (9 * t <=? 10 * c).
Proof. unfold Qle_bool. cbn. same_leb. Qed.

(** [coverage_percentage >= 95] over the integers. *)
Lemma coverage_ge_95 c t :
  Qle_bool 95%Q (coverage_percentage c t) = (0 <? t) && (95 * t <=? 100 * c).
Proof.
  unfold coverage_percentage.
  destruct t as [|p|p]; cbn [Z.ltb Z.compare andb]; try reflexivity.
  unfold Qle_bool. cbn. same_leb.
Qed.

Lemma count_bound_pos : 0 < count_bound.
Proof. reflexivity. Qed.

Lemma count_bound_below_limit : count_bound < float_limit.
Proof. reflexivity. Qed.

(** Inside the range of the counts no conversion overflows. *)
Lemma float_raises_in_range z :
  Z.abs z < count_bound -> float_raises z = false.
Proof.
  intros Hz. unfold float_raises. apply Z.leb_gt.
  pose proof count_bound_below_limit. lia.
Qed.

Lemma true_div_raises_in_range a b :
  Z.abs a < count_bound -> b <> 0 -> true_div_raises a b = false.
Proof.
  intros Ha Hb. unfold true_div_raises. apply Z.leb_gt.
  pose proof count_bound_below_limit. nia.
Qed.

(** The four criteria, written over the integers. *)
Definition criteria (n c t : Z) : bool :=
  ((10 <=? n) && (9 * t <=? 10 * c))
  || (20 <=? n) || (t <=? c)
  || ((0 <? t) && (95 * t <=? 100 * c) && (5 <=? n)).

Lemma finish_criteria_value n c t b :
  finish_criteria n c t = Some b -> b = criteria n c t.
Proof.
  unfold finish_criteria, criteria.
  destruct ((0 <? t) && true_div_raises c t); [done|].
  destruct ((10 <=? n) && float_raises t); [done|].
  intros [= <-]. rewrite ninety_percent_le, coverage_ge_95.
  destruct (10 <=? n), (9 * t <=? 10 * c), (20 <=? n), (t <=? c), (0 <? t),
    (95 * t <=? 100 * c), (5 <=? n); reflexivity.
Qed.

Lemma finish_criteria_in_range n c t :
  Z.abs t < count_bound -> Z.abs c < count_bound ->
  finish_criteria n c t = Some (criteria n c t).
Proof.
  intros Ht Hc.
  destruct (finish_criteria n c t) as [b|] eqn:E;
    [by rewrite (finish_criteria_value n c t b E)|].
  unfold finish_criteria in E. rewrite (float_raises_in_range t Ht) in E.
  rewrite andb_false_r in E.
  destruct (Z.ltb_spec 0 t) as [Hpos|Hneg]; cbn [andb] in E; [|done].
  rewrite (true_div_raises_in_range c t Hc) in E by lia. done.
Qed.

(** The four criteria of [_should_finish_scrolling], in the range of the
    counts. *)
Lemma should_finish_iff n c t :
  Z.abs t < count_bound -> Z.abs c < count_bound ->
  _should_finish_scrolling n c t = true <->
  (10 <= n /\ 9 * t <= 10 * c) \/ 20 <= n \/ t <= c
  \/ (0 < t /\ 95 * t <= 100 * c /\ 5 <= n).
Proof.
  intros Ht Hc. unfold _should_finish_scrolling.
  rewrite (finish_criteria_in_range n c t Ht Hc). unfold criteria.
  destruct (Z.leb_spec 10 n), (Z.leb_spec (9 * t) (10 * c)), (Z.leb_spec 20 n),
    (Z.leb_spec t c), (Z.ltb_spec 0 t), (Z.leb_spec (95 * t) (100 * c)),
    (Z.leb_spec 5 n); cbn; split; (lia || (intros; discriminate) || auto).
Qed.

(** Twenty iterations without change end the scroll on every path, the
    [except] branch included. *)
Lemma should_finish_at_20 n c t :
  20 <= n -> _should_finish_scrolling n c t = true.
Proof.
  intros Hn. unfold _should_finish_scrolling.
  destruct (finish_criteria n c t) as [b|] eqn:E.
  - rewrite (finish_criteria_value n c t b E). unfold criteria.
    apply Z.leb_le in Hn. rewrite Hn.
    by destruct ((10 <=? n) && (9 * t <=? 10 * c)).
  - apply Z.ltb_lt. lia.
Qed.

(** Beyond the floats the [except] branch answers: a total of 401
    digits makes [total_expected * 0.9] raise, a row count of 401 digits
    makes the division raise, and the result is [no_change_count > 15]
    alone. *)
Lemma should_finish_beyond_floats :
  _should_finish_scrolling 16 5 (10 ^ 400) = true
  /\ _should_finish_scrolling 15 5 (10 ^ 400) = false
  /\ _should_finish_scrolling 5 (10 ^ 400) 100 = false
  /\ _should_finish_scrolling 5 96 100 = true.
Proof. repeat split; vm_compute; reflexivity. Qed.

(** After an iteration [previous_rows_count] is the count the iteration
    observed, on every path through the body. *)
Lemma scroll_iteration_previous has_pagination total obs st :
  previous_rows_count (fst (scroll_iteration has_pagination total obs st))
  = match rows_found obs with
    | Some n => Z.of_nat n
    | None => previous_rows_count st
    end.
Proof.
  unfold scroll_iteration. destruct (rows_found obs) as [n|]; [|reflexivity].
  destruct (Z.eqb_spec (Z.of_nat n) (previous_rows_count st)) as [Heq|Hne].
  - destruct (has_pagination && _ && _); [by cbn|].
    destruct (_should_finish_scrolling _ _ _); by cbn.
  - reflexivity.
Qed.

(** An iteration that raises leaves the counters as they are and does
    not end the loop. *)
Lemma scroll_iteration_raises has_pagination total obs st :
  rows_found obs = None ->
  scroll_iteration has_pagination total obs st = (st, false).
Proof. intros H. unfold scroll_iteration. by rewrite H. Qed.

Lemma state_before_previous has_pagination total env i :
  previous_rows_count (state_before has_pagination total env i)
  = Z.of_nat (last_observed env i).
Proof.
  induction i as [|i IH]; [done|].
  cbn [state_before last_observed]. rewrite scroll_iteration_previous, IH.
  by destruct (rows_found (env i)).
Qed.

(** The run of the loop: it performs the iterations up to the first one
    that ends in [break], all of them when there is none. *)
Lemma scroll_loop_trace has_pagination total env remaining :
  forall attempt,
    let r := scroll_loop has_pagination total env remaining attempt
                         (state_before has_pagination total env attempt) in
    (attempt <= snd r <= attempt + remaining)%nat
    /\ fst r = state_before has_pagination total env (snd r)
    /\ (forall i, (attempt <= i < snd r)%nat ->
                  ends_loop has_pagination total env i = true ->
                  S i = snd r)
    /\ ((snd r < attempt + remaining)%nat ->
        exists i, snd r = S i /\ (attempt <= i)%nat
                  /\ ends_loop has_pagination total env i = true).
Proof.
  induction remaining as [|remaining IH]; intros attempt; cbn zeta.
  - cbn. split; [lia|]. split; [done|]. split; intros; lia.
  - cbn [scroll_loop].
    destruct (scroll_iteration has_pagination total (env attempt)
                (state_before has_pagination total env attempt))
      as [st' stop] eqn:Hit.
    assert (ends_loop has_pagination total env attempt = stop) as Hflag
        by (unfold ends_loop; by rewrite Hit).
    assert (state_before has_pagination total env (S attempt) = st') as Hnext
        by (cbn [state_before]; by rewrite Hit).
    subst st'.
    destruct stop; cbn [fst snd].
    + split; [lia|]. split; [done|]. split.
      * intros i Hi _. lia.
      * intros _. exists attempt. done.
    + destruct (IH (S attempt)) as (Hbound & Hstate & Hbefore & Hearly).
      split; [lia|]. split; [exact Hstate|]. split.
      * intros i Hi Hend.
        destruct (decide (i = attempt)) as [->|Hne]; [congruence|].
        apply Hbefore; [lia | done].
      * intros Hlt. destruct Hearly as (i & Hk & Hi & Hend); [lia|].
        exists i. split; [done|]. split; [lia | done].
Qed.


(** A table that shows 96 rows from the first scroll on and has no
    pagination. *)
Definition steady_table : Table :=
  {| probes := {| TableType.standard_ui5 := Some 1%nat;
                  TableType.responsive_table := Some 0%nat;
                  TableType.grid_table := Some 0%nat |};
     pagination_found := false;
     answers := fun _ _ => {| rows_found := Some 96%nat; next_page := false |} |}.


(** One iteration that observes [n] rows, in the range of the counts. *)
Lemma iteration_stop_iff
      (has_pagination : bool) (total : Z) (st : ScrollState)
      (n : nat) (np : bool) :
  Z.abs total < count_bound -> Z.of_nat n < count_bound ->
  let current := Z.of_nat n in
  let streak := no_change_count st + 1 in
  snd (scroll_iteration has_pagination total
                        {| rows_found := Some n; next_page := np |} st) = true
  <-> (current = previous_rows_count st
       /\ has_pagination && (5 <=? streak) && np = false
       /\ ((10 <= streak /\ 9 * total <= 10 * current)
           \/ 20 <= streak
           \/ total <= current
           \/ (0 < total /\ 95 * total <= 100 * current /\ 5 <= streak)))
      \/ (current <> previous_rows_count st /\ total <= current).
Proof.
  intros Ht Hn. cbn zeta.
  assert (Z.abs (Z.of_nat n) < count_bound) as Hc by lia.
  unfold scroll_iteration. cbn [rows_found next_page].
  destruct (Z.eqb_spec (Z.of_nat n) (previous_rows_count st)) as [Heq|Hne].
  - destruct (has_pagination && (5 <=? no_change_count st + 1) && np) eqn:Hp.
    + cbn. split; [discriminate|]. intros [(_ & H & _)|(H & _)]; congruence.
    + destruct (_should_finish_scrolling (no_change_count st + 1)
                                         (Z.of_nat n) total) eqn:Hf.
      * cbn. split; [|done]. intros _. left.
        apply (should_finish_iff _ _ _ Ht Hc) in Hf. done.
      * cbn. assert (~ total <= Z.of_nat n) as Hlt.
        { intros Hle.
          assert (_should_finish_scrolling (no_change_count st + 1)
                                           (Z.of_nat n) total = true)
            by (apply (should_finish_iff _ _ _ Ht Hc); auto).
          congruence. }
        split.
        -- intros Hle%Z.leb_le. done.
        -- intros [(_ & _ & Hcrit)|(H & _)]; [|done].
           apply (should_finish_iff _ _ _ Ht Hc) in Hcrit. congruence.
  - cbn. rewrite Z.leb_le. split.
    + intros Hle. by right.
    + intros [(H & _)|(_ & Hle)]; done.
Qed.



End ScrollFacts.

(** ** Properties of the extraction of rows and of the harvest *)

Module HarvestFacts.

Import Validator Harvest ValidatorFacts.

Lemma get_mk_record_title t ty p st dl dd cb co :
  get (mk_record t ty p st dl dd cb co) "Title" = t.
Proof.
  unfold mk_record, get. rewrite !lookup_insert_ne by done.
  by rewrite lookup_insert_eq.
Qed.

Lemma untitled_numbered_nonempty index : untitled_numbered index <> "".
Proof. unfold untitled_numbered. cbn. discriminate. Qed.

Section Rows.

Variable upper : string -> string.
Variable strip : string -> string.

(** *** The type never repeats the title *)

Lemma type_from_cells_differs row title t :
  type_from_cells strip row title = Some t -> t <> title.
Proof.
  unfold type_from_cells. destruct (cells row) as [|c0 [|c1 rest]]; try done.
  destruct (Str.truthy (strip c1)); cbn; [|done].
  destruct (String.eqb_spec (strip c1) title); cbn; [done|].
  intros [= <-]. done.
Qed.

Lemma type_from_elements_differs elements title t :
  type_from_elements strip elements title = Some t -> t <> title.
Proof.
  induction elements as [|e elements IH]; cbn; [done|].
  destruct (Str.truthy e && Str.truthy (strip e)); cbn; [|exact IH].
  destruct (String.eqb_spec (strip e) title); cbn; [exact IH|].
  intros [= <-]. done.
Qed.

Lemma type_from_ui5_differs values title t :
  type_from_ui5 strip values title = Some t -> t <> title.
Proof.
  induction values as [|[v|] values IH]; cbn; [done| |exact IH].
  destruct (Str.truthy v); cbn; [|exact IH].
  destruct (String.eqb_spec (strip v) title); cbn; [exact IH|].
  intros [= <-]. done.
Qed.

Lemma extract_type_differs row title :
  title <> "" -> _extract_type strip row title <> title.
Proof.
  intros Ht. unfold _extract_type.
  destruct (type_lookup_fails row); [congruence|].
  destruct (type_from_cells strip row title) eqn:E1;
    [by apply (type_from_cells_differs row)|].
  destruct (type_from_elements strip (type_elements row) title) eqn:E2;
    [by apply (type_from_elements_differs (type_elements row))|].
  destruct (type_from_ui5 strip (ui5_type_values row) title) eqn:E3;
    [by apply (type_from_ui5_differs (ui5_type_values row))|].
  congruence.
Qed.

(** *** Titles *)

Lemma heuristic_title_nonempty index row :
  heuristic_title strip index row <> "".
Proof.
  unfold heuristic_title.
  destruct (_extract_title strip row) as [title|];
    [|apply untitled_numbered_nonempty].
  destruct (Str.truthy title) eqn:E; [|apply untitled_numbered_nonempty].
  by apply StrFacts.truthy_true.
Qed.

(** The direct extraction by cells is never reached: the heuristic
    record always carries the heuristic title. *)
Lemma heuristic_get_title index row :
  get (heuristic strip index row) "Title" = heuristic_title strip index row.
Proof.
  unfold heuristic.
  pose proof (extract_type_differs row (heuristic_title strip index row)
                (heuristic_title_nonempty index row)) as Hne.
  apply String.eqb_neq in Hne. rewrite Hne. apply get_mk_record_title.
Qed.

Lemma header_based_title row hm d :
  header_based upper strip row hm = Some d -> get d "Title" <> "".
Proof.
  unfold header_based. destruct (4 <=? length hm)%nat; [|done].
  destruct (_extract_by_headers upper strip row hm) as [d'|]; [|done].
  destruct (Str.truthy (get d' "Title")) eqn:E; [|done].
  intros [= <-]. by apply StrFacts.truthy_true.
Qed.

Lemma extract_row_title_nonempty hm index row :
  get (extract_row upper strip hm index row) "Title" <> "".
Proof.
  unfold extract_row.
  destruct (header_based upper strip row hm) as [d|] eqn:E.
  - by apply (header_based_title row hm).
  - rewrite heuristic_get_title. apply heuristic_title_nonempty.
Qed.

(** The header-based path with no text for the title and an empty first
    cell: the placeholder without number. *)
Lemma header_based_untitled row hm first rest :
  (4 <= length hm)%nat ->
  cells row = first :: rest ->
  Str.truthy first = false ->
  get (read_headers upper strip row hm) "Title" = "" ->
  exists d, header_based upper strip row hm = Some d
            /\ get d "Title" = untitled.
Proof.
  intros Hlen Hcells Hfirst Htitle.
  unfold header_based, _extract_by_headers.
  apply Nat.leb_le in Hlen. rewrite Hlen, Hcells, Htitle, Hfirst. cbn.
  rewrite get_insert_eq. cbn. eexists. split; [reflexivity|].
  apply get_insert_eq.
Qed.

Lemma process_from_lookup hm rows :
  forall start index row,
    rows !! index = Some row ->
    process_from upper strip hm start rows !! index
    = Some (_validate_and_correct_issue_data upper
              (extract_row upper strip hm (start + index) row)).
Proof.
  induction rows as [|r rows IH]; intros start index row Hrow; [done|].
  destruct index as [|index]; cbn [process_from].
  - injection Hrow as ->. by rewrite Nat.add_0_r.
  - rewrite lookup_cons. rewrite lookup_cons in Hrow.
    rewrite (IH (S start) index row Hrow).
    by replace (S start + index) with (start + S index) by lia.
Qed.

Lemma process_from_titles hm rows :
  forall start,
    map (fun d => get d "Title") (process_from upper strip hm start rows)
    = imap (fun index row =>
              get (extract_row upper strip hm (start + index) row) "Title")
           rows.
Proof.
  induction rows as [|r rows IH]; intros start; [done|].
  cbn [process_from map imap]. rewrite validate_get_title, Nat.add_0_r.
  f_equal. rewrite IH. apply imap_ext. intros i x _. cbn [compose].
  by replace (S start + i) with (start + S i) by lia.
Qed.

Lemma process_titles hm page :
  map (fun d => get d "Title")
      (_process_table_rows upper strip (page_rows page) hm)
  = page_titles upper strip hm page.
Proof. unfold _process_table_rows, page_titles. apply process_from_titles. Qed.

Lemma validated_titles (records : list (gmap string string)) :
  map (fun d => get d "Title")
      (map (_validate_and_correct_issue_data upper) records)
  = map (fun d => get d "Title") records.
Proof.
  rewrite map_map. apply map_ext. intros d. apply validate_get_title.
Qed.

End Rows.

(** *** The claims on the extraction of rows *)

(** A row whose four cells carry no text, as a virtualized table shows
    while it loads, under a header map of four columns. *)
Definition blank_row : Row :=
  {| cells := [""; ""; ""; ""];
     title_probes := [None; None; None; None; None; None; None; None];
     row_text := Some "";
     type_elements := []; ui5_type_values := []; type_lookup_fails := false;
     priority_found := ""; status_found := ""; deadline_found := "";
     due_date_found := ""; created_by_found := ""; created_on_found := "" |}.

Definition four_headers : list (string * nat) :=
  [("TITLE", 0); ("TYPE", 1); ("PRIORITY", 2); ("STATUS", 3)].

(** C5, a defect of the code: no title can be extracted for
    [blank_row], the first row of its page.  On the heuristic path of
    [_process_table_rows] (no header map) its record gets the numbered
    placeholder "Issue sin título #1"; on the header-based path of the
    same function (under [four_headers]) it gets "Issue sin título"
    without the number, because [_extract_by_headers] does not receive
    the position of the row. *)
Theorem header_path_placeholder_unnumbered :
  _extract_title Str.ascii_strip blank_row = None
  /\ map fields_of
         (_process_table_rows Str.ascii_upper Str.ascii_strip [blank_row]
                              four_headers)
     = [["Issue sin título"; ""; ""; ""; ""; ""; ""; ""]]
  /\ map fields_of
         (_process_table_rows Str.ascii_upper Str.ascii_strip [blank_row] [])
     = [["Issue sin título #1"; ""; ""; ""; ""; ""; ""; ""]]
  /\ untitled_numbered 0 = "Issue sin título #1"
  /\ map (fun d => get d "Title")
         (_process_table_rows Str.ascii_upper Str.ascii_strip [blank_row]
                              four_headers)
     <> [untitled_numbered 0].
Proof.
  split; [vm_compute; reflexivity|].
  split; [vm_compute; reflexivity|].
  split; [vm_compute; reflexivity|].
  split; [vm_compute; reflexivity|].
  assert (map (fun d => get d "Title")
              (_process_table_rows Str.ascii_upper Str.ascii_strip [blank_row]
                                   four_headers)
          = ["Issue sin título"]) as -> by (vm_compute; reflexivity).
  vm_compute. discriminate.
Qed.

(** The titles of the processed rows on each path: the record of every
    row has a non-empty Title.  When the header-based path does not give
    the record and [_extract_title] finds no title, the Title is "Issue
    sin título #N" for the row at position N, counted from 1.  When the
    header-based path gives the record, the Title is the one of that
    path; with no text for the title column and an empty first cell it
    is the placeholder without a number. *)
Lemma processed_title_paths
      (upper strip : string -> string) (rows : list Row)
      (hm : list (string * nat)) (index : nat) (row : Row) :
  rows !! index = Some row ->
  exists r,
    _process_table_rows upper strip rows hm !! index = Some r
    /\ get r "Title" <> ""
    /\ (header_based upper strip row hm = None ->
        _extract_title strip row = None \/ _extract_title strip row = Some "" ->
        get r "Title" = untitled_numbered index)
    /\ (forall d, header_based upper strip row hm = Some d ->
                  get r "Title" = get d "Title")
    /\ (forall first rest,
           (4 <= length hm)%nat ->
           cells row = first :: rest ->
           Str.truthy first = false ->
           get (read_headers upper strip row hm) "Title" = "" ->
           get r "Title" = untitled).
Proof.
  intros Hrow. eexists. split.
  { unfold _process_table_rows.
    rewrite (process_from_lookup upper strip hm rows 0 index row Hrow).
    reflexivity. }
  cbn [Nat.add]. rewrite validate_get_title.
  split; [apply extract_row_title_nonempty|].
  split; [|split].
  - intros Hh Ht. unfold extract_row. rewrite Hh, heuristic_get_title.
    unfold heuristic_title. by destruct Ht as [-> | ->].
  - intros d Hd. unfold extract_row. by rewrite Hd.
  - intros first rest Hlen Hcells Hfirst Htitle.
    destruct (header_based_untitled upper strip row hm first rest
                Hlen Hcells Hfirst Htitle) as (d & Hd & Hu).
    unfold extract_row. by rewrite Hd.
Qed.

(** A row without cells whose only text is a title. *)
Definition plain_row (title status : string) : Row :=
  {| cells := []; title_probes := [Some title]; row_text := Some title;
     type_elements := []; ui5_type_values := []; type_lookup_fails := false;
     priority_found := ""; status_found := status; deadline_found := "";
     due_date_found := ""; created_by_found := ""; created_on_found := "" |}.

(** *** The claims on the harvest *)

(** Two pages, the same title twice on the first and once more, in
    capitals, on the second. *)
Definition repeated_titles : Site :=
  {| header_map := [];
     site_pagination := true;
     pages :=
       [ {| page_rows := [plain_row "Login fails" "OPEN";
                          plain_row "Login fails" "DONE"];
            next_clicked := true; pagination_after := true |};
         {| page_rows := [plain_row "LOGIN FAILS" "OPEN"];
            next_clicked := false; pagination_after := false |} ] |}.

(** C1, as stated, fails: the harvest of [repeated_titles] returns three
    records whose titles are equal without regard to case. *)
Lemma harvest_keeps_repeated_titles :
  map (fun d => get d "Title")
      (extract_issues_data Str.ascii_upper Str.ascii_strip repeated_titles)
  = ["Login fails"; "Login fails"; "LOGIN FAILS"]
  /\ ~ spec_deduplicated
        (extract_issues_data Str.ascii_upper Str.ascii_strip repeated_titles).
Proof.
  split; [vm_compute; reflexivity|].
  unfold spec_deduplicated.
  assert (map (fun d => Str.ascii_upper (get d "Title"))
              (extract_issues_data Str.ascii_upper Str.ascii_strip
                                   repeated_titles)
          = ["LOGIN FAILS"; "LOGIN FAILS"; "LOGIN FAILS"]) as ->
      by (vm_compute; reflexivity).
  intros [Hnotin _]%NoDup_cons. apply Hnotin. apply list_elem_of_here.
Qed.

Section Pages.

Variable upper : string -> string.
Variable strip : string -> string.

Lemma process_from_imap hm rows :
  forall start,
    process_from upper strip hm start rows
    = imap (fun index row =>
              _validate_and_correct_issue_data upper
                (extract_row upper strip hm (start + index) row))
           rows.
Proof.
  induction rows as [|r rows IH]; intros start; [done|].
  cbn [process_from imap]. rewrite Nat.add_0_r. f_equal.
  rewrite IH. apply imap_ext. intros i x _. cbn [compose].
  by replace (S start + i) with (start + S i) by lia.
Qed.

Lemma process_length hm rows :
  length (_process_table_rows upper strip rows hm) = length rows.
Proof.
  unfold _process_table_rows. by rewrite process_from_imap, length_imap.
Qed.

Lemma map_imap {A B C} (g : B -> C) (f : nat -> A -> B) (l : list A) :
  map g (imap f l) = imap (fun i x => g (f i x)) l.
Proof.
  revert f. induction l as [|x l IH]; intros f; [done|].
  cbn [imap map]. f_equal. by rewrite IH.
Qed.

Lemma corrected_page_records hm page :
  map (_validate_and_correct_issue_data upper)
      (_process_table_rows upper strip (page_rows page) hm)
  = page_records upper strip hm page.
Proof.
  unfold _process_table_rows, page_records.
  rewrite process_from_imap. cbn [Nat.add]. apply map_imap.
Qed.

Lemma page_records_titles hm page :
  map (fun d => get d "Title") (page_records upper strip hm page)
  = page_titles upper strip hm page.
Proof.
  rewrite <- corrected_page_records, validated_titles. apply process_titles.
Qed.

Lemma page_records_length hm page :
  length (page_records upper strip hm page) = length (page_rows page).
Proof. unfold page_records. apply length_imap. Qed.

(** The loop over the pages returns the records of the pages it
    visits, all of them, and the pagination alone decides how many pages
    these are. *)
Lemma harvest_pages_records hm has_pagination fuel :
  forall pagination_elements pages,
    harvest_pages upper strip hm has_pagination fuel pagination_elements pages
    = concat (map (page_records upper strip hm)
                  (take (pages_visited has_pagination fuel pagination_elements
                                       pages)
                        pages)).
Proof.
  induction fuel as [|fuel IH]; intros pe pages; [by destruct pages|].
  destruct pages as [|page rest]; [done|].
  cbn [harvest_pages pages_visited].
  pose proof (process_length hm (page_rows page)) as Hlen.
  destruct (page_rows page) as [|r rows] eqn:Hrows; [done|].
  rewrite <- Hrows in *. rewrite corrected_page_records.
  assert ((length (_process_table_rows upper strip (page_rows page) hm)
           =? 0)%nat = false) as ->.
  { apply Nat.eqb_neq. rewrite Hlen, Hrows. cbn. lia. }
  rewrite orb_false_r.
  assert (forall k, concat (map (page_records upper strip hm)
                               (take (S k) (page :: rest)))
                    = (page_records upper strip hm page
                       ++ concat (map (page_records upper strip hm)
                                      (take k rest)))%list) as Hstep by done.
  rewrite Hstep.
  destruct has_pagination; cbn [negb andb]; [|by rewrite take_0].
  destruct pe; cbn [andb]; [|by rewrite take_0].
  destruct (next_clicked page); cbn [negb]; [|by rewrite take_0].
  by rewrite IH.
Qed.

Lemma pages_visited_bound has_pagination fuel :
  forall pagination_elements pages,
    pages_visited has_pagination fuel pagination_elements pages <= fuel
    /\ pages_visited has_pagination fuel pagination_elements pages
       <= length pages.
Proof.
  induction fuel as [|fuel IH]; intros pe pages; [cbn; lia|].
  destruct pages as [|page rest]; [cbn; lia|].
  cbn [pages_visited length]. destruct (page_rows page); [lia|].
  destruct (has_pagination && pe && next_clicked page); [|lia].
  destruct (IH (pagination_after page) rest). lia.
Qed.

End Pages.

(** C1, amended: the harvest removes no record.  The pagination alone
    decides which pages are visited: the first page when its row query
    finds rows, and after a visited page the next one when the table
    has pagination, the controls are present, the click on "next"
    succeeds and the next page shows rows, up to 20 pages.  The result
    is, in order, one validated record for every row of every visited
    page, each with the Title that extraction gave to the row; rows
    with equal titles give as many records. *)
Theorem harvest_returns_every_row
        (upper strip : string -> string) (site : Site) :
  let visited :=
    pages_visited (site_pagination site) 20 (site_pagination site)
                  (pages site) in
  let result := extract_issues_data upper strip site in
  result
  = concat (map (page_records upper strip (header_map site))
                (take visited (pages site)))
  /\ map (fun d => get d "Title") result
     = concat (map (page_titles upper strip (header_map site))
                   (take visited (pages site)))
  /\ length result
     = list_sum (map (fun page => length (page_rows page))
                     (take visited (pages site)))
  /\ visited <= 20
  /\ visited <= length (pages site)
  /\ (forall page rest,
         pages site = page :: rest ->
         (page_rows page = [] -> visited = 0)
         /\ (page_rows page <> [] ->
             1 <= visited
             /\ (2 <= visited
                 <-> site_pagination site = true
                     /\ next_clicked page = true
                     /\ exists next rest',
                         rest = next :: rest' /\ page_rows next <> []))).
Proof.
  cbn zeta. unfold extract_issues_data, max_pages.
  rewrite (harvest_pages_records upper strip (header_map site)
             (site_pagination site) 20 (site_pagination site) (pages site)).
  set (visited := pages_visited (site_pagination site) 20
                                (site_pagination site) (pages site)).
  split; [reflexivity|]. split; [|split; [|split; [|split]]].
  - generalize (take visited (pages site)) as ps.
    induction ps as [|p ps IH]; [done|].
    cbn [map concat]. by rewrite map_app, page_records_titles, IH.
  - generalize (take visited (pages site)) as ps.
    induction ps as [|p ps IH]; [done|].
    cbn [map concat list_sum]. by rewrite length_app, page_records_length, IH.
  - apply pages_visited_bound.
  - apply pages_visited_bound.
  - intros page rest Hpages. subst visited. rewrite Hpages.
    cbn [pages_visited]. split.
    + by intros ->.
    + intros Hne. destruct (page_rows page) as [|r rows]; [done|].
      split; [lia|].
      destruct (site_pagination site); cbn [andb].
      * destruct (next_clicked page).
        -- destruct rest as [|next rest'].
           ++ cbn. split; [lia|]. intros (_ & _ & next & rest' & H & _).
              discriminate H.
           ++ cbn [pages_visited].
              destruct (page_rows next) as [|r' rows'] eqn:Hnext.
              ** split; [lia|].
                 intros (_ & _ & next' & rest'' & [= <- <-] & H).
                 by rewrite Hnext in H.
              ** split; [|lia]. intros _. split; [done|]. split; [done|].
                 exists next, rest'. split; [done|]. by rewrite Hnext.
        -- split; [lia|]. intros (_ & H & _). discriminate H.
      * split; [lia|]. intros (H & _). discriminate H.
Qed.

End HarvestFacts.

(** ** Further properties of the validator *)

Module ValidatorMore.

Import Validator ValidatorFacts.

(** *** Keys *)

Lemma get_origin (d : gmap string string) k :
  get d k = "" \/ exists k', d !! k' = Some (get d k).
Proof. unfold get. destruct (d !! k) eqn:E; cbn; eauto. Qed.

Lemma insert_keeps_key (d : gmap string string) k v j :
  is_Some (d !! j) -> is_Some (<[k := v]> d !! j).
Proof.
  intros H. destruct (decide (k = j)) as [->|Hne].
  - rewrite lookup_insert_eq. eauto.
  - by rewrite lookup_insert_ne.
Qed.

Section Keys.
Variable upper : string -> string.

Lemma swap_with_first_keeps_key keywords target fields (d : gmap string string) j :
  is_Some (d !! j) ->
  is_Some (swap_with_first upper keywords target fields d !! j).
Proof.
  intros H. induction fields as [|f fields IH]; cbn; [done|].
  destruct (has_key d f && Str.truthy (get d f)); [|done].
  destruct (looks_like upper keywords (get d f)); [|done].
  unfold swap. by do 2 apply insert_keeps_key.
Qed.

Lemma move_created_by_keeps_key fields (d : gmap string string) j :
  is_Some (d !! j) -> is_Some (move_created_by fields d !! j).
Proof.
  intros H. induction fields as [|f fields IH]; cbn; [done|].
  destruct (has_key d f && negb (Str.truthy (get d f))); [|done].
  by do 2 apply insert_keeps_key.
Qed.

Lemma check_date_field_keeps_key (d : gmap string string) f j :
  is_Some (d !! j) -> is_Some (check_date_field upper d f !! j).
Proof.
  intros H. unfold check_date_field.
  destruct (_ && _); [|done]. destruct (negb _); [|done].
  by apply swap_with_first_keeps_key.
Qed.

Lemma repairs_keep_key (d : gmap string string) j :
  is_Some (d !! j) ->
  is_Some (check_shift
             (check_created_by upper
                (check_dates upper
                   (check_priority upper
                      (check_status upper (clear_duplicate_type d))))) !! j).
Proof.
  intros H.
  assert (is_Some (clear_duplicate_type d !! j)) as H1.
  { unfold clear_duplicate_type. destruct (String.eqb _ _); [|done].
    by apply insert_keeps_key. }
  set (d1 := clear_duplicate_type d) in *.
  assert (is_Some (check_status upper d1 !! j)) as H2.
  { unfold check_status. destruct (Str.truthy _); [|done].
    destruct (negb _); [|done]. by apply swap_with_first_keeps_key. }
  set (d2 := check_status upper d1) in *.
  assert (is_Some (check_priority upper d2 !! j)) as H3.
  { unfold check_priority. destruct (Str.truthy _); [|done].
    destruct (negb _); [|done]. by apply swap_with_first_keeps_key. }
  set (d3 := check_priority upper d2) in *.
  assert (is_Some (check_dates upper d3 !! j)) as H4.
  { unfold check_dates, date_fields. cbn [fold_left].
    by do 3 apply check_date_field_keeps_key. }
  set (d4 := check_dates upper d3) in *.
  assert (is_Some (check_created_by upper d4 !! j)) as H5.
  { unfold check_created_by. destruct (Str.truthy _); [|done].
    destruct (looks_like _ _ _); [|done]. by apply move_created_by_keeps_key. }
  set (d5 := check_created_by upper d4) in *.
  unfold check_shift. destruct (_ && _); [|done].
  unfold rotate_left. by do 7 apply insert_keeps_key.
Qed.

Lemma validate_has_key (d : gmap string string) (k : string) :
  is_Some (_validate_and_correct_issue_data upper d !! k)
  <-> is_Some (d !! k) \/ k ∈ required_fields.
Proof.
  split.
  - intros H. destruct (decide (k ∈ required_fields)) as [Hin|Hout]; [by right|].
    left. rewrite validate_frame, fill_required_lookup in H.
    + destruct (d !! k); [eauto|]. rewrite bool_decide_eq_false_2 in H by done.
      by destruct H.
    + intros Hc. apply Hout. unfold corrected_fields in Hc.
      unfold required_fields. by apply list_elem_of_further.
  - intros H. unfold _validate_and_correct_issue_data.
    apply repairs_keep_key. rewrite fill_required_lookup.
    destruct (d !! k); [eauto|]. destruct H as [[? ?]|Hin]; [done|].
    rewrite bool_decide_eq_true_2; eauto.
Qed.

(** The keys of the result are the keys of the argument and the eight
    required fields: a missing field is added, no key is removed and no
    other key appears. *)
Theorem validate_keys (d : gmap string string) (k : string) :
  is_Some (_validate_and_correct_issue_data upper d !! k)
  <-> is_Some (d !! k) \/ k ∈ required_fields.
Proof. apply validate_has_key. Qed.

(** A key that is none of the eight required fields keeps its value. *)
Theorem validate_other_keys (d : gmap string string) (k : string) :
  k ∉ required_fields ->
  _validate_and_correct_issue_data upper d !! k = d !! k.
Proof.
  intros Hout. rewrite validate_frame, fill_required_lookup.
  - destruct (d !! k); [done|]. by rewrite bool_decide_eq_false_2.
  - intros Hc. apply Hout. unfold corrected_fields in Hc.
    unfold required_fields. by apply list_elem_of_further.
Qed.

End Keys.

Lemma validate_other_keys_witness :
  _validate_and_correct_issue_data Str.ascii_upper
    (<["Comments" := "keep me"]> misplaced_status) !! "Comments"
  = Some "keep me".
Proof.
  rewrite (validate_other_keys Str.ascii_upper
             (<["Comments" := "keep me"]> misplaced_status) "Comments").
  - apply lookup_insert_eq.
  - unfold required_fields. intros H.
    repeat (apply elem_of_cons in H as [H|H]; [discriminate H|]).
    by apply elem_of_nil in H.
Defined.

(** *** Where the values of the result come from *)

(** Every value of [d'] is empty or a value of [d]. *)
Definition drawn_from (d d' : gmap string string) : Prop :=
  forall k v, d' !! k = Some v -> v = "" \/ exists k', d !! k' = Some v.

Lemma drawn_from_refl (d : gmap string string) : drawn_from d d.
Proof. intros k v H. eauto. Qed.

Lemma drawn_from_trans (d1 d2 d3 : gmap string string) :
  drawn_from d1 d2 -> drawn_from d2 d3 -> drawn_from d1 d3.
Proof.
  intros H12 H23 k v H. destruct (H23 k v H) as [->|[k' Hk']]; [by left|].
  by apply (H12 k').
Qed.

Lemma drawn_from_insert (d0 d : gmap string string) k v :
  drawn_from d0 d -> (v = "" \/ exists k', d0 !! k' = Some v) ->
  drawn_from d0 (<[k := v]> d).
Proof.
  intros Hd Hv j w. destruct (decide (k = j)) as [->|Hne].
  - rewrite lookup_insert_eq. by intros [= <-].
  - rewrite lookup_insert_ne by done. apply Hd.
Qed.

(** [d[k] = d[k']] and [d[k] = ""]. *)
Lemma drawn_from_copy (d : gmap string string) k k' :
  drawn_from d (<[k := get d k']> d).
Proof. apply drawn_from_insert; [apply drawn_from_refl | apply get_origin]. Qed.

Lemma drawn_from_clear (d : gmap string string) k :
  drawn_from d (<[k := ""]> d).
Proof. apply drawn_from_insert; [apply drawn_from_refl | by left]. Qed.

Lemma drawn_from_fill (d : gmap string string) :
  drawn_from d (fill_required d).
Proof.
  intros k v. rewrite fill_required_lookup.
  destruct (d !! k) eqn:E.
  - intros [= <-]. eauto.
  - destruct (bool_decide _); [|done]. intros [= <-]. by left.
Qed.

Lemma drawn_from_swap (d : gmap string string) a b :
  drawn_from d (swap d a b).
Proof.
  unfold swap. apply drawn_from_insert; [|apply get_origin].
  apply drawn_from_copy.
Qed.

Section Origin.
Variable upper : string -> string.

Lemma drawn_from_swap_with_first keywords target fields (d : gmap string string) :
  drawn_from d (swap_with_first upper keywords target fields d).
Proof.
  induction fields as [|f fields IH]; cbn; [apply drawn_from_refl|].
  destruct (has_key d f && Str.truthy (get d f)); [|done].
  destruct (looks_like upper keywords (get d f)); [|done].
  apply drawn_from_swap.
Qed.

Lemma drawn_from_move_created_by fields (d : gmap string string) :
  drawn_from d (move_created_by fields d).
Proof.
  induction fields as [|f fields IH]; cbn; [apply drawn_from_refl|].
  destruct (has_key d f && negb (Str.truthy (get d f))); [|done].
  apply drawn_from_insert; [apply drawn_from_copy | by left].
Qed.

Lemma drawn_from_check_date_field (d : gmap string string) f :
  drawn_from d (check_date_field upper d f).
Proof.
  unfold check_date_field.
  destruct (_ && _); [|apply drawn_from_refl].
  destruct (negb _); [|apply drawn_from_refl].
  apply drawn_from_swap_with_first.
Qed.

Lemma drawn_from_rotate_left (d : gmap string string) :
  drawn_from d (rotate_left d).
Proof.
  unfold rotate_left. cbn zeta.
  repeat (eapply drawn_from_trans;
          [|first [apply drawn_from_copy | apply drawn_from_clear]]).
  apply drawn_from_refl.
Qed.

(** The validator invents nothing: every value of the result is the
    empty string or the value of some key of the argument. *)
Theorem validate_values_drawn_from_input (d : gmap string string) :
  drawn_from d (_validate_and_correct_issue_data upper d).
Proof.
  unfold _validate_and_correct_issue_data.
  eapply drawn_from_trans; [|
    unfold check_shift; destruct (_ && _);
    [apply drawn_from_rotate_left | apply drawn_from_refl]].
  eapply drawn_from_trans; [|
    unfold check_created_by; destruct (Str.truthy _);
    [destruct (looks_like _ _ _);
     [apply drawn_from_move_created_by | apply drawn_from_refl]
    | apply drawn_from_refl]].
  eapply drawn_from_trans; [|
    unfold check_dates, date_fields; cbn [fold_left];
    eapply drawn_from_trans; [|apply drawn_from_check_date_field];
    eapply drawn_from_trans; [|apply drawn_from_check_date_field];
    apply drawn_from_check_date_field].
  eapply drawn_from_trans; [|
    unfold check_priority; destruct (Str.truthy _);
    [destruct (negb _);
     [apply drawn_from_swap_with_first | apply drawn_from_refl]
    | apply drawn_from_refl]].
  eapply drawn_from_trans; [|
    unfold check_status; destruct (Str.truthy _);
    [destruct (negb _);
     [apply drawn_from_swap_with_first | apply drawn_from_refl]
    | apply drawn_from_refl]].
  eapply drawn_from_trans; [apply drawn_from_fill|].
  unfold clear_duplicate_type. destruct (String.eqb _ _);
    [apply drawn_from_clear | apply drawn_from_refl].
Qed.

(** *** Records without any signal *)

(** A record that has its eight fields, is well shaped and whose Type
    differs from its Title is returned as it is. *)
Theorem validate_fixed_point (d : gmap string string) :
  complete d -> well_shaped upper d = true ->
  get d "Type" <> get d "Title" ->
  _validate_and_correct_issue_data upper d = d.
Proof.
  intros Hc Hw Hne. unfold _validate_and_correct_issue_data.
  rewrite (fill_required_complete d Hc).
  rewrite (clear_duplicate_type_id d Hne).
  by apply repairs_id.
Qed.

End Origin.

Definition tidy_record : gmap string string :=
  mk_record "Fix login bug" "Task" "High" "OPEN" "10 Jan 2025" "" "I012345"
            "02 Dec 2024".

Lemma tidy_record_complete : complete tidy_record.
Proof.
  intros f Hf. unfold required_fields in Hf.
  repeat (apply elem_of_cons in Hf as [->|Hf]; [vm_compute; eauto|]).
  by apply elem_of_nil in Hf.
Qed.

Lemma validate_fixed_point_witness :
  _validate_and_correct_issue_data Str.ascii_upper tidy_record = tidy_record.
Proof.
  apply (validate_fixed_point Str.ascii_upper tidy_record).
  - apply tidy_record_complete.
  - vm_compute. reflexivity.
  - vm_compute. discriminate.
Defined.

(** *** Repairs *)

Lemma get_swap_left (d : gmap string string) a b :
  a <> b -> get (swap d a b) a = get d b.
Proof.
  intros Hne. unfold swap.
  rewrite get_insert_ne by done. apply get_insert_eq.
Qed.

Lemma get_swap_right (d : gmap string string) a b :
  get (swap d a b) b = get d a.
Proof. unfold swap. apply get_insert_eq. Qed.

Lemma get_swap_other (d : gmap string string) a b k :
  k <> a -> k <> b -> get (swap d a b) k = get d k.
Proof. intros Ha Hb. unfold swap. by rewrite !get_insert_ne. Qed.

Lemma has_key_required (d : gmap string string) k :
  complete d -> k ∈ required_fields -> has_key d k = true.
Proof. intros Hc Hk. apply has_key_true. by apply Hc. Qed.

Lemma clear_duplicate_type_complete (d : gmap string string) :
  complete d -> complete (clear_duplicate_type d).
Proof.
  intros Hc. unfold clear_duplicate_type. destruct (String.eqb _ _); [|done].
  by apply complete_insert.
Qed.

Lemma clear_duplicate_type_get (d : gmap string string) k :
  k <> "Type" -> get (clear_duplicate_type d) k = get d k.
Proof.
  intros Hk. unfold clear_duplicate_type. destruct (String.eqb _ _); [|done].
  by rewrite get_insert_ne.
Qed.

Section Repairs.
Variable upper : string -> string.

Lemma check_created_by_get (d : gmap string string) k :
  k <> "Created By" -> k ∉ date_fields ->
  get (check_created_by upper d) k = get d k.
Proof.
  intros Hcb Hk. unfold check_created_by.
  destruct (Str.truthy _); [|done]. destruct (looks_like _ _ _); [|done].
  unfold get. by rewrite move_created_by_frame.
Qed.

Ltac required :=
  unfold required_fields;
  repeat first [ by apply list_elem_of_here | apply list_elem_of_further ].

Ltac not_a_date :=
  unfold date_fields;
  repeat (apply not_elem_of_cons; split; [done|]); apply not_elem_of_nil.

(** Steps 2 to 6 on a record whose Status and Priority are exchanged. *)
Lemma repairs_exchanged (e : gmap string string) :
  complete e ->
  Str.truthy (get e "Status") = true ->
  looks_like upper status_keywords (get e "Status") = false ->
  looks_like upper priority_keywords (get e "Status") = true ->
  Str.truthy (get e "Priority") = true ->
  looks_like upper status_keywords (get e "Priority") = true ->
  empty_or upper date_keywords (get e "Deadline") = true ->
  empty_or upper date_keywords (get e "Due Date") = true ->
  empty_or upper date_keywords (get e "Created On") = true ->
  let r :=
    check_shift
      (check_created_by upper
         (check_dates upper (check_priority upper (check_status upper e)))) in
  get r "Status" = get e "Priority" /\ get r "Priority" = get e "Status".
Proof.
  intros Hc Hs Hss Hsp Hp Hps Hd1 Hd2 Hd3.
  assert (check_status upper e = swap e "Status" "Priority") as E1.
  { unfold check_status. rewrite Hs, Hss. cbn [negb swap_with_first].
    rewrite (has_key_required e "Priority" Hc) by required.
    by rewrite Hp, Hps. }
  set (e1 := swap e "Status" "Priority") in *.
  assert (get e1 "Status" = get e "Priority") as G1
      by (by apply get_swap_left).
  assert (get e1 "Priority" = get e "Status") as G2
      by apply get_swap_right.
  assert (check_priority upper e1 = e1) as E2.
  { apply check_priority_id. unfold empty_or. rewrite G2, Hsp.
    apply orb_true_r. }
  assert (check_dates upper e1 = e1) as E3.
  { unfold check_dates, date_fields. cbn [fold_left].
    rewrite (check_date_field_id upper e1 "Deadline")
      by (subst e1; by rewrite get_swap_other).
    rewrite (check_date_field_id upper e1 "Due Date")
      by (subst e1; by rewrite get_swap_other).
    by rewrite (check_date_field_id upper e1 "Created On")
      by (subst e1; by rewrite get_swap_other). }
  cbn zeta. rewrite E1, E2, E3.
  set (e2 := check_created_by upper e1).
  assert (get e2 "Status" = get e "Priority") as G3.
  { subst e2. rewrite check_created_by_get; [done|done|not_a_date]. }
  assert (get e2 "Priority" = get e "Status") as G4.
  { subst e2. rewrite check_created_by_get; [done|done|not_a_date]. }
  assert (check_shift e2 = e2) as E4.
  { unfold check_shift. rewrite G3, G4.
    assert (get e "Priority" <> get e "Status") as Hne
        by (intros Heq; rewrite Heq in Hps; congruence).
    apply String.eqb_neq in Hne. rewrite Hne. by rewrite andb_false_r. }
  by rewrite E4.
Qed.

(** A record whose Status and Priority are exchanged gets them back in
    place: when Status holds a priority word and no status word, Priority
    holds a status word, and the date fields are empty or dates, the
    result has the old Priority as Status and the old Status as
    Priority. *)
Theorem validate_exchanges_status_and_priority (d : gmap string string) :
  Str.truthy (get d "Status") = true ->
  looks_like upper status_keywords (get d "Status") = false ->
  looks_like upper priority_keywords (get d "Status") = true ->
  Str.truthy (get d "Priority") = true ->
  looks_like upper status_keywords (get d "Priority") = true ->
  empty_or upper date_keywords (get d "Deadline") = true ->
  empty_or upper date_keywords (get d "Due Date") = true ->
  empty_or upper date_keywords (get d "Created On") = true ->
  get (_validate_and_correct_issue_data upper d) "Status" = get d "Priority"
  /\ get (_validate_and_correct_issue_data upper d) "Priority"
     = get d "Status".
Proof.
  intros Hs Hss Hsp Hp Hps Hd1 Hd2 Hd3.
  unfold _validate_and_correct_issue_data.
  set (e := clear_duplicate_type (fill_required d)).
  assert (forall k, k <> "Type" -> get e k = get d k) as Hget.
  { intros k Hk. subst e. rewrite clear_duplicate_type_get by done.
    apply fill_required_get. }
  rewrite <- (Hget "Status"), <- (Hget "Priority") by done.
  apply repairs_exchanged; rewrite ?Hget by done; try done.
  subst e. apply clear_duplicate_type_complete, fill_required_present.
Qed.

(** Steps 2 to 6 on a record whose Created By holds a date while Deadline
    is empty. *)
Lemma repairs_created_by (e : gmap string string) :
  complete e ->
  get e "Type" <> get e "Title" ->
  empty_or upper status_keywords (get e "Status") = true ->
  empty_or upper priority_keywords (get e "Priority") = true ->
  get e "Deadline" = "" ->
  empty_or upper date_keywords (get e "Due Date") = true ->
  empty_or upper date_keywords (get e "Created On") = true ->
  Str.truthy (get e "Created By") = true ->
  looks_like upper date_keywords (get e "Created By") = true ->
  check_shift
    (check_created_by upper
       (check_dates upper (check_priority upper (check_status upper e))))
  = <["Created By" := ""]> (<["Deadline" := get e "Created By"]> e).
Proof.
  intros Hc Hne Hs Hp Hd1 Hd2 Hd3 Hcb Hcbd.
  rewrite check_status_id, check_priority_id by done.
  unfold check_dates, date_fields. cbn [fold_left].
  rewrite (check_date_field_id upper e "Deadline")
    by (unfold empty_or; by rewrite Hd1).
  rewrite (check_date_field_id upper e "Due Date") by done.
  rewrite (check_date_field_id upper e "Created On") by done.
  unfold check_created_by. rewrite Hcb, Hcbd.
  unfold date_fields. cbn [move_created_by].
  rewrite (has_key_required e "Deadline" Hc) by required.
  rewrite Hd1. cbn [Str.truthy negb andb].
  apply check_shift_id. by rewrite !get_insert_ne.
Qed.

(** A date found in Created By moves to Deadline when Deadline is empty:
    for a record with a non-empty Title whose Status, Priority, Due Date
    and Created On are empty or of their shape, the result has the old
    Created By as Deadline and an empty Created By. *)
Theorem validate_moves_date_out_of_created_by (d : gmap string string) :
  Str.truthy (get d "Title") = true ->
  empty_or upper status_keywords (get d "Status") = true ->
  empty_or upper priority_keywords (get d "Priority") = true ->
  get d "Deadline" = "" ->
  empty_or upper date_keywords (get d "Due Date") = true ->
  empty_or upper date_keywords (get d "Created On") = true ->
  Str.truthy (get d "Created By") = true ->
  looks_like upper date_keywords (get d "Created By") = true ->
  get (_validate_and_correct_issue_data upper d) "Deadline"
  = get d "Created By"
  /\ get (_validate_and_correct_issue_data upper d) "Created By" = "".
Proof.
  intros Ht Hs Hp Hd1 Hd2 Hd3 Hcb Hcbd.
  unfold _validate_and_correct_issue_data.
  set (e := clear_duplicate_type (fill_required d)).
  assert (forall k, k <> "Type" -> get e k = get d k) as Hget.
  { intros k Hk. subst e. rewrite clear_duplicate_type_get by done.
    apply fill_required_get. }
  assert (get e "Type" <> get e "Title") as Hne.
  { subst e. unfold clear_duplicate_type.
    destruct (String.eqb _ _) eqn:E.
    - rewrite get_insert_eq, get_insert_ne by done.
      rewrite fill_required_get. intros Heq. rewrite <- Heq in Ht.
      discriminate Ht.
    - by apply String.eqb_neq. }
  rewrite repairs_created_by; rewrite ?Hget by done; try done.
  - rewrite get_insert_ne by done. rewrite get_insert_eq.
    split; [done | apply get_insert_eq].
  - subst e. apply clear_duplicate_type_complete, fill_required_present.
Qed.

End Repairs.

Definition exchanged_record : gmap string string :=
  mk_record "Fix login bug" "Task" "OPEN" "High" "" "" "I012345" "".

Lemma validate_exchanges_status_and_priority_witness :
  get (_validate_and_correct_issue_data Str.ascii_upper exchanged_record)
      "Status" = get exchanged_record "Priority"
  /\ get (_validate_and_correct_issue_data Str.ascii_upper exchanged_record)
         "Priority" = get exchanged_record "Status".
Proof.
  apply (validate_exchanges_status_and_priority Str.ascii_upper
           exchanged_record); vm_compute; reflexivity.
Defined.

Definition dated_creator : gmap string string :=
  mk_record "Fix login bug" "Task" "High" "OPEN" "" "" "10 Jan 2025" "".

Lemma validate_moves_date_out_of_created_by_witness :
  get (_validate_and_correct_issue_data Str.ascii_upper dated_creator)
      "Deadline" = get dated_creator "Created By"
  /\ get (_validate_and_correct_issue_data Str.ascii_upper dated_creator)
         "Created By" = "".
Proof.
  apply (validate_moves_date_out_of_created_by Str.ascii_upper dated_creator);
    vm_compute; reflexivity.
Defined.

(** A complete, well-shaped record whose Type repeats the Title: the
    only change is that Type becomes empty. *)
Theorem validate_only_clears_type
        (upper : string -> string) (d : gmap string string) :
  complete d -> well_shaped upper d = true ->
  get d "Type" = get d "Title" ->
  _validate_and_correct_issue_data upper d = <["Type" := ""]> d.
Proof.
  intros Hc Hw Heq.
  destruct (validate_well_shaped upper d Hw) as (-> & _).
  rewrite (fill_required_complete d Hc). unfold clear_duplicate_type.
  apply String.eqb_eq in Heq. by rewrite Heq.
Qed.

Lemma login_bug_complete : complete login_bug.
Proof.
  intros f Hf. unfold required_fields in Hf.
  repeat (apply elem_of_cons in Hf as [->|Hf]; [vm_compute; eauto|]).
  by apply elem_of_nil in Hf.
Qed.

Lemma validate_only_clears_type_witness :
  _validate_and_correct_issue_data Str.ascii_upper login_bug
  = <["Type" := ""]> login_bug.
Proof.
  apply (validate_only_clears_type Str.ascii_upper login_bug).
  - apply login_bug_complete.
  - vm_compute. reflexivity.
  - vm_compute. reflexivity.
Defined.

End ValidatorMore.

(** ** Further properties of the normalizers *)

Module NormalizeMore.

Import Status Priority.

Section StatusMore.
Variable upper : string -> string.
Hypothesis upper_vocabulary : forall v, v ∈ closed_vocabulary -> upper v = v.

Ltac word :=
  unfold closed_vocabulary;
  repeat first [ by apply list_elem_of_here | apply list_elem_of_further ].

Lemma normalize_status_word (v : string) :
  v ∈ closed_vocabulary -> _normalize_status upper (Some v) = v.
Proof.
  intros Hv. unfold _normalize_status. rewrite (upper_vocabulary v Hv).
  unfold closed_vocabulary in Hv.
  repeat (apply elem_of_cons in Hv as [->|Hv]; [reflexivity|]).
  by apply elem_of_nil in Hv.
Qed.

(** The result of [_normalize_status] is a word of the vocabulary or the
    argument itself. *)
Lemma normalize_status_cases (s : string) :
  _normalize_status upper (Some s) ∈ closed_vocabulary
  \/ _normalize_status upper (Some s) = s.
Proof.
  unfold _normalize_status. destruct (Str.truthy s) eqn:Hs; cbn [negb].
  - destruct (Str.contains "OPEN" (upper s)); [left; word|].
    destruct (Str.contains "DONE" (upper s)); [left; word|].
    destruct (Str.contains "IN PROGRESS" (upper s)); [left; word|].
    destruct (Str.contains "READY" (upper s)).
    { destruct (Str.contains "PUBLISH" (upper s)); left; word. }
    destruct (Str.contains "ACCEPTED" (upper s)); [left; word|].
    destruct (Str.contains "DRAFT" (upper s)); [left; word|].
    destruct (Str.contains "CLOSED" (upper s)); [left; word|].
    by right.
  - right. symmetry. by apply StrFacts.truthy_false.
Qed.

(** Normalizing a normalized status changes nothing, provided [upper]
    leaves the eight words of the vocabulary as they are. *)
Theorem normalize_status_idempotent (status_text : option string) :
  _normalize_status upper (Some (_normalize_status upper status_text))
  = _normalize_status upper status_text.
Proof.
  destruct status_text as [s|]; [|reflexivity].
  destruct (normalize_status_cases s) as [Hv|Hs].
  - by apply normalize_status_word.
  - by rewrite !Hs.
Qed.

(** A status that [_normalize_status] has recognized passes the test of
    step 2 of the validator, which therefore leaves the record alone. *)
Theorem normalized_status_passes_validator
        (d : gmap string string) (s : string) :
  Str.truthy s = true ->
  Str.any_in Validator.status_keywords (upper s) = true ->
  Validator.get d "Status" = _normalize_status upper (Some s) ->
  Validator.check_status upper d = d.
Proof.
  intros Hs Hk Hd. apply ValidatorFacts.check_status_id.
  rewrite Hd. unfold Validator.empty_or, Validator.looks_like.
  pose proof (StatusFacts.normalize_status_closed upper s Hs Hk) as Hv.
  rewrite (upper_vocabulary _ Hv).
  unfold closed_vocabulary in Hv.
  repeat (apply elem_of_cons in Hv as [->|Hv]; [reflexivity|]).
  by apply elem_of_nil in Hv.
Qed.

End StatusMore.

Lemma ascii_upper_vocabulary (v : string) :
  v ∈ closed_vocabulary -> Str.ascii_upper v = v.
Proof.
  intros Hv. unfold closed_vocabulary in Hv.
  repeat (apply elem_of_cons in Hv as [->|Hv]; [reflexivity|]).
  by apply elem_of_nil in Hv.
Qed.

Lemma normalize_status_idempotent_witness :
  _normalize_status Str.ascii_upper
    (Some (_normalize_status Str.ascii_upper (Some "Ready for publishing")))
  = _normalize_status Str.ascii_upper (Some "Ready for publishing").
Proof.
  apply (normalize_status_idempotent Str.ascii_upper ascii_upper_vocabulary).
Defined.

Lemma normalized_status_passes_validator_witness :
  Validator.check_status Str.ascii_upper
    (Validator.mk_record "Fix login bug" "" "" "IN PROGRESS" "" "" "" "")
  = Validator.mk_record "Fix login bug" "" "" "IN PROGRESS" "" "" "" "".
Proof.
  apply (normalized_status_passes_validator
           Str.ascii_upper ascii_upper_vocabulary _ "Now in progress").
  - reflexivity.
  - vm_compute. reflexivity.
  - vm_compute. reflexivity.
Defined.

Section PriorityMore.
Variable lower : string -> string.

Ltac word :=
  unfold vocabulary;
  repeat first [ by apply list_elem_of_here | apply list_elem_of_further ].

(** The branches of [_normalize_priority]: a text with one of the four
    keywords goes to the vocabulary, "very high" before "high"; a text
    without keyword comes back as it is; [None] and the empty text give
    the empty text. *)
Theorem normalize_priority_spec (s : string) :
  (Str.truthy s = true ->
   Str.any_in ["very high"; "high"; "medium"; "low"] (lower s) = true ->
   _normalize_priority lower (Some s) ∈ vocabulary)
  /\ (Str.truthy s = true ->
      Str.contains "very high" (lower s) = true ->
      _normalize_priority lower (Some s) = "Very High")
  /\ (Str.any_in ["very high"; "high"; "medium"; "low"] (lower s) = false ->
      _normalize_priority lower (Some s) = s)
  /\ _normalize_priority lower None = ""
  /\ _normalize_priority lower (Some "") = "".
Proof.
  split; [|split; [|split; [|split; reflexivity]]].
  - intros Hs Hk. unfold _normalize_priority. rewrite Hs. cbn [negb].
    unfold Str.any_in in Hk. cbn [existsb] in Hk.
    destruct (Str.contains "very high" (lower s)); [word|].
    destruct (Str.contains "high" (lower s)); [word|].
    destruct (Str.contains "medium" (lower s)); [word|].
    destruct (Str.contains "low" (lower s)); [word|].
    discriminate Hk.
  - intros Hs Hk. unfold _normalize_priority. by rewrite Hs, Hk.
  - intros Hk. unfold _normalize_priority.
    unfold Str.any_in in Hk. cbn [existsb] in Hk.
    rewrite !orb_false_iff in Hk. destruct Hk as (-> & -> & -> & -> & _).
    by destruct s.
Qed.

Hypothesis lower_vocabulary :
  lower "Very High" = "very high" /\ lower "High" = "high"
  /\ lower "Medium" = "medium" /\ lower "Low" = "low".

(** Normalizing a normalized priority changes nothing, provided [lower]
    lowers the four words of the vocabulary the ASCII way. *)
Theorem normalize_priority_idempotent (priority_text : option string) :
  _normalize_priority lower (Some (_normalize_priority lower priority_text))
  = _normalize_priority lower priority_text.
Proof.
  destruct lower_vocabulary as (Hvh & Hh & Hm & Hl).
  destruct priority_text as [s|]; [|reflexivity].
  destruct (Str.truthy s) eqn:Hs;
    [|apply StrFacts.truthy_false in Hs; by subst s].
  assert (_normalize_priority lower (Some s)
          = if Str.contains "very high" (lower s) then "Very High"
            else if Str.contains "high" (lower s) then "High"
            else if Str.contains "medium" (lower s) then "Medium"
            else if Str.contains "low" (lower s) then "Low"
            else s) as Hn
      by (unfold _normalize_priority; by rewrite Hs).
  rewrite Hn.
  destruct (Str.contains "very high" (lower s)) eqn:E1.
  { unfold _normalize_priority. by rewrite Hvh. }
  destruct (Str.contains "high" (lower s)) eqn:E2.
  { unfold _normalize_priority. by rewrite Hh. }
  destruct (Str.contains "medium" (lower s)) eqn:E3.
  { unfold _normalize_priority. by rewrite Hm. }
  destruct (Str.contains "low" (lower s)) eqn:E4.
  { unfold _normalize_priority. by rewrite Hl. }
  rewrite Hn. by rewrite ?E1, ?E2, ?E3, ?E4.
Qed.

End PriorityMore.

Lemma normalize_priority_spec_witness :
  _normalize_priority Text.ascii_lower (Some "Prio: VERY HIGH") = "Very High"
  /\ _normalize_priority Text.ascii_lower (Some "urgent") = "urgent".
Proof.
  destruct (normalize_priority_spec Text.ascii_lower "Prio: VERY HIGH")
    as (_ & Hvh & _).
  destruct (normalize_priority_spec Text.ascii_lower "urgent")
    as (_ & _ & Hsame & _).
  split; [apply Hvh | apply Hsame]; vm_compute; reflexivity.
Defined.

Lemma normalize_priority_idempotent_witness :
  _normalize_priority Text.ascii_lower
    (Some (_normalize_priority Text.ascii_lower (Some "high priority")))
  = _normalize_priority Text.ascii_lower (Some "high priority").
Proof.
  apply (normalize_priority_idempotent Text.ascii_lower).
  repeat split; reflexivity.
Defined.

Section PriorityAndValidator.
Variable lower upper : string -> string.
Hypothesis upper_vocabulary :
  upper "Very High" = "VERY HIGH" /\ upper "High" = "HIGH"
  /\ upper "Medium" = "MEDIUM" /\ upper "Low" = "LOW".

(** A priority that [_normalize_priority] has recognized passes the
    test of step 3 of the validator, which therefore leaves the record
    alone. *)
Theorem normalized_priority_passes_validator
        (d : gmap string string) (s : string) :
  Str.truthy s = true ->
  Str.any_in ["very high"; "high"; "medium"; "low"] (lower s) = true ->
  Validator.get d "Priority" = _normalize_priority lower (Some s) ->
  Validator.check_priority upper d = d.
Proof.
  destruct upper_vocabulary as (Hvh & Hh & Hm & Hl).
  intros Hs Hk Hd. apply ValidatorFacts.check_priority_id.
  rewrite Hd. unfold Validator.empty_or, Validator.looks_like.
  unfold _normalize_priority. rewrite Hs. cbn [negb].
  unfold Str.any_in in Hk. cbn [existsb] in Hk.
  destruct (Str.contains "very high" (lower s)); [by rewrite Hvh|].
  destruct (Str.contains "high" (lower s)); [by rewrite Hh|].
  destruct (Str.contains "medium" (lower s)); [by rewrite Hm|].
  destruct (Str.contains "low" (lower s)); [by rewrite Hl|].
  discriminate Hk.
Qed.

End PriorityAndValidator.

Lemma normalized_priority_passes_validator_witness :
  Validator.check_priority Str.ascii_upper
    (Validator.mk_record "Fix login bug" "" "Medium" "" "" "" "" "")
  = Validator.mk_record "Fix login bug" "" "Medium" "" "" "" "" "".
Proof.
  apply (normalized_priority_passes_validator
           Text.ascii_lower Str.ascii_upper
           ltac:(repeat split; reflexivity) _ "medium prio").
  - reflexivity.
  - vm_compute. reflexivity.
  - vm_compute. reflexivity.
Defined.

End NormalizeMore.

(** ** Further properties of the scroll loop *)

Module ScrollMore.

Import Scroll ScrollFacts.

Local Open Scope Z_scope.

(** The stopping test is monotone in the range of the counts: once it
    holds it holds for every longer streak and every larger row count.
    (Outside the range the [except] branch breaks it: a row count too
    large for a float makes the division raise, and the answer is then
    [no_change_count > 15] alone.) *)
Theorem should_finish_monotone (n n' c c' t : Z) :
  Z.abs t < count_bound -> 0 <= c -> c' < count_bound ->
  _should_finish_scrolling n c t = true ->
  n <= n' -> c <= c' ->
  _should_finish_scrolling n' c' t = true.
Proof.
  intros Ht Hc0 Hc' H Hn Hc.
  apply (should_finish_iff n c t Ht ltac:(lia)) in H.
  apply (should_finish_iff n' c' t Ht ltac:(lia)). lia.
Qed.

Lemma should_finish_monotone_witness :
  _should_finish_scrolling 12 97 100 = true.
Proof.
  apply (should_finish_monotone 5 12 96 97 100);
    [reflexivity | lia | reflexivity | vm_compute; reflexivity | lia | lia].
Defined.

Section Stagnation.

Variable has_pagination : bool.
Variable total : Z.
Variable env : nat -> IterObs.
Variable c : nat.
Hypothesis same_count : forall i, rows_found (env i) = Some c.
Hypothesis no_advance : forall i, has_pagination && next_page (env i) = false.

Lemma stagnant_iteration attempt st :
  previous_rows_count st = Z.of_nat c ->
  scroll_iteration has_pagination total (env attempt) st
  = if _should_finish_scrolling (no_change_count st + 1) (Z.of_nat c) total
    then ({| previous_rows_count := previous_rows_count st;
             no_change_count := no_change_count st + 1 |}, true)
    else ({| previous_rows_count := Z.of_nat c;
             no_change_count := no_change_count st + 1 |},
          total <=? Z.of_nat c).
Proof.
  intros Hprev. unfold scroll_iteration. rewrite same_count, Hprev, Z.eqb_refl.
  assert (has_pagination && (5 <=? no_change_count st + 1)
          && next_page (env attempt) = false) as ->.
  { pose proof (no_advance attempt) as H.
    destruct has_pagination, (next_page (env attempt)),
      (5 <=? no_change_count st + 1); done. }
  reflexivity.
Qed.

Lemma stagnant_loop remaining :
  forall attempt st,
    previous_rows_count st = Z.of_nat c ->
    0 <= no_change_count st <= 19 ->
    (snd (scroll_loop has_pagination total env remaining attempt st)
     <= attempt + (20 - Z.to_nat (no_change_count st)))%nat.
Proof.
  induction remaining as [|remaining IH]; intros attempt st Hprev Hk;
    cbn [scroll_loop].
  - cbn. lia.
  - rewrite (stagnant_iteration attempt st Hprev).
    destruct (_should_finish_scrolling (no_change_count st + 1) (Z.of_nat c)
                                       total) eqn:Hf.
    + cbn. lia.
    + assert (~ 20 <= no_change_count st + 1) as Hlt.
      { intros Hge.
        rewrite (should_finish_at_20 _ (Z.of_nat c) total Hge) in Hf.
        discriminate Hf. }
      destruct (total <=? Z.of_nat c); [cbn; lia|].
      match goal with
      | |- (snd (scroll_loop _ _ _ _ _ ?st') <= _)%nat =>
          specialize (IH (S attempt) st')
      end.
      cbn [previous_rows_count no_change_count] in IH.
      specialize (IH eq_refl ltac:(lia)). lia.
Qed.

Lemma stagnant_run max_attempts :
  (snd (scroll_loop has_pagination total env max_attempts 0 initial_state)
   <= 21)%nat.
Proof.
  destruct (decide (Z.of_nat c = 0)) as [Hzero|Hpos].
  - pose proof (stagnant_loop max_attempts 0%nat initial_state) as H.
    cbn [initial_state previous_rows_count no_change_count] in H.
    specialize (H (eq_sym Hzero) ltac:(lia)). cbn in H. lia.
  - destruct max_attempts as [|remaining]; [cbn; lia|].
    cbn [scroll_loop]. unfold scroll_iteration at 1.
    rewrite same_count. cbn [initial_state previous_rows_count].
    apply Z.eqb_neq in Hpos. rewrite Hpos.
    destruct (total <=? Z.of_nat c); [cbn; lia|].
    match goal with
    | |- (snd (scroll_loop _ _ _ _ _ ?st') <= _)%nat =>
        pose proof (stagnant_loop remaining 1%nat st') as H
    end.
    cbn [previous_rows_count no_change_count] in H.
    specialize (H eq_refl ltac:(lia)). cbn in H. lia.
Qed.

End Stagnation.

(** When every iteration observes the same row count and no page
    advance succeeds, the loop ends within 21 iterations, whatever
    [max_attempts] and the expected total are. *)
Theorem stagnation_ends_the_loop
        (t : Table) (total_expected : Z) (max_attempts c : nat) :
  (forall s i, rows_found (answers t s i) = Some c) ->
  (forall s i, pagination_found t && next_page (answers t s i) = false) ->
  (snd (scroll_run t total_expected max_attempts) <= 21)%nat.
Proof.
  intros Hsame Hadv. unfold scroll_run.
  apply (stagnant_run (pagination_found t) total_expected _ c).
  - intros i. apply Hsame.
  - intros i. apply Hadv.
Qed.

(** A table that never shows a row. *)
Definition empty_table : Table :=
  {| probes := {| TableType.standard_ui5 := Some 0%nat;
                  TableType.responsive_table := Some 0%nat;
                  TableType.grid_table := Some 0%nat |};
     pagination_found := false;
     answers := fun _ _ => {| rows_found := Some 0%nat; next_page := false |} |}.

Lemma stagnation_ends_the_loop_witness :
  (snd (scroll_run empty_table 96 100) <= 21)%nat.
Proof.
  apply (stagnation_ends_the_loop empty_table 96 100 0);
    intros s i; reflexivity.
Defined.

End ScrollMore.

(** ** Properties of [_calculate_adaptive_wait_time] *)

Module WaitFacts.

Import Wait.

Local Open Scope Z_scope.

Lemma rows_factor_nonneg c :
  0 <= c -> (0 <= Qmin (inject_Z c / 500) (5 # 10))%Q.
Proof.
  intros Hc. rewrite Zle_Qle in Hc. change (inject_Z 0) with 0%Q in Hc.
  apply Q.min_glb; [|lra]. apply Qle_shift_div_l; lra.
Qed.

(** The wait is never shorter than 0.2 s nor longer than 1 s, the
    default of the [except] branch included. *)
Theorem wait_time_bounds (n c : Z) :
  0 <= c ->
  ((2 # 10) <= _calculate_adaptive_wait_time n c
   /\ _calculate_adaptive_wait_time n c <= 1)%Q.
Proof.
  intros Hc. unfold _calculate_adaptive_wait_time, adaptive_wait.
  destruct ((0 <? n) && Scroll.float_raises n); [split; lra|].
  destruct (Scroll.true_div_raises c 500); [split; lra|].
  cbn zeta.
  pose proof (rows_factor_nonneg c Hc) as Hr.
  assert (0 <= (if 0 <? n then Qmin (inject_Z n * (1 # 10)) 1 else 0))%Q as Hn.
  { destruct (Z.ltb_spec 0 n) as [Hpos|_]; [|lra].
    apply Z.lt_le_incl in Hpos. rewrite Zle_Qle in Hpos.
    change (inject_Z 0) with 0%Q in Hpos.
    apply Q.min_glb; lra. }
  split.
  - apply Q.min_glb; lra.
  - apply Q.le_min_r.
Qed.

Lemma wait_time_bounds_witness :
  ((2 # 10) <= _calculate_adaptive_wait_time 3 120
   /\ _calculate_adaptive_wait_time 3 120 <= 1)%Q.
Proof. apply (wait_time_bounds 3 120). lia. Defined.

(** A row count of 401 digits makes [current_rows_count / 500] raise:
    the wait is the default of the [except] branch. *)
Lemma wait_time_beyond_floats :
  _calculate_adaptive_wait_time 8 (10 ^ 400) = (5 # 10)%Q.
Proof. vm_compute. reflexivity. Qed.

(** With counts a float can hold, the body of the [try] does not
    raise. *)
Lemma adaptive_wait_in_range (n c : Z) :
  n < Scroll.float_limit -> 0 <= c < Scroll.float_limit ->
  adaptive_wait n c
  = Some (Qmin ((2 # 10)
                + (if 0 <? n then Qmin (inject_Z n * (1 # 10)) 1 else 0)
                + Qmin (inject_Z c / 500) (5 # 10)) 1)%Q.
Proof.
  intros Hn Hc. unfold adaptive_wait.
  assert ((0 <? n) && Scroll.float_raises n = false) as ->.
  { destruct (Z.ltb_spec 0 n); [|done]. cbn [andb].
    unfold Scroll.float_raises. apply Z.leb_gt. lia. }
  assert (Scroll.true_div_raises c 500 = false) as ->.
  { unfold Scroll.true_div_raises. apply Z.leb_gt.
    change (Z.abs 500) with 500. lia. }
  reflexivity.
Qed.

(** From eight iterations without change on the wait is the full
    second, for counts a float can hold.  (Beyond them a conversion
    raises and the wait is the default of the [except] branch, half a
    second.) *)
Theorem wait_time_saturates (n c : Z) :
  8 <= n -> n < Scroll.float_limit -> 0 <= c -> c < Scroll.float_limit ->
  (_calculate_adaptive_wait_time n c == 1)%Q.
Proof.
  intros Hn Hnmax Hc Hcmax. unfold _calculate_adaptive_wait_time.
  rewrite (adaptive_wait_in_range n c Hnmax (conj Hc Hcmax)).
  pose proof (rows_factor_nonneg c Hc) as Hr.
  destruct (Z.ltb_spec 0 n) as [_|?]; [|lia].
  rewrite Zle_Qle in Hn. change (inject_Z 8) with 8%Q in Hn.
  assert ((8 # 10) <= Qmin (inject_Z n * (1 # 10)) 1)%Q as Hf.
  { apply Q.min_glb; lra. }
  apply Q.min_r. lra.
Qed.

Lemma wait_time_saturates_witness :
  (_calculate_adaptive_wait_time 8 0 == 1)%Q.
Proof.
  apply (wait_time_saturates 8 0); [lia | reflexivity | lia | reflexivity].
Defined.

End WaitFacts.

(** ** Further properties of the extraction of rows and of the harvest *)

Module HarvestMore.

Import Validator Harvest ValidatorFacts HarvestFacts.

(** A record with the eight fields and no other key. *)
Definition exactly_eight (d : gmap string string) : Prop :=
  forall k, is_Some (d !! k) <-> k ∈ required_fields.

Lemma mk_record_exactly_eight t ty p st dl dd cb co :
  exactly_eight (mk_record t ty p st dl dd cb co).
Proof.
  intros k. unfold mk_record, required_fields.
  rewrite !lookup_insert_is_Some', lookup_empty, !elem_of_cons, elem_of_nil.
  split.
  - intros [H|[H|[H|[H|[H|[H|[H|[H|H]]]]]]]]; try (subst k; tauto).
    by destruct H.
  - intros [H|[H|[H|[H|[H|[H|[H|[H|H]]]]]]]]; try (subst k; tauto). done.
Qed.

Lemma insert_exactly_eight (d : gmap string string) k v :
  exactly_eight d -> k ∈ required_fields -> exactly_eight (<[k := v]> d).
Proof.
  intros Hd Hk j. rewrite lookup_insert_is_Some'. split.
  - intros [<-|H]; [done | by apply Hd].
  - intros H. right. by apply Hd.
Qed.

Lemma header_keys_required :
  Forall (fun entry => entry.2 ∈ required_fields) header_mappings.
Proof.
  unfold header_mappings, required_fields.
  repeat constructor; cbn;
    repeat first [ by apply list_elem_of_here | apply list_elem_of_further ].
Qed.

Lemma matching_key_required header_upper key :
  matching_key header_upper = Some key -> key ∈ required_fields.
Proof.
  unfold matching_key. intros H.
  destruct (List.find _ header_mappings) as [[pattern key']|] eqn:E;
    [|discriminate H].
  cbn in H. injection H as <-.
  apply find_some in E as [Hin _].
  pose proof header_keys_required as Hall.
  rewrite Forall_forall in Hall.
  apply (Hall (pattern, key')). by apply list_elem_of_In.
Qed.

Section Records.
Variable upper : string -> string.
Variable strip : string -> string.

Lemma read_headers_exactly_eight row hm :
  exactly_eight (read_headers upper strip row hm).
Proof.
  unfold read_headers.
  generalize (mk_record_exactly_eight "" "" "" "" "" "" "" "").
  generalize (mk_record "" "" "" "" "" "" "" "").
  induction hm as [|[header index] hm IH]; intros d Hd; cbn [fold_left]; [done|].
  apply IH. unfold fill_from_header.
  destruct (index <? length (cells row))%nat; [|done].
  destruct (matching_key (upper header)) as [key|] eqn:E; [|done].
  apply insert_exactly_eight; [done|]. by apply (matching_key_required (upper header)).
Qed.

Lemma extract_row_exactly_eight hm index row :
  exactly_eight (extract_row upper strip hm index row).
Proof.
  unfold extract_row.
  destruct (header_based upper strip row hm) as [d|] eqn:E.
  - unfold header_based in E. destruct (4 <=? length hm)%nat; [|done].
    unfold _extract_by_headers in E.
    destruct (cells row) as [|first rest]; [done|].
    destruct (negb _) in E.
    + destruct (Str.truthy (get (<["Title" := _]> _) "Title")); [|done].
      injection E as <-. apply insert_exactly_eight.
      * apply read_headers_exactly_eight.
      * unfold required_fields. apply list_elem_of_here.
    + destruct (Str.truthy _); [|done]. injection E as <-.
      apply read_headers_exactly_eight.
  - unfold heuristic. destruct (String.eqb _ _).
    + destruct (cells row) as [|first rest];
        [apply mk_record_exactly_eight|].
      destruct (8 <=? _)%nat; apply mk_record_exactly_eight.
    + apply mk_record_exactly_eight.
Qed.

Lemma validate_exactly_eight (d : gmap string string) :
  exactly_eight d ->
  exactly_eight (_validate_and_correct_issue_data upper d).
Proof.
  intros Hd k. rewrite ValidatorMore.validate_has_key. split.
  - intros [H|H]; [by apply Hd | done].
  - intros H. by right.
Qed.

(** Where the records of the result come from. *)
Lemma process_from_elem hm rows :
  forall start r,
    r ∈ process_from upper strip hm start rows ->
    exists index row,
      r = _validate_and_correct_issue_data upper
            (extract_row upper strip hm index row).
Proof.
  induction rows as [|row rows IH]; intros start r Hr; cbn in Hr.
  - by apply elem_of_nil in Hr.
  - apply elem_of_cons in Hr as [->|Hr]; [eauto|]. by apply (IH (S start)).
Qed.

Lemma harvest_pages_elem hm has_pagination fuel :
  forall pagination_elements pages r,
    r ∈ harvest_pages upper strip hm has_pagination fuel
                      pagination_elements pages ->
    exists index row,
      r = _validate_and_correct_issue_data upper
            (_validate_and_correct_issue_data upper
               (extract_row upper strip hm index row)).
Proof.
  induction fuel as [|fuel IH]; intros pe pages r Hr; cbn [harvest_pages] in Hr.
  { destruct pages; by apply elem_of_nil in Hr. }
  destruct pages as [|page rest]; [by apply elem_of_nil in Hr|].
  destruct (page_rows page) as [|row0 rows0] eqn:Hrows;
    [by apply elem_of_nil in Hr|].
  rewrite <- Hrows in Hr.
  apply elem_of_app in Hr as [Hr|Hr].
  - apply list_elem_of_fmap in Hr as (r' & -> & Hr').
    unfold _process_table_rows in Hr'.
    apply process_from_elem in Hr' as (index & row & ->). eauto.
  - destruct (negb has_pagination || _); [by apply elem_of_nil in Hr|].
    destruct pe; [|by apply elem_of_nil in Hr].
    destruct (negb (next_clicked page)); [by apply elem_of_nil in Hr|].
    by apply (IH (pagination_after page) rest).
Qed.

(** Every record the harvest returns has the eight fields, no other
    key, and a Title that is not empty. *)
Theorem harvested_records_have_eight_fields (site : Site) (r : gmap string string) :
  r ∈ extract_issues_data upper strip site ->
  exactly_eight r /\ get r "Title" <> "".
Proof.
  intros Hr. unfold extract_issues_data in Hr.
  apply harvest_pages_elem in Hr as (index & row & ->). split.
  - do 2 apply validate_exactly_eight. apply extract_row_exactly_eight.
  - rewrite !validate_get_title. apply extract_row_title_nonempty.
Qed.

(** The direct extraction by cells of [_process_table_rows] is dead
    code: [_extract_type] never returns the title, so the record of the
    heuristic path is always the one built from the eight extractors. *)
Theorem direct_extraction_never_taken (index : nat) (row : Row) :
  let title := heuristic_title strip index row in
  _extract_type strip row title <> title
  /\ heuristic strip index row
     = mk_record title (_extract_type strip row title)
                 (priority_found row) (status_found row) (deadline_found row)
                 (due_date_found row) (created_by_found row)
                 (created_on_found row).
Proof.
  cbn zeta.
  pose proof (extract_type_differs strip row (heuristic_title strip index row)
                (heuristic_title_nonempty strip index row)) as Hne.
  split; [exact Hne|].
  unfold heuristic. apply String.eqb_neq in Hne. by rewrite Hne.
Qed.

Lemma take_chars_length_le n s : Str.char_length (Str.take_chars n s) <= n.
Proof.
  revert n. induction s as [|c s IH]; intros n; [cbn; lia|].
  cbn [Str.take_chars]. destruct (Str.is_continuation c) eqn:Hc.
  - cbn [Str.char_length]. rewrite Hc. apply IH.
  - destruct n as [|n]; [cbn; lia|].
    cbn [Str.char_length]. rewrite Hc. specialize (IH n). lia.
Qed.

Lemma append_char_length (s1 s2 : string) :
  Str.char_length (s1 ++ s2) = Str.char_length s1 + Str.char_length s2.
Proof.
  induction s1 as [|c s1 IH]; [done|].
  change (String c s1 ++ s2) with (String c (s1 ++ s2)).
  cbn [Str.char_length]. rewrite IH. lia.
Qed.

(** A title taken from the text of the row has at most 103 characters:
    100 of the first line and the three dots.  Characters are counted
    as [len] counts them, not bytes. *)
Theorem title_from_text_is_short (row : Row) (title : string) :
  title_from_text strip row = Some title -> Str.char_length title <= 103.
Proof.
  unfold title_from_text. destruct (row_text row) as [text|]; [|done].
  destruct (Str.truthy (strip text)); [|done].
  destruct (Nat.ltb_spec 100
              (Str.char_length (strip (Str.first_line (strip text)))))
    as [Hlong|Hshort]; intros [= <-].
  - rewrite append_char_length.
    pose proof (take_chars_length_le 100
                  (strip (Str.first_line (strip text)))).
    change (Str.char_length "...") with 3. lia.
  - lia.
Qed.

End Records.

Lemma harvested_records_have_eight_fields_witness :
  match extract_issues_data Str.ascii_upper Str.ascii_strip repeated_titles
        !! 0%nat with
  | Some r => exactly_eight r /\ get r "Title" <> ""
  | None => False
  end.
Proof.
  destruct (extract_issues_data Str.ascii_upper Str.ascii_strip
                                repeated_titles !! 0%nat) as [r|] eqn:E.
  - apply (harvested_records_have_eight_fields
             Str.ascii_upper Str.ascii_strip repeated_titles).
    by apply list_elem_of_lookup_2 in E.
  - apply lookup_ge_None in E.
    assert (length (extract_issues_data Str.ascii_upper Str.ascii_strip
                                        repeated_titles) = 3) as Hlen
        by (vm_compute; reflexivity).
    rewrite Hlen in E. lia.
Defined.

(** A row whose text is a title of 101 characters, each of two
    bytes. *)
Definition long_title : string :=
  "ááááááááááááááááááááááááááááááááááááááááááááááááááááááááááááááááááááááááááááááááááááááááááááááááááááá".

Definition long_row : Row :=
  {| cells := []; title_probes := [];
     row_text := Some long_title;
     type_elements := []; ui5_type_values := []; type_lookup_fails := false;
     priority_found := ""; status_found := ""; deadline_found := "";
     due_date_found := ""; created_by_found := ""; created_on_found := "" |}.

Lemma title_from_text_is_short_witness :
  Str.char_length (Str.take_chars 100 long_title ++ "...") <= 103.
Proof.
  apply (title_from_text_is_short Str.ascii_strip long_row
           (Str.take_chars 100 long_title ++ "...")).
  vm_compute. reflexivity.
Defined.

End HarvestMore.

(** ** Properties of digits and counts *)

Module TextFacts.

Import Text.

(** Whether [s] does not start with a digit. *)
Definition no_digit_ahead (s : string) : bool :=
  match s with
  | EmptyString => true
  | String c _ => negb (is_digit c)
  end.

Lemma append_empty (s : string) : s ++ "" = s.
Proof.
  induction s as [|c s IH]; [done|].
  change (String c (s ++ "") = String c s). by rewrite IH.
Qed.

Lemma take_digits_spec (s : string) :
  let '(digits, tail) := take_digits s in
  s = digits ++ tail /\ all_digits digits = true
  /\ no_digit_ahead tail = true.
Proof.
  induction s as [|c s IH]; cbn [take_digits]; [done|].
  destruct (is_digit c) eqn:Hc.
  - destruct (take_digits s) as [digits tail].
    destruct IH as (-> & Hd & Ht). cbn [all_digits]. by rewrite Hc, Hd.
  - cbn [all_digits no_digit_ahead]. by rewrite Hc.
Qed.

Lemma take_digits_app (digits tail : string) :
  all_digits digits = true -> no_digit_ahead tail = true ->
  take_digits (digits ++ tail) = (digits, tail).
Proof.
  intros Hd Ht. induction digits as [|c digits IH].
  - change ("" ++ tail) with tail.
    destruct tail as [|c tail]; [done|]. cbn [no_digit_ahead] in Ht.
    apply negb_true_iff in Ht. cbn [take_digits]. by rewrite Ht.
  - cbn [all_digits] in Hd. apply andb_true_iff in Hd as [Hc Hd].
    change (String c digits ++ tail) with (String c (digits ++ tail)).
    cbn [take_digits]. by rewrite Hc, (IH Hd).
Qed.

Lemma all_digits_string_of_uint (d : Decimal.uint) :
  all_digits (NilEmpty.string_of_uint d) = true.
Proof. induction d; cbn; done. Qed.

Lemma to_uint_not_nil (n : nat) : Nat.to_uint n <> Decimal.Nil.
Proof.
  intros H. pose proof (Unsigned.of_to n) as Hn. rewrite H in Hn.
  cbn in Hn. subst n. discriminate H.
Qed.

Lemma of_nat_digits (n : nat) :
  all_digits (Str.of_nat n) = true /\ Str.truthy (Str.of_nat n) = true.
Proof.
  unfold Str.of_nat. split; [apply all_digits_string_of_uint|].
  pose proof (to_uint_not_nil n) as Hne.
  destruct (Nat.to_uint n); cbn; done.
Qed.

(** [int(str(n)) == n] *)
Lemma int_of_of_nat (n : nat) : int_of (Str.of_nat n) = Some n.
Proof.
  unfold int_of, isdigit. destruct (of_nat_digits n) as [-> ->]. cbn.
  unfold Str.of_nat. rewrite NilEmpty.usu. cbn. by rewrite Unsigned.of_to.
Qed.

End TextFacts.

Module TotalCountFacts.

Import Text TextFacts TotalCount.

Lemma search_count_skip (prefix s : string) :
  has_char "("%char prefix = false ->
  search_count (prefix ++ s) = search_count s.
Proof.
  induction prefix as [|c prefix IH]; [done|].
  change (String c prefix ++ s) with (String c (prefix ++ s)).
  cbn [has_char search_count].
  intros H. apply orb_false_iff in H as [Hc Hp].
  rewrite Ascii.eqb_sym in Hc. rewrite Hc. by apply IH.
Qed.

Lemma search_count_here (digits suffix : string) :
  all_digits digits = true -> Str.truthy digits = true ->
  search_count ("(" ++ digits ++ ")" ++ suffix) = Some digits.
Proof.
  intros Hd Ht.
  change ("(" ++ digits ++ ")" ++ suffix)
    with (String "("%char (digits ++ String ")"%char suffix)).
  cbn [search_count]. rewrite Ascii.eqb_refl.
  rewrite (take_digits_app digits (String ")"%char suffix) Hd eq_refl).
  by rewrite Ht, Ascii.eqb_refl.
Qed.

(** The header "Issues (n)" gives back [n]: whatever surrounds the
    first parenthesis, as long as no "(" precedes it, the function
    returns the number written between the parentheses. *)
Theorem total_read_from_header
        (obs : CountObs) (prefix suffix : string) (n : nat) :
  issues_header obs
  = Found (prefix ++ "(" ++ Str.of_nat n ++ ")" ++ suffix) ->
  has_char "("%char prefix = false ->
  get_total_issues_count obs = n.
Proof.
  intros Hh Hp. unfold get_total_issues_count. rewrite Hh.
  rewrite (search_count_skip prefix _ Hp).
  destruct (of_nat_digits n) as [Hd Ht].
  rewrite (search_count_here (Str.of_nat n) suffix Hd Ht).
  by rewrite int_of_of_nat.
Qed.

Definition issues_96 : CountObs :=
  {| issues_header := Found "Issues (96)"; counter := NoSuchElement;
     visible_rows := Some 20 |}.

Lemma total_read_from_header_witness : get_total_issues_count issues_96 = 96.
Proof.
  apply (total_read_from_header issues_96 "Issues " "" 96); reflexivity.
Defined.

(** A total below 100 was read from the page: on a page whose header
    and counter are ASCII text, unless the header shows a parenthesized
    number or the counter is a number, the result is at least 100 and
    at least the number of rows on screen. *)
Theorem total_floor (obs : CountObs) :
  (forall text, issues_header obs = Found text -> is_ascii text = true) ->
  (forall text, counter obs = Found text -> is_ascii text = true) ->
  (100 <= get_total_issues_count obs
   /\ (forall count, visible_rows obs = Some count ->
                     issues_header obs <> OtherError ->
                     counter obs <> OtherError ->
                     count <= get_total_issues_count obs))
  \/ (exists text digits,
         issues_header obs = Found text /\ search_count text = Some digits)
  \/ (exists text, counter obs = Found text /\ isdigit text = true).
Proof.
  intros _ _.
  assert (100 <= from_rows obs
          /\ forall count, visible_rows obs = Some count ->
                           count <= from_rows obs) as Hrows.
  { unfold from_rows, default_total.
    destruct (visible_rows obs) as [count|]; [|split; [lia|done]].
    destruct (Nat.ltb_spec 0 count); split; try lia;
      intros ? [= <-]; lia. }
  assert ((100 <= from_counter obs
           /\ (forall count, visible_rows obs = Some count ->
                             counter obs <> OtherError ->
                             count <= from_counter obs))
          \/ exists text, counter obs = Found text /\ isdigit text = true)
    as Hcounter.
  { destruct Hrows as [Hr1 Hr2].
    unfold from_counter. destruct (counter obs) as [text| |].
    - destruct (isdigit text) eqn:E; [right; eauto|].
      left. split; [exact Hr1|]. intros count Hc _. by apply Hr2.
    - left. split; [exact Hr1|]. intros count Hc _. by apply Hr2.
    - left. unfold default_total. split; [lia|]. intros; done. }
  unfold get_total_issues_count.
  destruct (issues_header obs) as [text| |].
  - destruct (search_count text) as [digits|] eqn:E; [right; left; eauto|].
    destruct Hcounter as [[H1 H2]|H]; [|by right; right].
    left. split; [done|]. intros count Hc _ Hne. by apply H2.
  - destruct Hcounter as [[H1 H2]|H]; [|by right; right].
    left. split; [done|]. intros count Hc _ Hne. by apply H2.
  - left. unfold default_total. split; [lia|]. intros; done.
Qed.

(** A page without header, whose counter is no number, with 150 rows on
    screen. *)
Definition rows_150 : CountObs :=
  {| issues_header := NoSuchElement; counter := Found "many";
     visible_rows := Some 150 |}.

Lemma total_floor_witness : 150 <= get_total_issues_count rows_150.
Proof.
  destruct (total_floor rows_150) as [[_ H]|[H|H]].
  - intros text [=].
  - intros text [= <-]. reflexivity.
  - apply (H 150); [reflexivity | discriminate | discriminate].
  - destruct H as (text & digits & [=] & _).
  - destruct H as (text & [= <-] & H). discriminate H.
Defined.

End TotalCountFacts.

(** ** Properties of [validate_input] *)

Module DbFacts.

Import Text TextFacts Db.

Definition newline : string := String "010"%char "".

Lemma digits_to_end_iff (s : string) :
  digits_to_end s = true
  <-> exists digits,
      Str.truthy digits = true /\ all_digits digits = true
      /\ (s = digits \/ s = digits ++ newline).
Proof.
  unfold digits_to_end. pose proof (take_digits_spec s) as Hspec.
  destruct (take_digits s) as [digits tail] eqn:E.
  destruct Hspec as (Hs & Hd & Ht). split.
  - intros H. apply andb_true_iff in H as [Hne Htail].
    exists digits. split; [done|]. split; [done|].
    apply orb_true_iff in Htail as [Htail|Htail];
      apply String.eqb_eq in Htail; subst tail.
    + left. rewrite Hs. apply append_empty.
    + by right.
  - intros (digits' & Hne & Hd' & [Heq|Heq]).
    + assert (take_digits (digits' ++ "") = (digits', "")) as E'
          by (by apply take_digits_app).
      assert (digits' ++ "" = s) as Hs'
          by (rewrite Heq; apply append_empty).
      rewrite Hs', E in E'. injection E' as -> ->. by rewrite Hne.
    + assert (take_digits (digits' ++ newline) = (digits', newline)) as E'
          by (by apply take_digits_app).
      rewrite <- Heq, E in E'. injection E' as -> ->. by rewrite Hne.
Qed.

Section WithOs.
Variable isabs : string -> bool.

(** For an ERP number or a project id an input of ASCII text is
    accepted exactly when it is a non-empty run of digits, possibly
    followed by one final newline (the [$] of the pattern matches before
    it). *)
Theorem validate_input_digits (input_str input_type : string) :
  is_ascii input_str = true ->
  input_type = "erp" \/ input_type = "project" ->
  (validate_input isabs input_str input_type = true
   <-> exists digits,
       Str.truthy digits = true /\ all_digits digits = true
       /\ (input_str = digits \/ input_str = digits ++ newline)).
Proof.
  intros _ [-> | ->]; unfold validate_input; cbn; apply digits_to_end_iff.
Qed.

(** An accepted ERP number or project id of ASCII text holds no
    character but digits and the newline: no quote, space or semicolon
    gets through. *)
Theorem validate_input_characters (input_str input_type : string) (c : ascii) :
  is_ascii input_str = true ->
  input_type = "erp" \/ input_type = "project" ->
  validate_input isabs input_str input_type = true ->
  has_char c input_str = true ->
  is_digit c = true \/ c = "010"%char.
Proof.
  intros _ Hty Hok Hc.
  assert (digits_to_end input_str = true) as Hdigits.
  { destruct Hty as [-> | ->]; exact Hok. }
  apply digits_to_end_iff in Hdigits as (digits & _ & Hd & Hs).
  assert (forall s, all_digits s = true -> has_char c s = true ->
                    is_digit c = true) as Hin.
  { induction s as [|c' s IH]; cbn; [done|].
    intros [Hc' Hs']%andb_true_iff [Heq|Hr]%orb_true_iff.
    - apply Ascii.eqb_eq in Heq. by subst c'.
    - by apply IH. }
  assert (forall s t, has_char c (s ++ t) = true ->
                      has_char c s = true \/ has_char c t = true) as Happ.
  { induction s as [|c' s IH]; cbn; intros t H; [by right|].
    apply orb_true_iff in H as [H|H].
    - left. by rewrite H.
    - destruct (IH t H) as [H'|H']; [left; rewrite H'; apply orb_true_r
                                    | by right]. }
  destruct Hs as [-> | ->]; [left; by apply (Hin digits)|].
  apply Happ in Hc as [Hc|Hc]; [left; by apply (Hin digits)|].
  right. cbn in Hc. rewrite orb_false_r in Hc. by apply Ascii.eqb_eq in Hc.
Qed.

End WithOs.

Lemma validate_input_digits_witness :
  validate_input (fun _ => true) "1025" "erp" = true.
Proof.
  apply (validate_input_digits (fun _ => true) "1025" "erp");
    [reflexivity | by left |].
  exists "1025". repeat split; try reflexivity. by left.
Defined.

Lemma validate_input_characters_witness :
  is_digit "7"%char = true \/ "7"%char = "010"%char.
Proof.
  apply (validate_input_characters (fun _ => true) "1725" "project" "7"%char);
    [reflexivity | by right | reflexivity | reflexivity].
Defined.

End DbFacts.

(** ** Properties of [find_table_rows] *)

Module RowLocatorFacts.

Import RowLocator.

(** The identities of the rows that have one. *)
Definition ids (rows : list Element) : list string := omap element_id rows.

Lemma unique_rows_sublist rows :
  forall seen, sublist (unique_rows rows seen) rows.
Proof.
  induction rows as [|row rows IH]; intros seen; cbn; [constructor|].
  destruct (element_id row) as [row_id|].
  - destruct (decide (row_id ∈ seen));
      [apply sublist_cons | apply sublist_skip]; apply IH.
  - destruct (signature row) as [sig|].
    + destruct (decide (sig ∈ seen));
        [apply sublist_cons | apply sublist_skip]; apply IH.
    + apply sublist_skip, IH.
Qed.

Lemma unique_rows_fresh rows :
  forall seen,
    NoDup (ids (unique_rows rows seen))
    /\ forall row_id, row_id ∈ ids (unique_rows rows seen) -> row_id ∉ seen.
Proof.
  unfold ids.
  induction rows as [|row rows IH]; intros seen; cbn.
  { split; [constructor | intros x Hx; by apply elem_of_nil in Hx]. }
  destruct (element_id row) as [row_id|] eqn:Hid.
  - destruct (decide (row_id ∈ seen)) as [Hin|Hout]; [apply IH|].
    cbn. rewrite Hid. destruct (IH ({[row_id]} ∪ seen)) as [Hnd Hfresh].
    split.
    + constructor; [|done]. intros Hx. apply Hfresh in Hx.
      apply Hx, elem_of_union_l. by apply elem_of_singleton.
    + intros x [->|Hx]%elem_of_cons; [done|]. apply Hfresh in Hx.
      intros Hs. by apply Hx, elem_of_union_r.
  - destruct (signature row) as [sig|].
    + destruct (decide (sig ∈ seen)) as [Hin|Hout]; [apply IH|].
      cbn. rewrite Hid. destruct (IH ({[sig]} ∪ seen)) as [Hnd Hfresh].
      split; [done|]. intros x Hx. apply Hfresh in Hx.
      intros Hs. by apply Hx, elem_of_union_r.
    + cbn. rewrite Hid. apply IH.
Qed.

Lemma unique_rows_keeps_ids rows :
  forall seen row row_id,
    Forall (fun r => is_Some (element_id r)) rows ->
    row ∈ rows -> element_id row = Some row_id ->
    row_id ∈ seen \/ row_id ∈ ids (unique_rows rows seen).
Proof.
  unfold ids.
  induction rows as [|r rows IH]; intros seen row row_id Hall Hrow Hid.
  { by apply elem_of_nil in Hrow. }
  apply Forall_cons in Hall as [[x Hx] Hall]. cbn. rewrite Hx.
  apply elem_of_cons in Hrow as [->|Hrow].
  - rewrite Hid in Hx. injection Hx as <-.
    destruct (decide (row_id ∈ seen)); [by left|].
    right. cbn. rewrite Hid. apply list_elem_of_here.
  - destruct (decide (x ∈ seen)) as [Hin|Hout]; [by apply (IH _ row)|].
    destruct (IH ({[x]} ∪ seen) row row_id Hall Hrow Hid) as [H|H].
    + apply elem_of_union in H as [->%elem_of_singleton|H]; [|by left].
      right. cbn. rewrite Hx. apply list_elem_of_here.
    + right. cbn. rewrite Hx. by apply list_elem_of_further.
Qed.

Section Cascade.
Variable lower : string -> string.
Variable strip : string -> string.

(** The valid rows of what a selector finds. *)
Definition valid_of (result : option (list Element)) : list Element :=
  match result with
  | Some rows => List.filter (is_valid_row lower strip) rows
  | None => []
  end.

Lemma cascade_none_valid results :
  Forall (fun result => valid_of result = []) results ->
  forall all_rows, cascade lower strip results all_rows = all_rows.
Proof.
  induction 1 as [|result results Hr _ IH]; intros all_rows; cbn; [done|].
  destruct result as [rows|]; [|apply IH].
  cbn in Hr. rewrite Hr. cbn. apply IH.
Qed.

Lemma cascade_from rows after all_rows :
  let valid_rows := List.filter (is_valid_row lower strip) rows in
  75 <= length valid_rows
  \/ (0 < length valid_rows
      /\ Forall (fun result => valid_of result = []) after) ->
  cascade lower strip (Some rows :: after) all_rows = valid_rows.
Proof.
  cbn zeta. intros H. cbn [cascade].
  destruct H as [Hbig|[Hpos Hafter]].
  - assert (0 < length (List.filter (is_valid_row lower strip) rows)) as Hpos
        by lia.
    apply Nat.ltb_lt in Hpos. apply Nat.leb_le in Hbig.
    by rewrite Hpos, Hbig.
  - apply Nat.ltb_lt in Hpos. rewrite Hpos.
    destruct (75 <=? _)%nat; [done|]. by apply cascade_none_valid.
Qed.

Lemma cascade_before before rest :
  Forall (fun result => length (valid_of result) < 75) before ->
  forall all_rows,
    exists all_rows',
      cascade lower strip (before ++ rest) all_rows
      = cascade lower strip rest all_rows'.
Proof.
  induction 1 as [|result before Hr _ IH]; intros all_rows; cbn [app].
  { eauto. }
  cbn [cascade]. destruct result as [rows|]; [|apply IH].
  cbn in Hr. apply Nat.leb_gt in Hr. rewrite Hr.
  destruct (0 <? _)%nat; apply IH.
Qed.

(** Which selector of the cascade gives the rows: the first whose valid
    rows number 75 or more; when none reaches 75, the last that has a
    valid row at all. *)
Theorem cascade_choice
        (before after : list (option (list Element))) (rows : list Element) :
  let valid_rows := List.filter (is_valid_row lower strip) rows in
  Forall (fun result => length (valid_of result) < 75) before ->
  75 <= length valid_rows
  \/ (0 < length valid_rows
      /\ Forall (fun result => valid_of result = []) after) ->
  cascade lower strip (before ++ Some rows :: after) [] = valid_rows.
Proof.
  cbn zeta. intros Hbefore Hrows.
  destruct (cascade_before before (Some rows :: after) Hbefore [])
    as [all_rows' ->].
  by apply cascade_from.
Qed.

(** Outside the cache the result is an ordered selection of the rows
    located, and no identity occurs twice in it. *)
Theorem found_rows_are_distinct (v : View) :
  cached v = None ->
  sublist (find_table_rows lower strip v) (located lower strip v)
  /\ NoDup (ids (find_table_rows lower strip v)).
Proof.
  intros Hc. unfold find_table_rows. rewrite Hc. split.
  - apply unique_rows_sublist.
  - apply unique_rows_fresh.
Qed.

(** The removal of duplicates loses no row identity: when every located
    row has a readable identity, each of them is the identity of a row
    of the result. *)
Theorem found_rows_keep_every_id (v : View) (row : Element) (row_id : string) :
  cached v = None ->
  Forall (fun r => is_Some (element_id r)) (located lower strip v) ->
  row ∈ located lower strip v ->
  element_id row = Some row_id ->
  row_id ∈ ids (find_table_rows lower strip v).
Proof.
  intros Hc Hall Hrow Hid. unfold find_table_rows. rewrite Hc.
  destruct (unique_rows_keeps_ids (located lower strip v) ∅ row row_id
              Hall Hrow Hid) as [H|H]; [by apply elem_of_empty in H | done].
Qed.

End Cascade.

(** A list item with a visible text. *)
Definition item (id text : string) : Element :=
  {| element_id := Some id; element_text := Some text;
     element_class := Some "sapMLIB"; inner_texts := Some [Some text];
     descendants := Some 4; list_ancestors := Some 1 |}.

(** A page where the second selector finds two items and the fifth finds
    one of them again with a third. *)
Definition small_list : View :=
  {| cached := None;
     selector_rows :=
       [Some []; Some [item "e1" "Login fails"; item "e2" "Slow report"];
        None; Some [];
        Some [item "e2" "Slow report"; item "e3" "Wrong total";
              item "e2" "Slow report"]];
     any_rows := None |}.

Lemma cascade_choice_witness :
  cascade Text.ascii_lower Str.ascii_strip (selector_rows small_list) []
  = [item "e2" "Slow report"; item "e3" "Wrong total";
     item "e2" "Slow report"].
Proof.
  apply (cascade_choice Text.ascii_lower Str.ascii_strip
           [Some []; Some [item "e1" "Login fails"; item "e2" "Slow report"];
            None; Some []]
           []
           [item "e2" "Slow report"; item "e3" "Wrong total";
            item "e2" "Slow report"]).
  - repeat (constructor; [vm_compute; lia|]). constructor.
  - right. split; [vm_compute; lia | constructor].
Defined.

Lemma found_rows_are_distinct_witness :
  sublist (find_table_rows Text.ascii_lower Str.ascii_strip small_list)
          (located Text.ascii_lower Str.ascii_strip small_list)
  /\ NoDup (ids (find_table_rows Text.ascii_lower Str.ascii_strip small_list)).
Proof.
  apply (found_rows_are_distinct Text.ascii_lower Str.ascii_strip small_list).
  reflexivity.
Defined.

Lemma found_rows_keep_every_id_witness :
  "e3" ∈ ids (find_table_rows Text.ascii_lower Str.ascii_strip small_list).
Proof.
  apply (found_rows_keep_every_id Text.ascii_lower Str.ascii_strip small_list
           (item "e3" "Wrong total") "e3").
  - reflexivity.
  - repeat constructor; cbn; eauto.
  - apply list_elem_of_further, list_elem_of_here.
  - reflexivity.
Defined.

End RowLocatorFacts.

(** ** Properties of [_get_row_cells] *)

Module CellsFacts.

Import Cells.

Section WithBuiltins.
Variable lower : string -> string.
Variable strip : string -> string.

Lemma first_cells_some queries extracted_cells :
  first_cells strip queries = Some extracted_cells ->
  3 <= length extracted_cells
  /\ first_three_filled strip extracted_cells = true.
Proof.
  induction queries as [|[found|] queries IH]; cbn [first_cells];
    [done| |exact IH].
  destruct (Nat.ltb_spec 2 (length found)) as [Hlen|_]; cbn [andb];
    [|exact IH].
  destruct (first_three_filled strip found) eqn:E; [|exact IH].
  intros [= <-]. split; [lia | done].
Qed.

(** The function returns no cell or at least three of them, never one
    or two; cells that come from a cell query have text in the first
    three. *)
Theorem row_cells_none_or_three (obs : CellsObs) :
  (_get_row_cells lower strip obs = []
   \/ 3 <= length (_get_row_cells lower strip obs))
  /\ (forall extracted_cells,
         first_cells strip (cell_queries obs) = Some extracted_cells ->
         _get_row_cells lower strip obs = extracted_cells
         /\ Forall (fun text => strip text <> "") (take 3 extracted_cells)).
Proof.
  assert (from_text_elements lower obs = []
          \/ 3 <= length (from_text_elements lower obs)) as Hlast.
  { unfold from_text_elements. destruct (text_elements obs); [|by left].
    match goal with
    | |- context [(4 <=? ?n)%nat] => destruct (Nat.leb_spec 4 n)
    end; [|by left].
    right. rewrite length_map. lia. }
  split.
  - unfold _get_row_cells.
    destruct (first_cells strip (cell_queries obs)) as [found|] eqn:E.
    { right. by apply (first_cells_some (cell_queries obs)). }
    destruct (column_cells obs) as [cells|]; [|done].
    destruct (Nat.leb_spec 3 (length cells)); [by right | done].
  - intros found E. unfold _get_row_cells. rewrite E. split; [done|].
    apply first_cells_some in E as [_ Hfilled].
    unfold first_three_filled in Hfilled.
    rewrite forallb_forall in Hfilled. apply Forall_forall.
    intros text Hin. apply StrFacts.truthy_true. apply Hfilled.
    by apply list_elem_of_In.
Qed.

End WithBuiltins.

Definition three_cells : CellsObs :=
  {| cell_queries := [Some ["Fix login bug"; ""]; None;
                      Some ["Fix login bug"; "Task"; "High"; ""]];
     column_cells := None; text_elements := None |}.

Lemma row_cells_none_or_three_witness :
  _get_row_cells Text.ascii_lower Str.ascii_strip three_cells
  = ["Fix login bug"; "Task"; "High"; ""].
Proof.
  destruct (row_cells_none_or_three Text.ascii_lower Str.ascii_strip
              three_cells) as [_ H].
  apply (H ["Fix login bug"; "Task"; "High"; ""]). reflexivity.
Defined.

End CellsFacts.

(** ** Properties of [_detect_table_headers] *)

Module HeadersFacts.

Import Headers.

Lemma dict_set_elem key i items h j :
  (h, j) ∈ dict_set key i items -> (h, j) = (key, i) \/ (h, j) ∈ items.
Proof.
  induction items as [|[key' i'] items IH]; cbn.
  - intros [->|H]%elem_of_cons; [by left | by apply elem_of_nil in H].
  - destruct (String.eqb key key').
    + intros [->|H]%elem_of_cons; [by left|]. right. by apply list_elem_of_further.
    + intros [->|H]%elem_of_cons; [right; apply list_elem_of_here|].
      destruct (IH H) as [?|?]; [by left|]. right. by apply list_elem_of_further.
Qed.

Lemma dict_set_keys key i items :
  (dict_set key i items).*1
  = if bool_decide (key ∈ items.*1) then items.*1
    else (items.*1 ++ [key])%list.
Proof.
  induction items as [|[key' i'] items IH]; cbn; [done|].
  destruct (String.eqb_spec key key') as [->|Hne].
  - cbn. rewrite bool_decide_eq_true_2; [done | apply list_elem_of_here].
  - cbn. rewrite IH.
    destruct (bool_decide (key ∈ items.*1)) eqn:E.
    + apply bool_decide_eq_true in E.
      rewrite bool_decide_eq_true_2; [done | by apply list_elem_of_further].
    + apply bool_decide_eq_false in E.
      rewrite bool_decide_eq_false_2; [done|].
      intros [?|?]%elem_of_cons; done.
Qed.

Lemma dict_set_nodup key i items :
  NoDup items.*1 -> NoDup (dict_set key i items).*1.
Proof.
  intros Hnd. rewrite dict_set_keys.
  destruct (bool_decide (key ∈ items.*1)) eqn:E; [done|].
  apply bool_decide_eq_false in E. apply NoDup_app. split; [done|].
  split; [|apply NoDup_singleton].
  intros x Hx ->%list_elem_of_singleton. done.
Qed.

Lemma dict_set_here key i items : (key, i) ∈ dict_set key i items.
Proof.
  induction items as [|[key' i'] items IH]; cbn; [apply list_elem_of_here|].
  destruct (String.eqb key key'); [apply list_elem_of_here|].
  by apply list_elem_of_further.
Qed.

Lemma dict_set_other key i items h j :
  key <> h -> (h, j) ∈ items -> (h, j) ∈ dict_set key i items.
Proof.
  intros Hne. induction items as [|[key' i'] items IH]; cbn.
  { intros H. by apply elem_of_nil in H. }
  destruct (String.eqb_spec key key') as [->|Hne'].
  - intros [[= -> ->]|H]%elem_of_cons; [done|]. by apply list_elem_of_further.
  - intros [->|H]%elem_of_cons; [apply list_elem_of_here|].
    apply list_elem_of_further. by apply IH.
Qed.

Section WithBuiltins.
Variable upper : string -> string.
Variable strip : string -> string.

(** The name a header cell gives to its column. *)
Definition header_name (cell : string) : string := upper (strip cell).

Lemma map_headers_nodup header_cells :
  forall i header_map,
    NoDup header_map.*1 ->
    NoDup (map_headers upper strip i header_cells header_map).*1.
Proof.
  induction header_cells as [|cell cells IH]; intros i m Hm; cbn; [done|].
  apply IH. destruct (Str.truthy (strip cell)); [|done].
  by apply dict_set_nodup.
Qed.

Lemma map_headers_elem header_cells :
  forall i header_map h j,
    (h, j) ∈ map_headers upper strip i header_cells header_map ->
    (h, j) ∈ header_map
    \/ exists n cell,
        header_cells !! n = Some cell /\ j = i + n
        /\ strip cell <> "" /\ h = header_name cell.
Proof.
  induction header_cells as [|cell cells IH]; intros i m h j; cbn; [by left|].
  intros H. apply IH in H as [H|(n & c & Hn & -> & Hc & ->)].
  - destruct (Str.truthy (strip cell)) eqn:E; [|by left].
    apply dict_set_elem in H as [[= -> ->]|H]; [|by left].
    right. exists 0, cell. rewrite Nat.add_0_r.
    repeat split; try done. by apply StrFacts.truthy_true.
  - right. exists (S n), c. repeat split; try done. lia.
Qed.

Lemma map_headers_keeps header_cells :
  forall i header_map h j,
    (h, j) ∈ header_map ->
    (forall n cell, header_cells !! n = Some cell -> strip cell <> "" ->
                    header_name cell <> h) ->
    (h, j) ∈ map_headers upper strip i header_cells header_map.
Proof.
  induction header_cells as [|cell cells IH]; intros i m h j Hin Hlater; cbn;
    [done|].
  apply IH.
  - destruct (Str.truthy (strip cell)) eqn:E; [|done].
    apply dict_set_other; [|done].
    apply (Hlater 0 cell); [done|]. by apply StrFacts.truthy_true.
  - intros n c Hn. apply (Hlater (S n) c). done.
Qed.

Lemma map_headers_last header_cells :
  forall i header_map n cell,
    header_cells !! n = Some cell -> strip cell <> "" ->
    (forall n' cell', n < n' -> header_cells !! n' = Some cell' ->
                      strip cell' <> "" ->
                      header_name cell' <> header_name cell) ->
    (header_name cell, i + n)
      ∈ map_headers upper strip i header_cells header_map.
Proof.
  induction header_cells as [|c cells IH]; intros i m n cell Hn Hc Hlast;
    [done|].
  destruct n as [|n]; cbn.
  - injection Hn as ->. apply StrFacts.truthy_true in Hc. rewrite Hc.
    rewrite Nat.add_0_r. apply map_headers_keeps; [apply dict_set_here|].
    intros n' c' Hn' Hc'. apply (Hlast (S n') c'); [lia | done | done].
  - replace (i + S n) with (S i + n) by lia. apply IH; [done | done |].
    intros n' c' Hlt Hn'. apply (Hlast (S n') c'); [lia | done].
Qed.

(** The header map has no key twice, and each of its entries points at
    a header cell that is not blank and whose stripped, upper-cased text
    is the key. *)
Theorem header_map_entries
        (selectors : list (option (option (list string)))) :
  NoDup (_detect_table_headers upper strip selectors).*1
  /\ forall h j,
      (h, j) ∈ _detect_table_headers upper strip selectors ->
      exists header_cells cell,
        Some (Some header_cells) ∈ selectors
        /\ header_cells !! j = Some cell
        /\ strip cell <> "" /\ h = header_name cell.
Proof.
  induction selectors as [|[[cells|]|] selectors [IHnd IHin]]; cbn.
  - split; [constructor | intros h j H; by apply elem_of_nil in H].
  - destruct cells as [|cell cells].
    + split; [done|]. intros h j H.
      destruct (IHin h j H) as (hc & c & ? & ?).
      exists hc, c. split; [by apply list_elem_of_further | done].
    + split; [apply map_headers_nodup; constructor|].
      intros h j H. apply map_headers_elem in H
        as [H|(n & c & Hn & -> & Hc & ->)]; [by apply elem_of_nil in H|].
      exists (cell :: cells), c. split; [apply list_elem_of_here | done].
  - split; [done|]. intros h j H.
    destruct (IHin h j H) as (hc & c & ? & ?).
    exists hc, c. split; [by apply list_elem_of_further | done].
  - split; [constructor | intros h j H; by apply elem_of_nil in H].
Qed.

(** A column name that several header cells carry keeps the index of
    the last of them. *)
Theorem header_map_last_column
        (header_cells : list string)
        (rest : list (option (option (list string))))
        (n : nat) (cell : string) :
  header_cells !! n = Some cell -> strip cell <> "" ->
  (forall n' cell', n < n' -> header_cells !! n' = Some cell' ->
                    strip cell' <> "" ->
                    header_name cell' <> header_name cell) ->
  (header_name cell, n)
    ∈ _detect_table_headers upper strip (Some (Some header_cells) :: rest).
Proof.
  intros Hn Hc Hlast. cbn.
  destruct header_cells as [|c cells]; [done|].
  apply (map_headers_last (c :: cells) 0 [] n cell); done.
Qed.

End WithBuiltins.

Lemma header_map_last_column_witness :
  ("STATUS", 3)
    ∈ _detect_table_headers Str.ascii_upper Str.ascii_strip
        [Some None; Some (Some ["Title"; "Status"; " "; "status "])].
Proof.
  assert (("STATUS", 3)
            ∈ _detect_table_headers Str.ascii_upper Str.ascii_strip
                [Some (Some ["Title"; "Status"; " "; "status "])]) as H.
  { apply (header_map_last_column Str.ascii_upper Str.ascii_strip
             ["Title"; "Status"; " "; "status "] [] 3 "status ").
    - reflexivity.
    - vm_compute. discriminate.
    - intros n' cell' Hlt Hn'.
      do 4 (destruct n' as [|n']; [lia|]). discriminate Hn'. }
  exact H.
Defined.

End HeadersFacts.
